(** * The opaque-memory transcode pipeline of
      [simple_5_transcode_opaque_async_vppresize_3dlut.cpp]

    The program is one function, [main]: it checks its command line, sets the
    session up, and then drives decode -> VPP -> encode through five loops
    ("stages") around a pool of [Task]s.  The accelerator, the files and the
    clock are outside the program; here they are a record of scripted answers
    ([env]) that the calls consume one by one, and every call is written to a
    [trace].  One iteration of the loop the program is in is one [tick]. *)

From Stdlib Require Import ZArith Lia Ascii String.
From stdpp Require Import base tactics option list.

Local Open Scope Z_scope.

(** ** Status codes *)

Definition mfxStatus := Z.

(** Modelled from the spec: the status codes of [mfxdefs.h], a header that is
    not under src/.  The spec only fixes their signs (Fatal statuses are
    negative, Busy is a warning); the values are the ones of the SDK's
    header. *)
Definition MFX_ERR_NONE : mfxStatus := 0.
Definition MFX_ERR_NULL_PTR : mfxStatus := -2.
Definition MFX_ERR_MEMORY_ALLOC : mfxStatus := -4.
Definition MFX_ERR_NOT_ENOUGH_BUFFER : mfxStatus := -5.
Definition MFX_ERR_NOT_FOUND : mfxStatus := -9.
Definition MFX_ERR_MORE_DATA : mfxStatus := -10.
Definition MFX_ERR_MORE_SURFACE : mfxStatus := -11.
Definition MFX_WRN_IN_EXECUTION : mfxStatus := 1.
Definition MFX_WRN_DEVICE_BUSY : mfxStatus := 2.
Definition MFX_WRN_PARTIAL_ACCELERATION : mfxStatus := 4.

(** ** Data *)

(** [mfxSyncPoint] is an opaque pointer; [None] is [NULL]. *)
Definition mfxSyncPoint := option nat.

Definition is_set (p : mfxSyncPoint) : bool :=
  match p with Some _ => true | None => false end.

(** The three fields of [mfxBitstream] the driver touches. *)
Record mfxBitstream := MkBitstream {
  Data : list Z;
  DataOffset : Z;
  DataLength : Z
}.

(** [typedef struct { mfxBitstream mfxBS; mfxSyncPoint syncp; } Task;] *)
Record Task := MkTask {
  mfxBS : mfxBitstream;
  syncp : mfxSyncPoint
}.

(** [pTasks[i] = {}] *)
Definition empty_task : Task := MkTask (MkBitstream [] 0 0) None.

(** A frame surface as far as the driver looks at it: [Data.Locked]. *)
Record mfxFrameSurface1 := MkSurface { Locked : Z }.

(** The bytes [WriteBitStreamFrame] hands to [fwrite]:
    [Data + DataOffset], [DataLength] of them. *)
Definition payload (bs : mfxBitstream) : list Z :=
  take (Z.to_nat (DataLength bs)) (drop (Z.to_nat (DataOffset bs)) (Data bs)).

(** ** The pools' scans *)

Fixpoint first_free_task (i : nat) (l : list Task) : option nat :=
  match l with
  | [] => None
  | t :: l' => if is_set (syncp t) then first_free_task (S i) l' else Some i
  end.

(** Modelled from the spec: [GetFreeTaskIndex] is in common_utils.cpp, which
    is not under src/.  Spec 4.2: a task is free when its completion token is
    unset; the pool is scanned from its first slot and the index of the first
    free one comes back, [MFX_ERR_NOT_FOUND] when there is none. *)
Definition GetFreeTaskIndex (pTaskPool : list Task) (nPoolSize : nat) : Z :=
  match first_free_task 0 (take nPoolSize pTaskPool) with
  | Some i => Z.of_nat i
  | None => MFX_ERR_NOT_FOUND
  end.

Fixpoint first_unlocked (i : nat) (l : list mfxFrameSurface1) : option nat :=
  match l with
  | [] => None
  | x :: l' => if Locked x =? 0 then Some i else first_unlocked (S i) l'
  end.

(** Modelled from the spec: [GetFreeSurfaceIndex] is in common_utils.cpp,
    which is not under src/.  Spec 4.1: the pool is scanned for an entry whose
    ownership flag is free; [NotFound] when every entry is owned; nothing is
    written, the entry found is not marked. *)
Definition GetFreeSurfaceIndex (pSurfacesPool : list mfxFrameSurface1)
    (nPoolSize : nat) : Z :=
  match first_unlocked 0 (take nPoolSize pSurfacesPool) with
  | Some i => Z.of_nat i
  | None => MFX_ERR_NOT_FOUND
  end.

(** ** The collaborators *)

(** What [DecodeFrameAsync] and [RunFrameVPPAsync] hand back: the status and
    the sync point they store through their last argument. *)
Record resp := MkResp {
  r_sts : mfxStatus;
  r_syncp : mfxSyncPoint
}.

(** What [EncodeFrameAsync] hands back: the status, and what it leaves in the
    task's bit stream and sync point. *)
Record enc_resp := MkEncResp {
  e_sts : mfxStatus;
  e_bs : mfxBitstream;
  e_syncp : mfxSyncPoint
}.

(** The answers still to come, per collaborator, in the order of the calls.
    A script that has run out answers as a source that has nothing left:
    [MFX_ERR_MORE_DATA] from the reader and from the three stages, success
    from the waits and the writer, a pool with every surface unlocked. *)
Record env := MkEnv {
  w_read : list mfxStatus;
  w_pool : list (list mfxFrameSurface1);
  w_pool2 : list (list mfxFrameSurface1);
  w_dec : list resp;
  w_vpp : list resp;
  w_enc : list enc_resp;
  w_sync : list mfxStatus;
  w_write : list mfxStatus
}.

Inductive event :=
| EvPrintf (msg : string)
| EvPrintRetMsg (err : mfxStatus)
| EvOpenFile (name mode : string) (ok : bool)
| EvSetup (call : string) (r : mfxStatus)
| EvRead (r : mfxStatus)
| EvDecode (bs_null : bool) (nIndex : Z) (r : resp)
| EvVPP (in_null : bool) (nIndex2 : Z) (r : resp)
| EvEncode (surface : option Z) (task : nat) (r : enc_resp)
| EvSync (task : nat) (sp : mfxSyncPoint) (wait : Z) (r : mfxStatus)
| EvWrite (task : nat) (bytes : list Z) (r : mfxStatus)
| EvSleep (ms : Z).

Inductive phase :=
| Stage1 | Stage2 | Stage3 | Stage4 | Stage5
| Done
| Aborted (rc : mfxStatus).

(** The sizes fixed before the loops start (lines 226, 227 and 363). *)
Record config := MkConfig {
  taskPoolSize : nat;
  nSurfNumDecVPP : nat;
  nSurfNumVPPEnc : nat
}.

(** The variables the loops share (lines 364 and 383 to 391), the world they
    talk to, the bytes the sink has received, and the calls made so far (the
    newest first). *)
Record state := MkState {
  pTasks : list Task;
  nFirstSyncTask : nat;
  nFrame : Z;
  nIndex : Z;
  sts : mfxStatus;
  world : env;
  sink : list (list Z);
  trace : list event;
  stage : phase
}.

(** ** Field updates *)

Definition set_pTasks (v : list Task) (s : state) : state :=
  MkState v (nFirstSyncTask s) (nFrame s) (nIndex s) (sts s) (world s)
          (sink s) (trace s) (stage s).
Definition set_nFirstSyncTask (v : nat) (s : state) : state :=
  MkState (pTasks s) v (nFrame s) (nIndex s) (sts s) (world s)
          (sink s) (trace s) (stage s).
Definition set_nFrame (v : Z) (s : state) : state :=
  MkState (pTasks s) (nFirstSyncTask s) v (nIndex s) (sts s) (world s)
          (sink s) (trace s) (stage s).
Definition set_nIndex (v : Z) (s : state) : state :=
  MkState (pTasks s) (nFirstSyncTask s) (nFrame s) v (sts s) (world s)
          (sink s) (trace s) (stage s).
Definition set_sts (v : mfxStatus) (s : state) : state :=
  MkState (pTasks s) (nFirstSyncTask s) (nFrame s) (nIndex s) v (world s)
          (sink s) (trace s) (stage s).
Definition set_world (v : env) (s : state) : state :=
  MkState (pTasks s) (nFirstSyncTask s) (nFrame s) (nIndex s) (sts s) v
          (sink s) (trace s) (stage s).
Definition set_sink (v : list (list Z)) (s : state) : state :=
  MkState (pTasks s) (nFirstSyncTask s) (nFrame s) (nIndex s) (sts s) (world s)
          v (trace s) (stage s).
Definition set_stage (v : phase) (s : state) : state :=
  MkState (pTasks s) (nFirstSyncTask s) (nFrame s) (nIndex s) (sts s) (world s)
          (sink s) (trace s) v.
Definition log (ev : event) (s : state) : state :=
  MkState (pTasks s) (nFirstSyncTask s) (nFrame s) (nIndex s) (sts s) (world s)
          (sink s) (ev :: trace s) (stage s).
Definition logs (evs : list event) (s : state) : state :=
  MkState (pTasks s) (nFirstSyncTask s) (nFrame s) (nIndex s) (sts s) (world s)
          (sink s) (evs ++ trace s) (stage s).

Definition set_w_read (v : list mfxStatus) (w : env) : env :=
  MkEnv v (w_pool w) (w_pool2 w) (w_dec w) (w_vpp w) (w_enc w) (w_sync w) (w_write w).
Definition set_w_pool (v : list (list mfxFrameSurface1)) (w : env) : env :=
  MkEnv (w_read w) v (w_pool2 w) (w_dec w) (w_vpp w) (w_enc w) (w_sync w) (w_write w).
Definition set_w_pool2 (v : list (list mfxFrameSurface1)) (w : env) : env :=
  MkEnv (w_read w) (w_pool w) v (w_dec w) (w_vpp w) (w_enc w) (w_sync w) (w_write w).
Definition set_w_dec (v : list resp) (w : env) : env :=
  MkEnv (w_read w) (w_pool w) (w_pool2 w) v (w_vpp w) (w_enc w) (w_sync w) (w_write w).
Definition set_w_vpp (v : list resp) (w : env) : env :=
  MkEnv (w_read w) (w_pool w) (w_pool2 w) (w_dec w) v (w_enc w) (w_sync w) (w_write w).
Definition set_w_enc (v : list enc_resp) (w : env) : env :=
  MkEnv (w_read w) (w_pool w) (w_pool2 w) (w_dec w) (w_vpp w) v (w_sync w) (w_write w).
Definition set_w_sync (v : list mfxStatus) (w : env) : env :=
  MkEnv (w_read w) (w_pool w) (w_pool2 w) (w_dec w) (w_vpp w) (w_enc w) v (w_write w).
Definition set_w_write (v : list mfxStatus) (w : env) : env :=
  MkEnv (w_read w) (w_pool w) (w_pool2 w) (w_dec w) (w_vpp w) (w_enc w) (w_sync w) v.

(** ** Control flow of a loop body

    A statement either falls through with a value, or leaves the body by
    [continue], by [break], or by [return] from [main]. *)

Inductive ctl (A : Type) :=
| Val (a : A) (s : state)
| Continue (s : state)
| Break (s : state)
| Return (rc : Z) (s : state).
Arguments Val {A} a s.
Arguments Continue {A} s.
Arguments Break {A} s.
Arguments Return {A} rc s.

Definition M (A : Type) : Type := state -> ctl A.

Definition ret {A} (a : A) : M A := fun s => Val a s.
Definition bind {A B} (m : M A) (k : A -> M B) : M B :=
  fun s =>
    match m s with
    | Val a s' => k a s'
    | Continue s' => Continue s'
    | Break s' => Break s'
    | Return rc s' => Return rc s'
    end.

Declare Scope drv_scope.
Delimit Scope drv_scope with drv.
Notation "x <- y ;; z" := (bind y (fun x => z))
  (at level 20, y at level 99, z at level 200, only parsing) : drv_scope.
Notation "y ;; z" := (bind y (fun _ => z))
  (at level 100, z at level 200, only parsing, right associativity) : drv_scope.
Local Open Scope drv_scope.

Definition gets {A} (f : state -> A) : M A := fun s => Val (f s) s.
Definition modify (f : state -> state) : M unit := fun s => Val tt (f s).
Definition continue_ {A} : M A := fun s => Continue s.
Definition break_ {A} : M A := fun s => Break s.
Definition return_ {A} (rc : Z) : M A := fun s => Return rc s.
Definition when (b : bool) (m : M unit) : M unit := if b then m else ret tt.

(** ** The macros of common_utils.h *)

(** Modelled from the spec: the [MSDK_] macros are in common_utils.h, which is
    not under src/.  [MSDK_CHECK_RESULT(P, X, ERR)] leaves [main] with [ERR],
    after printing it, when [P] is below [X] (spec 4.3: a negative status is
    propagated at once, with a diagnostic). *)
Definition MSDK_CHECK_RESULT (P X ERR : mfxStatus) : M unit :=
  if X >? P then modify (log (EvPrintRetMsg ERR)) ;; return_ ERR else ret tt.

(** Modelled from the spec: see [MSDK_CHECK_RESULT].
    [MSDK_CHECK_ERROR(P, X, ERR)] leaves [main] with [ERR], after printing it,
    when [P] equals [X]. *)
Definition MSDK_CHECK_ERROR (P X ERR : Z) : M unit :=
  if X =? P then modify (log (EvPrintRetMsg ERR)) ;; return_ ERR else ret tt.

(** Modelled from the spec: see [MSDK_CHECK_RESULT].
    [MSDK_CHECK_POINTER(P, ERR)] leaves [main] with [ERR] when [P] is null;
    nothing is printed. *)
Definition MSDK_CHECK_POINTER (P : bool) (ERR : mfxStatus) : M unit :=
  if P then ret tt else return_ ERR.

(** Modelled from the spec: see [MSDK_CHECK_RESULT].
    [MSDK_BREAK_ON_ERROR(P)] breaks when [P] is not [MFX_ERR_NONE]. *)
Definition MSDK_BREAK_ON_ERROR (P : mfxStatus) : M unit :=
  if MFX_ERR_NONE =? P then ret tt else break_.

(** Modelled from the spec: see [MSDK_CHECK_RESULT].
    [MSDK_IGNORE_MFX_STS(P, X)] turns the status [X] into [MFX_ERR_NONE]. *)
Definition MSDK_IGNORE_MFX_STS (P X : mfxStatus) : mfxStatus :=
  if X =? P then MFX_ERR_NONE else P.

Definition MSDK_SLEEP (ms : Z) : M unit := modify (log (EvSleep ms)).

(** ** The calls that leave the program *)

Definition task_at (l : list Task) (i : nat) : Task := default empty_task (l !! i).

(** Each call takes the next answer of its script, [hd] with the answer of an
    exhausted source, and leaves the rest. *)

(** [ReadBitStreamData(&mfxBS, fSource.get())] *)
Definition ReadBitStreamData : M mfxStatus := fun s =>
  let r := hd MFX_ERR_MORE_DATA (w_read (world s)) in
  Val r (log (EvRead r) (set_world (set_w_read (tl (w_read (world s))) (world s)) s)).

(** [GetFreeSurfaceIndex(pSurfaces.data(), nSurfNumDecVPP)]: the scan reads
    the lock counters as the accelerator has left them. *)
Definition find_pSurfaces (n : nat) : M Z := fun s =>
  let pool := hd (replicate n (MkSurface 0)) (w_pool (world s)) in
  Val (GetFreeSurfaceIndex pool n)
      (set_world (set_w_pool (tl (w_pool (world s))) (world s)) s).

(** [GetFreeSurfaceIndex(pSurfaces2.data(), nSurfNumVPPEnc)] *)
Definition find_pSurfaces2 (n : nat) : M Z := fun s =>
  let pool := hd (replicate n (MkSurface 0)) (w_pool2 (world s)) in
  Val (GetFreeSurfaceIndex pool n)
      (set_world (set_w_pool2 (tl (w_pool2 (world s))) (world s)) s).

Definition exhausted : resp := MkResp MFX_ERR_MORE_DATA None.

(** [mfxDEC.DecodeFrameAsync(bs, pSurfaces[nIndex], &pmfxOutSurface, &syncpD)] *)
Definition DecodeFrameAsync (bs_null : bool) (i : Z) : M resp := fun s =>
  let r := hd exhausted (w_dec (world s)) in
  Val r (log (EvDecode bs_null i r)
           (set_world (set_w_dec (tl (w_dec (world s))) (world s)) s)).

(** [session.SyncOperation(pTasks[i].syncp, wait)] *)
Definition SyncOperation (i : nat) (sp : mfxSyncPoint) (wait : Z) : M mfxStatus := fun s =>
  let r := hd MFX_ERR_NONE (w_sync (world s)) in
  Val r (log (EvSync i sp wait r)
           (set_world (set_w_sync (tl (w_sync (world s))) (world s)) s)).

(** [WriteBitStreamFrame(&pTasks[i].mfxBS, fSink.get())]: the sink has the
    frame when the call reports [MFX_ERR_NONE]. *)
Definition WriteBitStreamFrame (i : nat) (bs : mfxBitstream) : M mfxStatus := fun s =>
  let r := hd MFX_ERR_NONE (w_write (world s)) in
  let s1 := log (EvWrite i (payload bs) r)
              (set_world (set_w_write (tl (w_write (world s))) (world s)) s) in
  Val r (if r =? MFX_ERR_NONE then set_sink (sink s ++ [payload bs]) s1 else s1).

(** The [for (;;)] around [mfxVPP.RunFrameVPPAsync] (lines 441 to 454, 539 to
    551 and 620 to 632), one answer of the script per call. *)
Fixpoint vpp_loop (in_null : bool) (i2 : Z) (rs : list resp) (s : state) : state :=
  match rs with
  | [] => set_sts MFX_ERR_MORE_DATA (log (EvVPP in_null i2 exhausted) s)
  | r :: rs' =>
      let s1 := set_sts (r_sts r)
                  (log (EvVPP in_null i2 r) (set_world (set_w_vpp rs' (world s)) s)) in
      if (MFX_ERR_NONE <? r_sts r) && negb (is_set (r_syncp r)) then
        (* repeat the call if warning and no output *)
        vpp_loop in_null i2 rs'
          (if MFX_WRN_DEVICE_BUSY =? r_sts r then log (EvSleep 1) s1 else s1)
      else if (MFX_ERR_NONE <? r_sts r) && is_set (r_syncp r) then
        set_sts MFX_ERR_NONE s1      (* ignore warnings if output is available *)
      else s1                         (* not a warning *)
  end.

Definition RunFrameVPPAsync_loop (in_null : bool) (i2 : Z) : M unit :=
  fun s => Val tt (vpp_loop in_null i2 (w_vpp (world s)) s).

(** The [for (;;)] around [mfxENC.EncodeFrameAsync] (lines 466 to 482, 563 to
    578, 641 to 656 and 694 to 706).  Each call stores into
    [pTasks[nTaskIdx].mfxBS] and [pTasks[nTaskIdx].syncp]. *)
Fixpoint enc_loop (surface : option Z) (i : nat) (rs : list enc_resp) (s : state) : state :=
  match rs with
  | [] =>
      let t := task_at (pTasks s) i in
      set_sts MFX_ERR_MORE_DATA
        (log (EvEncode surface i (MkEncResp MFX_ERR_MORE_DATA (mfxBS t) (syncp t))) s)
  | r :: rs' =>
      let s1 := set_sts (e_sts r)
                  (set_pTasks (<[i := MkTask (e_bs r) (e_syncp r)]> (pTasks s))
                     (log (EvEncode surface i r)
                        (set_world (set_w_enc rs' (world s)) s))) in
      if (MFX_ERR_NONE <? e_sts r) && negb (is_set (e_syncp r)) then
        (* repeat the call if warning and no output *)
        enc_loop surface i rs'
          (if MFX_WRN_DEVICE_BUSY =? e_sts r then log (EvSleep 1) s1 else s1)
      else if (MFX_ERR_NONE <? e_sts r) && is_set (e_syncp r) then
        set_sts MFX_ERR_NONE s1      (* ignore warnings if output is available *)
      else if MFX_ERR_NOT_ENOUGH_BUFFER =? e_sts r then s1
      else s1
  end.

Definition EncodeFrameAsync_loop (surface : option Z) (nTaskIdx : Z) : M unit :=
  fun s => Val tt (enc_loop surface (Z.to_nat nTaskIdx) (w_enc (world s)) s).

(** ** The loop bodies *)

Section Driver.

Context (cfg : config).

(** [pTasks[i].syncp = NULL; pTasks[i].mfxBS.DataLength = 0;
     pTasks[i].mfxBS.DataOffset = 0;] *)
Definition recycle (t : Task) : Task :=
  MkTask (MkBitstream (Data (mfxBS t)) 0 0) None.

(** "No more free tasks, need to sync": lines 399 to 410, and again at 504,
    600, 677 and 718. *)
Definition flush_oldest : M unit :=
  f <- gets nFirstSyncTask ;;
  t <- gets (fun s => task_at (pTasks s) f) ;;
  r <- SyncOperation f (syncp t) 60000 ;;
  modify (set_sts r) ;;
  MSDK_CHECK_RESULT r MFX_ERR_NONE r ;;
  r <- WriteBitStreamFrame f (mfxBS t) ;;
  modify (set_sts r) ;;
  MSDK_BREAK_ON_ERROR r ;;
  modify (fun s => set_pTasks (alter recycle f (pTasks s)) s) ;;
  modify (set_nFirstSyncTask ((f + 1) mod (taskPoolSize cfg))%nat) ;;
  modify (fun s => set_nFrame ((nFrame s + 1) mod 2 ^ 32) s).

(** Lines 438 to 488, and 536 to 584: a decoded frame goes through VPP and
    into the encoder. *)
Definition vpp_and_encode (nTaskIdx : Z) : M unit :=
  nIndex2 <- find_pSurfaces2 (nSurfNumVPPEnc cfg) ;;
  MSDK_CHECK_ERROR MFX_ERR_NOT_FOUND nIndex2 MFX_ERR_MEMORY_ALLOC ;;
  RunFrameVPPAsync_loop false nIndex2 ;;
  st <- gets sts ;;
  (if MFX_ERR_MORE_DATA =? st then continue_
   else if MFX_ERR_MORE_SURFACE =? st then break_
   else MSDK_BREAK_ON_ERROR st) ;;
  EncodeFrameAsync_loop (Some nIndex2) nTaskIdx ;;
  st <- gets sts ;;
  if MFX_ERR_MORE_DATA =? st then modify (set_sts MFX_ERR_NONE) ;; continue_
  else ret tt.

(** Stage 1 with a free task, lines 416 to 489. *)
Definition stage1_work (nTaskIdx : Z) : M unit :=
  st <- gets sts ;;
  when (MFX_WRN_DEVICE_BUSY =? st) (MSDK_SLEEP 1) ;;
  when (MFX_ERR_MORE_DATA =? st)
    (r <- ReadBitStreamData ;; modify (set_sts r) ;; MSDK_BREAK_ON_ERROR r) ;;
  st <- gets sts ;;
  when ((MFX_ERR_MORE_SURFACE =? st) || (MFX_ERR_NONE =? st))
    (i <- find_pSurfaces (nSurfNumDecVPP cfg) ;;
     modify (set_nIndex i) ;;
     MSDK_CHECK_ERROR MFX_ERR_NOT_FOUND i MFX_ERR_MEMORY_ALLOC) ;;
  i <- gets nIndex ;;
  r <- DecodeFrameAsync false i ;;
  modify (set_sts (if (MFX_ERR_NONE <? r_sts r) && is_set (r_syncp r)
                   then MFX_ERR_NONE else r_sts r)) ;;
  st <- gets sts ;;
  if MFX_ERR_NONE =? st then vpp_and_encode nTaskIdx else ret tt.

(** Stage 1, lines 396 to 490. *)
Definition stage1_body : M unit :=
  nTaskIdx <- gets (fun s => GetFreeTaskIndex (pTasks s) (taskPoolSize cfg)) ;;
  if MFX_ERR_NOT_FOUND =? nTaskIdx then flush_oldest else stage1_work nTaskIdx.

(** Stage 2 with a free task, lines 521 to 585. *)
Definition stage2_work (nTaskIdx : Z) : M unit :=
  st <- gets sts ;;
  when (MFX_WRN_DEVICE_BUSY =? st) (MSDK_SLEEP 1) ;;
  i <- find_pSurfaces (nSurfNumDecVPP cfg) ;;
  modify (set_nIndex i) ;;
  MSDK_CHECK_ERROR MFX_ERR_NOT_FOUND i MFX_ERR_MEMORY_ALLOC ;;
  r <- DecodeFrameAsync true i ;;
  modify (set_sts (if (MFX_ERR_NONE <? r_sts r) && is_set (r_syncp r)
                   then MFX_ERR_NONE else r_sts r)) ;;
  st <- gets sts ;;
  if MFX_ERR_NONE =? st then vpp_and_encode nTaskIdx else ret tt.

(** Stage 2, lines 501 to 586. *)
Definition stage2_body : M unit :=
  nTaskIdx <- gets (fun s => GetFreeTaskIndex (pTasks s) (taskPoolSize cfg)) ;;
  if MFX_ERR_NOT_FOUND =? nTaskIdx then flush_oldest else stage2_work nTaskIdx.

(** Stage 3 with a free task, lines 617 to 662. *)
Definition stage3_work (nTaskIdx : Z) : M unit :=
  nIndex2 <- find_pSurfaces2 (nSurfNumVPPEnc cfg) ;;
  MSDK_CHECK_ERROR MFX_ERR_NOT_FOUND nIndex2 MFX_ERR_MEMORY_ALLOC ;;
  RunFrameVPPAsync_loop true nIndex2 ;;
  st <- gets sts ;;
  (if MFX_ERR_MORE_SURFACE =? st then break_ else MSDK_BREAK_ON_ERROR st) ;;
  EncodeFrameAsync_loop (Some nIndex2) nTaskIdx ;;
  st <- gets sts ;;
  if MFX_ERR_MORE_DATA =? st then modify (set_sts MFX_ERR_NONE) ;; continue_
  else ret tt.

(** Stage 3, lines 597 to 663. *)
Definition stage3_body : M unit :=
  nTaskIdx <- gets (fun s => GetFreeTaskIndex (pTasks s) (taskPoolSize cfg)) ;;
  if MFX_ERR_NOT_FOUND =? nTaskIdx then flush_oldest else stage3_work nTaskIdx.

(** Stage 4 with a free task, lines 694 to 706. *)
Definition stage4_work (nTaskIdx : Z) : M unit :=
  EncodeFrameAsync_loop None nTaskIdx.

(** Stage 4, lines 674 to 707. *)
Definition stage4_body : M unit :=
  nTaskIdx <- gets (fun s => GetFreeTaskIndex (pTasks s) (taskPoolSize cfg)) ;;
  if MFX_ERR_NOT_FOUND =? nTaskIdx then flush_oldest else stage4_work nTaskIdx.

(** The loop conditions of lines 395, 500, 596, 673 and 717. *)
Definition stage1_cond (s : state) : bool :=
  (MFX_ERR_NONE <=? sts s) || (MFX_ERR_MORE_DATA =? sts s)
  || (MFX_ERR_MORE_SURFACE =? sts s).
Definition stage2_cond (s : state) : bool :=
  (MFX_ERR_NONE <=? sts s) || (MFX_ERR_MORE_SURFACE =? sts s).
Definition stage3_cond (s : state) : bool :=
  (MFX_ERR_NONE <=? sts s) || (MFX_ERR_MORE_DATA =? sts s)
  || (MFX_ERR_MORE_SURFACE =? sts s).
Definition stage4_cond (s : state) : bool := MFX_ERR_NONE <=? sts s.
Definition stage5_cond (s : state) : bool :=
  is_set (syncp (task_at (pTasks s) (nFirstSyncTask s))).

(** What follows each of the first four loops (lines 494, 495; 590, 591;
    667, 668; 711, 712). *)
Definition leave_stage (next : phase) (s : state) : state :=
  let s1 := set_sts (MSDK_IGNORE_MFX_STS (sts s) MFX_ERR_MORE_DATA) s in
  match MSDK_CHECK_RESULT (sts s1) MFX_ERR_NONE (sts s1) s1 with
  | Return rc s2 => set_stage (Aborted rc) s2
  | Val _ s2 | Continue s2 | Break s2 => set_stage next s2
  end.

(** How a turn of a [while] ends: [continue] and the end of the body go back
    to the condition, [break] goes to what follows the loop, [return] leaves
    [main]. *)
Definition settle (after : state -> state) (c : ctl unit) : state :=
  match c with
  | Val _ s' | Continue s' => s'
  | Break s' => after s'
  | Return rc s' => set_stage (Aborted rc) s'
  end.

(** One turn of a [while]: the condition, then the body; a false condition
    goes to what follows the loop. *)
Definition iteration (cond : bool) (body : M unit) (after : state -> state)
    (s : state) : state :=
  if cond then settle after (body s) else after s.

Definition tick (s : state) : state :=
  match stage s with
  | Stage1 => iteration (stage1_cond s) stage1_body (leave_stage Stage2) s
  | Stage2 => iteration (stage2_cond s) stage2_body (leave_stage Stage3) s
  | Stage3 => iteration (stage3_cond s) stage3_body (leave_stage Stage4) s
  | Stage4 => iteration (stage4_cond s) stage4_body (leave_stage Stage5) s
  | Stage5 => iteration (stage5_cond s) flush_oldest (set_stage Done) s
  | Done | Aborted _ => s
  end.

Definition run (n : nat) (s : state) : state := Nat.iter n tick s.

(** Lines 364 to 391: the pool of empty tasks and the loop variables. *)
Definition init (w : env) : state :=
  MkState (replicate (taskPoolSize cfg) empty_task) 0%nat 0 0 MFX_ERR_NONE w [] [] Stage1.

End Driver.

(** ** How long the loops can go on

    [potential] bounds the ticks a state still has before it: an answer taken
    from the reader or from a stage costs six, an occupied task three, a stage
    still to leave three, and a status other than [MFX_ERR_MORE_DATA] two. *)

Definition budget (w : env) : nat :=
  (length (w_read w) + length (w_dec w) + length (w_vpp w) + length (w_enc w))%nat.

Definition outstanding (l : list Task) : nat :=
  length (filter (fun t => is_set (syncp t) = true) l).

Definition rank (p : phase) : nat :=
  match p with
  | Stage1 => 5 | Stage2 => 4 | Stage3 => 3 | Stage4 => 2 | Stage5 => 1
  | Done | Aborted _ => 0
  end%nat.

Definition potential (s : state) : nat :=
  (6 * budget (world s) + 3 * outstanding (pTasks s) + 3 * rank (stage s)
   + (if (sts s =? MFX_ERR_MORE_DATA)%Z then 0 else 2))%nat.

(** ** [main] *)

(** The fields of [options.values] that [main] reads. *)
Record CmdOptions := MkOptions {
  Bitrate : Z;
  FrameRateN : Z;
  FrameRateD : Z;
  SourceName : string;
  SinkName : string
}.

(** What the calls of lines 71 to 360 and of line 751 answer, and what they
    leave in the structures that [main] reads afterwards: the frame counts
    of the three [QueryIOSurf]; [AsyncDepth] of [VPPParams] and of
    [mfxEncParams], which [DecodeHeader], [QueryIOSurf] and [Init] get by
    pointer after line 106 has set it; [BufferSizeInKB] of the parameters
    that [GetVideoParam] fills. *)
Record setup := MkSetup {
  open_source : bool;
  open_sink : bool;
  on_Initialize : mfxStatus;
  on_DecodeHeader : mfxStatus;
  on_DecQueryIOSurf : mfxStatus;
  on_EncQueryIOSurf : mfxStatus;
  on_VppQueryIOSurf : mfxStatus;
  on_Create3DLutMemory : mfxStatus;
  on_DecInit : mfxStatus;
  on_EncInit : mfxStatus;
  on_VppInit : mfxStatus;
  on_GetVideoParam : mfxStatus;
  on_Release3DLutMemory : mfxStatus;
  DecSuggested : Z;
  EncSuggested : Z;
  VppInSuggested : Z;
  VppOutSuggested : Z;
  VppAsyncDepth : Z;
  EncAsyncDepth : Z;
  BufferSizeInKB : Z
}.

(** [name[0]] is not the null character. *)
Definition nonempty (name : string) : bool :=
  match name with
  | EmptyString => false
  | String c _ => negb (Ascii.eqb c Ascii.zero)
  end.

Definition nl : string := String "010"%char EmptyString.

Definition printf (msg : string) : M unit := modify (log (EvPrintf msg)).

(** A call of the set-up, with [MSDK_IGNORE_MFX_STS(sts,
    MFX_WRN_PARTIAL_ACCELERATION)] where the source has it, and the
    [MSDK_CHECK_RESULT(sts, MFX_ERR_NONE, sts)] that follows every one. *)
Definition call (name : string) (ignore_partial : bool) (r : mfxStatus) : M unit :=
  modify (log (EvSetup name r)) ;;
  modify (set_sts (if ignore_partial
                   then MSDK_IGNORE_MFX_STS r MFX_WRN_PARTIAL_ACCELERATION else r)) ;;
  st <- gets sts ;;
  MSDK_CHECK_RESULT st MFX_ERR_NONE st.

(** [mfxDecParams.AsyncDepth = 4;] (line 106): the value [main] asks for.
    What lines 226, 227 and 363 read is what the calls in between have left
    ([VppAsyncDepth], [EncAsyncDepth]). *)
Definition AsyncDepth : Z := 4.

(** Lines 226, 227 and 363; the three are [mfxU16]. *)
Definition main_config (su : setup) : config :=
  MkConfig (Z.to_nat (EncAsyncDepth su mod 2 ^ 16))
    (Z.to_nat ((DecSuggested su + VppInSuggested su + VppAsyncDepth su) mod 2 ^ 16))
    (Z.to_nat ((EncSuggested su + VppOutSuggested su + VppAsyncDepth su) mod 2 ^ 16)).

(** [pTasks[i].mfxBS.MaxLength = par.mfx.BufferSizeInKB * 1000] (line 368):
    an [mfxU16] times 1000, which fits the [mfxU32] it is stored in. *)
Definition MaxLength (su : setup) : Z := (BufferSizeInKB su mod 2 ^ 16) * 1000.

(** The loop of lines 366 to 373, [n] tasks still to prepare: the buffer of
    the task is resized to [MaxLength] bytes, and [main] is left with
    [MFX_ERR_MEMORY_ALLOC] when [bstTaskData[i].data()] is null, as it is for
    a vector of no bytes. *)
Fixpoint prepare_tasks (len : Z) (n : nat) : M unit :=
  match n with
  | O => ret tt
  | S n' =>
      MSDK_CHECK_POINTER (negb (len =? 0)) MFX_ERR_MEMORY_ALLOC ;;
      prepare_tasks len n'
  end.

(** What is in the sink file: without a sink ([fSink] stays null when
    [bEnableOutput] is false, lines 75 to 79) there is no file, and no byte
    of it. *)
Definition to_file (bEnableOutput : bool) (s : state) : state :=
  if bEnableOutput then s else set_sink [] s.

(** The five loops, run until they are left. *)
Definition transcode (bEnableOutput : bool) (cfg : config) : M unit := fun s =>
  let s' := to_file bEnableOutput (run cfg (potential s) s) in
  match stage s' with
  | Aborted rc => Return rc s'
  | _ => Val tt s'
  end.

(** The body of [main], line by line.  The trace records the calls that
    leave the program (files, the SDK, the reader and the writer, sleeps) and
    the messages of errors; the progress messages of lines 284, 339, 378 and
    739 are not in it.  The tests of lines 241 and 250 are on pointers that
    [new] has returned, which are never null.  With a pool of no task
    ([taskPoolSize] 0) the source indexes an empty vector at line 399: the
    statements about [main] past line 373 are for pools of one task at
    least. *)
Definition main_body (options : CmdOptions) (su : setup) : M Z :=
  when (Bitrate options =? 0)
    (printf ("error: bitrate not set (mandatory)" ++ nl) ;; return_ (-1)) ;;
  when ((FrameRateN options =? 0) || (FrameRateD options =? 0))
    (printf ("error: framerate not set (mandatory)" ++ nl) ;; return_ (-1)) ;;
  when (negb (nonempty (SourceName options)))
    (printf ("error: source file name not set (mandatory)" ++ nl) ;; return_ (-1)) ;;
  let bEnableOutput := nonempty (SinkName options) in
  modify (log (EvOpenFile (SourceName options) "rb" (open_source su))) ;;
  MSDK_CHECK_POINTER (open_source su) MFX_ERR_NULL_PTR ;;
  when bEnableOutput
    (modify (log (EvOpenFile (SinkName options) "wb" (open_sink su))) ;;
     MSDK_CHECK_POINTER (open_sink su) MFX_ERR_NULL_PTR) ;;
  call "Initialize" false (on_Initialize su) ;;
  r <- ReadBitStreamData ;;
  modify (set_sts r) ;;
  MSDK_CHECK_RESULT r MFX_ERR_NONE r ;;
  call "mfxDEC.DecodeHeader" true (on_DecodeHeader su) ;;
  call "mfxDEC.QueryIOSurf" true (on_DecQueryIOSurf su) ;;
  call "mfxENC.QueryIOSurf" false (on_EncQueryIOSurf su) ;;
  call "mfxVPP.QueryIOSurf" false (on_VppQueryIOSurf su) ;;
  call "Create3DLutMemory" false (on_Create3DLutMemory su) ;;
  call "mfxDEC.Init" true (on_DecInit su) ;;
  call "mfxENC.Init" true (on_EncInit su) ;;
  call "mfxVPP.Init" true (on_VppInit su) ;;
  call "mfxENC.GetVideoParam" false (on_GetVideoParam su) ;;
  let cfg := main_config su in
  modify (set_pTasks (replicate (taskPoolSize cfg) empty_task)) ;;
  prepare_tasks (MaxLength su) (taskPoolSize cfg) ;;
  modify (set_sts MFX_ERR_NONE) ;;
  transcode bEnableOutput cfg ;;
  call "Release3DLutMemory" false (on_Release3DLutMemory su) ;;
  ret 0.

(** The state [main] starts from: nothing done yet. *)
Definition boot (w : env) : state :=
  MkState [] 0%nat 0 0 MFX_ERR_NONE w [] [] Stage1.

(** [int main(int argc, char** argv)], from the options [ParseOptions] has
    filled in: the exit code and the state left behind. *)
Definition main (options : CmdOptions) (su : setup) (w : env) : Z * state :=
  match main_body options su (boot w) with
  | Val rc s => (rc, s)
  | Continue s | Break s => (0, s)
  | Return rc s => (rc, s)
  end.

(** ** Reading the trace *)

(** The state a statement leaves behind, whichever way it is left. *)
Definition exits {A} (c : ctl A) : state :=
  match c with
  | Val _ s | Continue s | Break s | Return _ s => s
  end.

Definition respects {A} (R : state -> state -> Prop) (m : M A) : Prop :=
  forall s, R s (exits (m s)).

(** The encode operations issued: the calls of [EncodeFrameAsync] that stored
    a sync point, by the bytes of their bit stream, the oldest first. *)
Fixpoint issued (tr : list event) : list (list Z) :=
  match tr with
  | [] => []
  | EvEncode _ _ r :: tr' =>
      issued tr' ++ (if is_set (e_syncp r) then [payload (e_bs r)] else [])
  | _ :: tr' => issued tr'
  end.

(** The frames the writer has accepted, the oldest first. *)
Fixpoint written (tr : list event) : list (list Z) :=
  match tr with
  | [] => []
  | EvWrite _ b r :: tr' => written tr' ++ (if r =? MFX_ERR_NONE then [b] else [])
  | _ :: tr' => written tr'
  end.

(** What one call does to task [i]: an encode into it stores the bit stream
    and the sync point, a successful write of it is followed by its
    recycling. *)
Definition slot_event (i : nat) (ev : event) (t : Task) : Task :=
  match ev with
  | EvEncode _ j r => if decide (j = i) then MkTask (e_bs r) (e_syncp r) else t
  | EvWrite j _ r =>
      if decide (j = i) then (if r =? MFX_ERR_NONE then recycle t else t) else t
  | _ => t
  end.


(** [s'] comes after [s]: the calls made in between account for the tasks and
    for the sink. *)
Definition evolves (s s' : state) : Prop :=
  length (pTasks s') = length (pTasks s) /\
  exists evs,
    trace s' = evs ++ trace s /\
    sink s' = sink s ++ written evs /\
    forall j, (j < length (pTasks s))%nat ->
      task_at (pTasks s') j = foldr (slot_event j) (task_at (pTasks s) j) evs.

(** Calls that touch neither a task nor the sink. *)
Definition idle (ev : event) : Prop :=
  match ev with
  | EvEncode _ _ _ | EvWrite _ _ _ => False
  | _ => True
  end.

(** Calls that, besides, wait for nothing. *)
Definition silent (ev : event) : Prop :=
  match ev with
  | EvEncode _ _ _ | EvWrite _ _ _ | EvSync _ _ _ _ => False
  | _ => True
  end.

(** [s'] is [s] but for the status, the surface index, the scripts of the
    reader, the pools, the decoder and the VPP, and calls that are [silent]. *)
Definition neutral (s s' : state) : Prop :=
  pTasks s' = pTasks s /\ nFirstSyncTask s' = nFirstSyncTask s /\
  nFrame s' = nFrame s /\ sink s' = sink s /\ stage s' = stage s /\
  w_enc (world s') = w_enc (world s) /\ w_sync (world s') = w_sync (world s) /\
  w_write (world s') = w_write (world s) /\
  exists evs, trace s' = evs ++ trace s /\ Forall silent evs.

(** ** The pool as a queue *)

(** The slot [j] places after [f], around the pool. *)
Definition ring (N f j : nat) : nat := ((f + j) mod N)%nat.

(** The bit streams of the [k] slots from [f] on. *)
Definition pending (N : nat) (l : list Task) (f k : nat) : list (list Z) :=
  map (fun j => payload (mfxBS (task_at l (ring N f j)))) (seq 0 k).

(** The pool holds a queue of [k] tasks: the occupied slots are the [k] from
    [nFirstSyncTask] on; while tasks are still claimed (stages 1 to 4) the
    pool is filled from slot 0 or has at most one free slot; the sink and the
    queue together are the operations issued, in their order; the head has
    advanced once per frame written. *)
Record fifo (cfg : config) (s : state) (k : nat) : Prop := MkFifo {
  fifo_len : length (pTasks s) = taskPoolSize cfg;
  fifo_first : (nFirstSyncTask s < taskPoolSize cfg)%nat;
  fifo_k : (k <= taskPoolSize cfg)%nat;
  fifo_occ : forall j, (j < taskPoolSize cfg)%nat ->
    is_set (syncp (task_at (pTasks s) (ring (taskPoolSize cfg) (nFirstSyncTask s) j)))
    = bool_decide (j < k)%nat;
  fifo_fill : (2 <= rank (stage s))%nat ->
    nFirstSyncTask s = 0%nat \/ (taskPoolSize cfg - 1 <= k)%nat;
  fifo_order :
    sink s ++ pending (taskPoolSize cfg) (pTasks s) (nFirstSyncTask s) k
    = issued (trace s);
  fifo_head : nFirstSyncTask s = (length (sink s) mod taskPoolSize cfg)%nat
}.

(** One [EncodeFrameAsync] loop into slot [i] at most, between calls that are
    [neutral]. *)
Definition works (i : nat) (s s' : state) : Prop :=
  exists s1 s2,
    neutral s s1 /\
    (s2 = s1 \/ exists surf, s2 = enc_loop surf i (w_enc (world s1)) s1) /\
    neutral s2 s'.

(** ** A run without failures *)

(** A status that is neither Fatal nor NeedMoreOutput: Ready, a warning such
    as Busy, or NeedMoreInput. *)
Definition passes (r : mfxStatus) : Prop :=
  MFX_ERR_NONE <= r \/ r = MFX_ERR_MORE_DATA.

(** What the decoder may answer besides: [MFX_ERR_MORE_SURFACE], which the
    conditions of the first two loops (lines 395 and 500) accept, and which
    is followed by a new scan of the pool (lines 424 and 524). *)
Definition flows (r : mfxStatus) : Prop :=
  passes r \/ r = MFX_ERR_MORE_SURFACE.

(** The world of a run in which nothing fails: the reader, the VPP and the
    encoder answer with statuses that pass, the decoder with statuses that
    pass or with [MFX_ERR_MORE_SURFACE], every scan of a pool finds a free
    surface, every wait and every write comes back without an error. *)
Record nominal (cfg : config) (w : env) : Prop := MkNominal {
  nom_read : Forall passes (w_read w);
  nom_pool : Forall (fun p => GetFreeSurfaceIndex p (nSurfNumDecVPP cfg)
                              <> MFX_ERR_NOT_FOUND) (w_pool w);
  nom_pool2 : Forall (fun p => GetFreeSurfaceIndex p (nSurfNumVPPEnc cfg)
                               <> MFX_ERR_NOT_FOUND) (w_pool2 w);
  nom_size : (0 < nSurfNumDecVPP cfg)%nat;
  nom_size2 : (0 < nSurfNumVPPEnc cfg)%nat;
  nom_dec : Forall (fun r => flows (r_sts r)) (w_dec w);
  nom_vpp : Forall (fun r => passes (r_sts r)) (w_vpp w);
  nom_enc : Forall (fun r => passes (e_sts r)) (w_enc w);
  nom_sync : Forall (fun r => MFX_ERR_NONE <= r) (w_sync w);
  nom_write : Forall (fun r => MFX_ERR_NONE <= r) (w_write w)
}.

(** The place of a phase in the order of the program. *)
Definition position (p : phase) : nat :=
  match p with
  | Stage1 => 1 | Stage2 => 2 | Stage3 => 3 | Stage4 => 4 | Stage5 => 5
  | Done => 6
  | Aborted _ => 7
  end%nat.

Definition final (p : phase) : Prop :=
  match p with
  | Done | Aborted _ => True
  | _ => False
  end.

(** ** Words for the statements *)

(** The part of [potential] that the calls pay for. *)
Definition score (s : state) : nat :=
  (6 * budget (world s) + 3 * outstanding (pTasks s))%nat.

(** The condition of the loop the program is in. *)
Definition loop_cond (s : state) : bool :=
  match stage s with
  | Stage1 => stage1_cond s
  | Stage2 => stage2_cond s
  | Stage3 => stage3_cond s
  | Stage4 => stage4_cond s
  | Stage5 => stage5_cond s
  | Done | Aborted _ => false
  end.

(** The next turn of the loop takes the branch that waits: no task is free in
    stages 1 to 4, the head task is occupied in stage 5. *)
Definition about_to_wait (cfg : config) (s : state) : bool :=
  match stage s with
  | Stage1 | Stage2 | Stage3 | Stage4 =>
      loop_cond s
      && (MFX_ERR_NOT_FOUND =? GetFreeTaskIndex (pTasks s) (taskPoolSize cfg))
  | Stage5 => loop_cond s
  | Done | Aborted _ => false
  end.

(** The next turn of the loop takes the branch that works on a free task. *)
Definition about_to_work (cfg : config) (s : state) : bool :=
  match stage s with
  | Stage1 | Stage2 | Stage3 | Stage4 =>
      loop_cond s
      && negb (MFX_ERR_NOT_FOUND =? GetFreeTaskIndex (pTasks s) (taskPoolSize cfg))
  | Stage5 | Done | Aborted _ => false
  end.

(** What the next scan of a pool of [n] surfaces returns. *)
Definition next_scan (n : nat) (pools : list (list mfxFrameSurface1)) : Z :=
  GetFreeSurfaceIndex (hd (replicate n (MkSurface 0)) pools) n.

(** Busy, as a stage reports it: the warning, and no sync point. *)
Definition busy : resp := MkResp MFX_WRN_DEVICE_BUSY None.

Definition is_busy (r : enc_resp) : Prop :=
  e_sts r = MFX_WRN_DEVICE_BUSY /\ e_syncp r = None.

(** [n] rounds of "the call answered Busy, sleep", the newest first. *)
Definition busy_rounds (call : event) (n : nat) : list event :=
  concat (replicate n [EvSleep 1; call]).

(** The same for the encoder, whose Busy answers may differ in the bit stream
    they leave. *)
Definition busy_encodes (surface : option Z) (i : nat) (l : list enc_resp) : list event :=
  flat_map (fun r => [EvSleep 1; EvEncode surface i r]) (rev l).

(** A statement that leaves [main] only with an error code. *)
Definition graceful (c : ctl unit) : Prop :=
  match c with
  | Return rc _ => rc < MFX_ERR_NONE
  | _ => True
  end.

Definition same_stage (s s' : state) : Prop := stage s' = stage s.

(** [n] rounds of "sleep, then the decoder answers Busy again", the newest
    first. *)
Definition busy_decodes (i : Z) (n : nat) : list event :=
  concat (replicate n [EvDecode false i busy; EvSleep 1]).





(** The phase of turn [n] of a run that enters stage 2 at turn [n1], stage 3
    at [n2], stage 4 at [n3], stage 5 at [n4], and is done at [n5]. *)
Definition phase_at (n1 n2 n3 n4 n5 n : nat) : phase :=
  if (n <? n1)%nat then Stage1
  else if (n <? n2)%nat then Stage2
  else if (n <? n3)%nat then Stage3
  else if (n <? n4)%nat then Stage4
  else if (n <? n5)%nat then Stage5
  else Done.

(** ** The options and the wait, in the words of the statements *)

(** One of the mandatory options is missing. *)
Definition missing_option (o : CmdOptions) : Prop :=
  Bitrate o = 0 \/ FrameRateN o = 0 \/ FrameRateD o = 0
  \/ nonempty (SourceName o) = false.

Definition option_errors : list string :=
  [ ("error: bitrate not set (mandatory)" ++ nl)%string;
    ("error: framerate not set (mandatory)" ++ nl)%string;
    ("error: source file name not set (mandatory)" ++ nl)%string ].

(** Modelled from the spec: [MFXVideoSession::SyncOperation] is in the
    library of the SDK, which is not under src/.  Spec 6: a wait answers
    Ready, TimedOut or Fatal.  Ready is [MFX_ERR_NONE] and Fatal a negative
    status (spec 4.3); TimedOut is apart from both: the operation is still
    in execution when the wait returns, [MFX_WRN_IN_EXECUTION]. *)
Definition timed_out (r : mfxStatus) : Prop := r = MFX_WRN_IN_EXECUTION.

(** ** Worlds of the examples *)

Definition ready (tok : nat) : resp := MkResp MFX_ERR_NONE (Some tok).

Definition frame_of (bytes : list Z) : mfxBitstream :=
  MkBitstream bytes 0 (Z.of_nat (length bytes)).

Definition encoded (bytes : list Z) (tok : nat) : enc_resp :=
  MkEncResp MFX_ERR_NONE (frame_of bytes) (Some tok).

(** Nothing scripted: the reader and the decoder are at their end, every pool
    is free, every wait and every write succeeds. *)
Definition quiet : env := MkEnv [] [] [] [] [] [] [] [].

(** Three frames, every call Ready at once. *)
Definition three_frames : env :=
  MkEnv [] [] [] [ready 1; ready 2; ready 3] [ready 4; ready 5; ready 6]
    [encoded [11] 7; encoded [22] 8; encoded [33] 9] [] [].

(** One frame goes in; at the next turn every surface of the first pool is
    locked. *)
Definition pool_runs_out : env :=
  MkEnv [] [[MkSurface 0; MkSurface 0]; [MkSurface 1; MkSurface 1]] []
    [ready 1; ready 2] [ready 4; ready 5] [encoded [11] 7; encoded [22] 8] [] [].

(** The decoder fails at its first call. *)
Definition decoder_fails : env :=
  MkEnv [] [] [] [MkResp (-1) None] [] [] [] [].

(** One frame, and the wait for it fails. *)
Definition wait_fails : env :=
  MkEnv [] [] [] [ready 1] [ready 4] [encoded [11] 7] [-1] [].

(** Two frames; the decoder, the VPP and the encoder are busy now and then. *)
Definition busy_world : env :=
  MkEnv [] [] [] [busy; busy; ready 1; ready 2] [busy; ready 4; busy; busy; ready 5]
    [MkEncResp MFX_WRN_DEVICE_BUSY (frame_of []) None; encoded [11] 7; encoded [22] 8]
    [] [].

(** One frame, and the wait for it comes back at its timeout, the operation
    still in execution. *)
Definition wait_times_out : env :=
  MkEnv [] [] [] [ready 1] [ready 4] [encoded [11] 7] [MFX_WRN_IN_EXECUTION] [].

(** The decoder asks for one more surface before it hands its frame out. *)
Definition decoder_wants_surface : env :=
  MkEnv [] [] [] [MkResp MFX_ERR_MORE_SURFACE None; ready 1] [ready 4]
    [encoded [11] 7] [] [].

(** One frame; the VPP and the encoder each answer with a warning that is
    not Busy, and without output, before they take it. *)
Definition warnings_world : env :=
  MkEnv [] [] [] [ready 1]
    [MkResp MFX_WRN_PARTIAL_ACCELERATION None; ready 4]
    [MkEncResp MFX_WRN_IN_EXECUTION (frame_of []) None; encoded [11] 7] [] [].

(** The VPP asks for one more surface. *)
Definition more_surface_world : env :=
  MkEnv [] [] [] [ready 1] [MkResp MFX_ERR_MORE_SURFACE None] [] [] [].

Definition depth1 : config := MkConfig 1 2 2.
Definition depth2 : config := MkConfig 2 2 2.

Definition sample_options : CmdOptions :=
  MkOptions 0 30 1 "in.h264" "out.h264".

Definition sample_setup : setup :=
  MkSetup true true 0 0 0 0 0 0 0 0 0 0 0 2 2 2 2 AsyncDepth AsyncDepth 1.

(** ** Words for the proofs *)

(** What a statement may do to [potential]: going back to the condition costs
    at least one, leaving the loop costs nothing. *)
Definition ok (s : state) (c : ctl unit) : Prop :=
  match c with
  | Val _ s' | Continue s' => stage s' = stage s /\ (potential s' < potential s)%nat
  | Break s' | Return _ s' => stage s' = stage s /\ (score s' <= score s)%nat
  end.

(** A state of a run without failures: the status passes, or it is the
    decoder's [MFX_ERR_MORE_SURFACE] in one of the two loops that call the
    decoder. *)
Definition sound (cfg : config) (s : state) : Prop :=
  nominal cfg (world s) /\
  (passes (sts s) \/ sts s = MFX_ERR_MORE_SURFACE /\ (4 <= rank (stage s))%nat).

(** A statement of a run without failures: it does not leave [main], and it
    breaks only with a status that passes. *)
Definition safe (cfg : config) (s : state) (c : ctl unit) : Prop :=
  match c with
  | Val _ s' | Continue s' => sound cfg s' /\ stage s' = stage s
  | Break s' => nominal cfg (world s') /\ passes (sts s') /\ stage s' = stage s
  | Return _ _ => False
  end.

(** ** Words for the rest of [main] *)

(** The phase that follows a phase. *)
Definition next_phase (p : phase) : phase :=
  match p with
  | Stage1 => Stage2
  | Stage2 => Stage3
  | Stage3 => Stage4
  | Stage4 => Stage5
  | Stage5 | Done => Done
  | Aborted rc => Aborted rc
  end.

(** [nFrame] is the number of frames in the sink, as an [mfxU32]. *)
Definition counted (s : state) : Prop :=
  nFrame s = Z.of_nat (length (sink s)) mod 2 ^ 32.

(** [s'] comes after [s] and has kept the count. *)
Definition keeps_count (s s' : state) : Prop := counted s -> counted s'.

(** The calls each phase makes: stage 1 reads the source and decodes from the
    bit stream; stage 2 decodes with a null bit stream; stages 1 and 2 hand
    the VPP a decoded frame, stage 3 a null one; stages 1 to 3 hand the
    encoder a surface, stage 4 a null one; stage 5 only waits and writes.
    Every sleep is of 1 ms, every wait has a timeout of 60000 ms. *)
Definition allowed (p : phase) (ev : event) : bool :=
  match ev, p with
  | EvRead _, Stage1 => true
  | EvDecode bs_null _ _, Stage1 => negb bs_null
  | EvDecode bs_null _ _, Stage2 => bs_null
  | EvVPP in_null _ _, (Stage1 | Stage2) => negb in_null
  | EvVPP in_null _ _, Stage3 => in_null
  | EvEncode (Some _) _ _, (Stage1 | Stage2 | Stage3) => true
  | EvEncode None _ _, Stage4 => true
  | EvSleep ms, (Stage1 | Stage2 | Stage3 | Stage4) => ms =? 1
  | EvSync _ _ wait _, (Stage1 | Stage2 | Stage3 | Stage4 | Stage5) => wait =? 60000
  | EvWrite _ _ _, (Stage1 | Stage2 | Stage3 | Stage4 | Stage5) => true
  | EvPrintRetMsg _, (Stage1 | Stage2 | Stage3 | Stage4 | Stage5) => true
  | _, _ => false
  end.

(** [s'] is [s] with more calls in its trace, all of them in [P]. *)
Definition adds (P : event -> bool) (s s' : state) : Prop :=
  exists evs, trace s' = evs ++ trace s /\ Forall (fun ev => P ev = true) evs.

(** The calls that give a stage its end of stream: a null bit stream to the
    decoder, a null frame to the VPP, a null surface to the encoder. *)
Definition drains (ev : event) : bool :=
  match ev with
  | EvDecode bs_null _ _ => bs_null
  | EvVPP in_null _ _ => in_null
  | EvEncode None _ _ => true
  | _ => false
  end.

Definition reads (ev : event) : bool :=
  match ev with
  | EvRead _ => true
  | _ => false
  end.

(** No draining call is older than a read of the source; a trace has its
    newest call first. *)
Fixpoint reads_first (tr : list event) : Prop :=
  match tr with
  | [] => True
  | ev :: tr' =>
      (reads ev = true -> Forall (fun e => drains e = false) tr') /\ reads_first tr'
  end.

(** The surface stage 1 hands to the decoder: a new scan after Ready,
    NeedMoreOutput and NeedMoreInput, the index of the last call after a
    warning. *)
Definition decode_surface (cfg : config) (s : state) : Z :=
  if (MFX_ERR_NONE <? sts s) then nIndex s
  else next_scan (nSurfNumDecVPP cfg) (w_pool (world s)).

(** What stage 1 does before it calls the decoder. *)
Definition decode_prelude (s : state) : list event :=
  if MFX_WRN_DEVICE_BUSY =? sts s then [EvSleep 1]
  else if MFX_ERR_MORE_DATA =? sts s then [EvRead (hd MFX_ERR_MORE_DATA (w_read (world s)))]
  else [].

(** The decoder or the VPP has handed a frame back: Ready, or a warning with
    a sync point. *)
Definition gives_frame (r : resp) : bool :=
  (MFX_ERR_NONE =? r_sts r) || ((MFX_ERR_NONE <? r_sts r) && is_set (r_syncp r)).

(** ** [main], before and after its loops *)

(** The statuses [main] tests before its loops, in the order of the tests:
    the ten calls of the set-up and, second, the first read of the source. *)
Definition checks (su : setup) (w : env) : list mfxStatus :=
  [ on_Initialize su; hd MFX_ERR_MORE_DATA (w_read w); on_DecodeHeader su;
    on_DecQueryIOSurf su; on_EncQueryIOSurf su; on_VppQueryIOSurf su;
    on_Create3DLutMemory su; on_DecInit su; on_EncInit su; on_VppInit su;
    on_GetVideoParam su ].

(** The first status below [MFX_ERR_NONE]. *)
Definition first_failure (l : list mfxStatus) : option mfxStatus :=
  List.find (fun r => r <? MFX_ERR_NONE) l.

(** The source is open, and so is the sink when one is asked for. *)
Definition files_open (o : CmdOptions) (su : setup) : bool :=
  open_source su && (negb (nonempty (SinkName o)) || open_sink su).

(** The calls of the set-up: messages, files, the session and its
    components, the read of the header. *)
Definition setup_call (ev : event) : bool :=
  match ev with
  | EvPrintf _ | EvPrintRetMsg _ | EvOpenFile _ _ _ | EvSetup _ _ | EvRead _ => true
  | _ => false
  end.

(** The calls [main] has made when it enters stage 1, the newest first. *)
Definition setup_trace (o : CmdOptions) (su : setup) (w : env) : list event :=
  [ EvSetup "mfxENC.GetVideoParam" (on_GetVideoParam su);
    EvSetup "mfxVPP.Init" (on_VppInit su);
    EvSetup "mfxENC.Init" (on_EncInit su);
    EvSetup "mfxDEC.Init" (on_DecInit su);
    EvSetup "Create3DLutMemory" (on_Create3DLutMemory su);
    EvSetup "mfxVPP.QueryIOSurf" (on_VppQueryIOSurf su);
    EvSetup "mfxENC.QueryIOSurf" (on_EncQueryIOSurf su);
    EvSetup "mfxDEC.QueryIOSurf" (on_DecQueryIOSurf su);
    EvSetup "mfxDEC.DecodeHeader" (on_DecodeHeader su);
    EvRead (hd MFX_ERR_MORE_DATA (w_read w));
    EvSetup "Initialize" (on_Initialize su) ]
  ++ (if nonempty (SinkName o) then [EvOpenFile (SinkName o) "wb" true] else [])
  ++ [EvOpenFile (SourceName o) "rb" true].

(** The state in which [main] enters stage 1. *)
Definition loop_start (o : CmdOptions) (su : setup) (w : env) : state :=
  MkState (replicate (taskPoolSize (main_config su)) empty_task) 0%nat 0 0
    MFX_ERR_NONE (set_w_read (tl (w_read w)) w) [] (setup_trace o su w) Stage1.

(** The buffers of the tasks have bytes (line 372 does not leave [main]). *)
Definition tasks_ready (su : setup) : bool := negb (MaxLength su =? 0).

(** What [main] does after its loops, from the state they leave. *)
Definition main_end (o : CmdOptions) (su : setup) (s : state) : Z * state :=
  let s0 := to_file (nonempty (SinkName o)) s in
  match stage s0 with
  | Aborted rc => (rc, s0)
  | _ =>
      let r := on_Release3DLutMemory su in
      let s1 := set_sts r (log (EvSetup "Release3DLutMemory" r) s0) in
      if r <? MFX_ERR_NONE then (r, log (EvPrintRetMsg r) s1) else (0, s1)
  end.

(** Every write still to come reports [MFX_ERR_NONE], and a run that is done
    has no task left to wait for. *)
Definition drained (s : state) : Prop :=
  Forall (fun r => r = MFX_ERR_NONE) (w_write (world s)) /\
  (stage s = Done -> stage5_cond s = false).

(** [s'] has answers of the writer left that [s] had. *)
Definition writes_on (s s' : state) : Prop :=
  w_write (world s') `suffix_of` w_write (world s).

(** ** More worlds for the examples *)

Definition good_options : CmdOptions :=
  MkOptions 2000 30 1 "in.h265" "out.h264".

(** The decoder does not initialise. *)
Definition failing_setup : setup :=
  MkSetup true true 0 0 0 0 0 0 (-3) 0 0 0 0 2 2 2 2 AsyncDepth AsyncDepth 1.

(** The header, then three frames. *)
Definition three_frames_file : env :=
  MkEnv [0] [] [] [ready 1; ready 2; ready 3] [ready 4; ready 5; ready 6]
    [encoded [11] 7; encoded [22] 8; encoded [33] 9] [] [].

(** One frame, and its write fails. *)
Definition write_fails : env :=
  MkEnv [] [] [] [ready 1] [ready 4] [encoded [11] 7] [] [-1].

(** The calls of the five loops. *)
Definition loop_call (ev : event) : bool :=
  match ev with
  | EvRead _ | EvDecode _ _ _ | EvVPP _ _ _ | EvEncode _ _ _ | EvSleep _
  | EvSync _ _ _ _ | EvWrite _ _ _ | EvPrintRetMsg _ => true
  | _ => false
  end.

(** What [main] adds to the trace after its loops: nothing when they were
    aborted, the release of the 3D LUT memory otherwise, and its status when
    it failed. *)
Definition closing_calls (su : setup) (p : phase) : list event :=
  match p with
  | Aborted _ => []
  | _ =>
      (if on_Release3DLutMemory su <? MFX_ERR_NONE
       then [EvPrintRetMsg (on_Release3DLutMemory su)] else [])
      ++ [EvSetup "Release3DLutMemory" (on_Release3DLutMemory su)]
  end.
(** * The proofs *)

#[local] Arguments Z.eqb : simpl never.
#[local] Arguments Z.ltb : simpl never.
#[local] Arguments Z.leb : simpl never.
#[local] Arguments Z.gtb : simpl never.
#[local] Arguments Z.modulo : simpl never.
#[local] Arguments Z.pow : simpl never.
#[local] Arguments Nat.modulo : simpl never.

(** ** Relations that every statement respects *)

Lemma respects_bind {A B} (R : state -> state -> Prop) `{!PreOrder R}
    (m : M A) (k : A -> M B) :
  respects R m -> (forall a, respects R (k a)) -> respects R (bind m k).
Proof.
  intros Hm Hk s. unfold bind. specialize (Hm s).
  destruct (m s) as [a s1| | |]; simpl in *; auto.
  etrans; [exact Hm | apply Hk].
Qed.

Lemma respects_ret {A} (R : state -> state -> Prop) `{!Reflexive R} (a : A) :
  respects R (ret a).
Proof. intros s. simpl. reflexivity. Qed.
Lemma respects_gets {A} (R : state -> state -> Prop) `{!Reflexive R} (f : state -> A) :
  respects R (gets f).
Proof. intros s. simpl. reflexivity. Qed.
Lemma respects_continue {A} (R : state -> state -> Prop) `{!Reflexive R} :
  respects R (@continue_ A).
Proof. intros s. simpl. reflexivity. Qed.
Lemma respects_break {A} (R : state -> state -> Prop) `{!Reflexive R} :
  respects R (@break_ A).
Proof. intros s. simpl. reflexivity. Qed.
Lemma respects_return {A} (R : state -> state -> Prop) `{!Reflexive R} rc :
  respects R (@return_ A rc).
Proof. intros s. simpl. reflexivity. Qed.
Lemma respects_modify (R : state -> state -> Prop) (f : state -> state) :
  (forall s, R s (f s)) -> respects R (modify f).
Proof. intros H s. simpl. apply H. Qed.
Lemma respects_when (R : state -> state -> Prop) `{!Reflexive R} b m :
  respects R m -> respects R (when b m).
Proof. intros H. destruct b; simpl; [auto | apply respects_ret; auto]. Qed.
Lemma respects_if {A} (R : state -> state -> Prop) (b : bool) (m1 m2 : M A) :
  respects R m1 -> respects R m2 -> respects R (if b then m1 else m2).
Proof. destruct b; auto. Qed.

Lemma written_app e2 e1 : written (e2 ++ e1) = written e1 ++ written e2.
Proof.
  induction e2 as [|ev e2 IH]; simpl; [by rewrite app_nil_r|].
  destruct ev; auto. rewrite IH. by rewrite app_assoc.
Qed.

Lemma issued_app e2 e1 : issued (e2 ++ e1) = issued e1 ++ issued e2.
Proof.
  induction e2 as [|ev e2 IH]; simpl; [by rewrite app_nil_r|].
  destruct ev; auto. rewrite IH. by rewrite app_assoc.
Qed.

Global Instance evolves_preorder : PreOrder evolves.
Proof.
  split.
  - intros s. split; [done|]. exists []. simpl. rewrite app_nil_r. auto.
  - intros s1 s2 s3 [L1 (e1 & T1 & S1 & P1)] [L2 (e2 & T2 & S2 & P2)].
    split; [congruence|]. exists (e2 ++ e1). split; [|split].
    + rewrite T2, T1. by rewrite app_assoc.
    + rewrite S2, S1. rewrite <- app_assoc. f_equal. by rewrite written_app.
    + intros j Hj. rewrite foldr_app. rewrite P2 by lia. rewrite P1 by lia. done.
Qed.

Lemma written_idle evs : Forall idle evs -> written evs = [].
Proof. induction 1 as [|ev evs H _ IH]; simpl; auto. destruct ev; simpl in *; tauto. Qed.

Lemma issued_idle evs : Forall idle evs -> issued evs = [].
Proof. induction 1 as [|ev evs H _ IH]; simpl; auto. destruct ev; simpl in *; tauto. Qed.

Lemma slot_idle j evs t : Forall idle evs -> foldr (slot_event j) t evs = t.
Proof.
  induction 1 as [|ev evs H _ IH]; simpl; auto. rewrite IH.
  destruct ev; simpl in *; tauto.
Qed.

Lemma evolves_idle s s' evs :
  pTasks s' = pTasks s -> sink s' = sink s -> trace s' = evs ++ trace s ->
  Forall idle evs -> evolves s s'.
Proof.
  intros HT HS HE Hev. split; [by rewrite HT|]. exists evs.
  rewrite written_idle, app_nil_r by done. repeat split; auto.
  intros j _. rewrite slot_idle by done. by rewrite HT.
Qed.

Lemma evolves_same s s' :
  pTasks s' = pTasks s -> sink s' = sink s -> trace s' = trace s -> evolves s s'.
Proof. intros. by apply (evolves_idle s s' []). Qed.

Lemma evolves_one s s' ev :
  pTasks s' = pTasks s -> sink s' = sink s -> trace s' = ev :: trace s ->
  idle ev -> evolves s s'.
Proof. intros. apply (evolves_idle s s' [ev]); auto. Qed.

Lemma evolves_vpp_loop b i rs s : evolves s (vpp_loop b i rs s).
Proof.
  revert s. induction rs as [|r rs IH]; intros s; simpl.
  - by apply (evolves_one _ _ (EvVPP b i exhausted)).
  - destruct ((MFX_ERR_NONE <? r_sts r) && negb (is_set (r_syncp r))).
    + etrans; [|apply IH].
      destruct (MFX_WRN_DEVICE_BUSY =? r_sts r).
      * apply (evolves_idle _ _ [EvSleep 1; EvVPP b i r]); simpl; auto; by repeat constructor.
      * by apply (evolves_one _ _ (EvVPP b i r)).
    + destruct ((MFX_ERR_NONE <? r_sts r) && is_set (r_syncp r));
        by apply (evolves_one _ _ (EvVPP b i r)).
Qed.

Lemma task_at_insert (l : list Task) i j t :
  (j < length l)%nat ->
  task_at (<[i := t]> l) j = if decide (i = j) then t else task_at l j.
Proof.
  intros Hj. unfold task_at. case_decide as H.
  - subst. by rewrite list_lookup_insert_eq.
  - by rewrite list_lookup_insert_ne.
Qed.

Lemma task_at_alter (l : list Task) f i j :
  (j < length l)%nat ->
  task_at (alter f i l) j = if decide (i = j) then f (task_at l j) else task_at l j.
Proof.
  intros Hj. unfold task_at. case_decide as H.
  - subst. rewrite list_lookup_alter_eq.
    destruct (lookup_lt_is_Some_2 l j Hj) as [x Hx]. by rewrite Hx.
  - by rewrite list_lookup_alter_ne.
Qed.

Lemma task_eta t : MkTask (mfxBS t) (syncp t) = t.
Proof. by destruct t. Qed.

Lemma evolves_encode s s' i surf r :
  pTasks s' = <[i := MkTask (e_bs r) (e_syncp r)]> (pTasks s) ->
  sink s' = sink s -> trace s' = EvEncode surf i r :: trace s -> evolves s s'.
Proof.
  intros HT HS HE. split; [by rewrite HT, length_insert|].
  exists [EvEncode surf i r]. simpl. rewrite app_nil_r. repeat split; auto.
  intros j Hj. rewrite HT, task_at_insert by done. repeat case_decide; congruence.
Qed.

Lemma evolves_encode_idle s s' i surf st :
  pTasks s' = pTasks s -> sink s' = sink s ->
  trace s' = EvEncode surf i (MkEncResp st (mfxBS (task_at (pTasks s) i))
                                        (syncp (task_at (pTasks s) i))) :: trace s ->
  evolves s s'.
Proof.
  intros HT HS HE. split; [by rewrite HT|].
  eexists [_]. split; [exact HE|]. simpl. rewrite app_nil_r. split; [done|].
  intros j Hj. rewrite HT. case_decide; [subst; by rewrite task_eta | done].
Qed.

Lemma evolves_enc_loop surf i rs s : evolves s (enc_loop surf i rs s).
Proof.
  revert s. induction rs as [|r rs IH]; intros s; simpl.
  - by eapply evolves_encode_idle.
  - assert (H1 : evolves s (set_sts (e_sts r)
        (set_pTasks (<[i:=MkTask (e_bs r) (e_syncp r)]> (pTasks s))
           (log (EvEncode surf i r) (set_world (set_w_enc rs (world s)) s)))))
      by (by eapply evolves_encode).
    destruct ((MFX_ERR_NONE <? e_sts r) && negb (is_set (e_syncp r))).
    + etrans; [|apply IH]. etrans; [exact H1|].
      destruct (MFX_WRN_DEVICE_BUSY =? e_sts r); [|reflexivity].
      by eapply evolves_one.
    + by repeat case_match.
Qed.

Lemma evolves_flush cfg : respects evolves (flush_oldest cfg).
Proof.
  intros s. unfold flush_oldest, bind, gets, modify, SyncOperation,
    WriteBitStreamFrame, MSDK_CHECK_RESULT, MSDK_BREAK_ON_ERROR, return_, break_, ret.
  set (f := nFirstSyncTask s). set (t := task_at (pTasks s) f).
  set (r := hd MFX_ERR_NONE (w_sync (world s))).
  set (r' := hd MFX_ERR_NONE (w_write (world s))).
  destruct (MFX_ERR_NONE >? r); simpl.
  { apply (evolves_idle _ _ [EvPrintRetMsg r; EvSync f (syncp t) 60000 r]);
      simpl; auto; by repeat constructor. }
  fold r'. destruct (Z.eqb_spec r' MFX_ERR_NONE) as [Hr|Hr]; simpl.
  - rewrite Hr. simpl. split; [simpl; by rewrite length_alter|].
    exists [EvWrite f (payload (mfxBS t)) MFX_ERR_NONE; EvSync f (syncp t) 60000 r].
    simpl. repeat split; auto.
    intros j Hj. rewrite task_at_alter by done. by repeat case_decide.
  - destruct (Z.eqb_spec MFX_ERR_NONE r'); [congruence|]. simpl.
    split; [done|].
    exists [EvWrite f (payload (mfxBS t)) r'; EvSync f (syncp t) 60000 r].
    simpl. destruct (Z.eqb_spec r' MFX_ERR_NONE); [congruence|].
    rewrite app_nil_r. repeat split; auto.
    intros j Hj. by repeat case_decide.
Qed.

Lemma silent_idle ev : silent ev -> idle ev.
Proof. by destruct ev. Qed.

Global Instance neutral_preorder : PreOrder neutral.
Proof.
  split.
  - intros s. repeat split; auto. by exists [].
  - intros s1 s2 s3 (?&?&?&?&?&?&?&?&e1&T1&F1) (?&?&?&?&?&?&?&?&e2&T2&F2).
    repeat split; try congruence. exists (e2 ++ e1).
    split; [rewrite T2, T1; by rewrite app_assoc | by apply Forall_app].
Qed.

Lemma neutral_intro s s' evs :
  pTasks s' = pTasks s -> nFirstSyncTask s' = nFirstSyncTask s ->
  nFrame s' = nFrame s -> sink s' = sink s -> stage s' = stage s ->
  w_enc (world s') = w_enc (world s) -> w_sync (world s') = w_sync (world s) ->
  w_write (world s') = w_write (world s) ->
  trace s' = evs ++ trace s -> Forall silent evs -> neutral s s'.
Proof. intros. repeat split; auto. by exists evs. Qed.

Ltac neutral_tac evs :=
  apply (neutral_intro _ _ evs); simpl; auto; by repeat constructor.

Lemma neutral_set_sts v s : neutral s (set_sts v s).
Proof. neutral_tac (@nil event). Qed.
Lemma neutral_set_nIndex v s : neutral s (set_nIndex v s).
Proof. neutral_tac (@nil event). Qed.
Lemma neutral_log ev s : silent ev -> neutral s (log ev s).
Proof. intros. neutral_tac [ev]. Qed.

Lemma neutral_vpp_loop b i rs s : neutral s (vpp_loop b i rs s).
Proof.
  revert s. induction rs as [|r rs IH]; intros s; simpl.
  - neutral_tac [EvVPP b i exhausted].
  - destruct ((MFX_ERR_NONE <? r_sts r) && negb (is_set (r_syncp r))).
    + etrans; [|apply IH].
      destruct (MFX_WRN_DEVICE_BUSY =? r_sts r).
      * neutral_tac [EvSleep 1; EvVPP b i r].
      * neutral_tac [EvVPP b i r].
    + destruct ((MFX_ERR_NONE <? r_sts r) && is_set (r_syncp r));
        neutral_tac [EvVPP b i r].
Qed.

Section Respects.
Context (R : state -> state -> Prop) `{!PreOrder R}.
Context (HR : forall s s', neutral s s' -> R s s').

Lemma respects_set_sts v : respects R (modify (set_sts v)).
Proof. intros s. apply HR, neutral_set_sts. Qed.
Lemma respects_set_nIndex v : respects R (modify (set_nIndex v)).
Proof. intros s. apply HR, neutral_set_nIndex. Qed.
Lemma respects_sleep ms : respects R (MSDK_SLEEP ms).
Proof. intros s. by apply HR, neutral_log. Qed.
Lemma respects_check_result P X E : respects R (MSDK_CHECK_RESULT P X E).
Proof.
  intros s. unfold MSDK_CHECK_RESULT. destruct (X >? P); simpl; [|reflexivity].
  by apply HR, neutral_log.
Qed.
Lemma respects_check_error P X E : respects R (MSDK_CHECK_ERROR P X E).
Proof.
  intros s. unfold MSDK_CHECK_ERROR. destruct (X =? P); simpl; [|reflexivity].
  by apply HR, neutral_log.
Qed.
Lemma respects_break_on_error P : respects R (MSDK_BREAK_ON_ERROR P).
Proof. intros s. unfold MSDK_BREAK_ON_ERROR. destruct (_ =? P); simpl; reflexivity. Qed.
Lemma respects_read : respects R ReadBitStreamData.
Proof.
  intros s. apply HR. simpl.
  neutral_tac [EvRead (hd MFX_ERR_MORE_DATA (w_read (world s)))].
Qed.
Lemma respects_find n : respects R (find_pSurfaces n).
Proof. intros s. apply HR. simpl. neutral_tac (@nil event). Qed.
Lemma respects_find2 n : respects R (find_pSurfaces2 n).
Proof. intros s. apply HR. simpl. neutral_tac (@nil event). Qed.
Lemma respects_decode b i : respects R (DecodeFrameAsync b i).
Proof.
  intros s. apply HR. simpl.
  neutral_tac [EvDecode b i (hd exhausted (w_dec (world s)))].
Qed.
Lemma respects_vpp b i : respects R (RunFrameVPPAsync_loop b i).
Proof. intros s. apply HR. simpl. apply neutral_vpp_loop. Qed.
End Respects.

Ltac respects_side :=
  first [ assumption | typeclasses eauto | (intros ? ? ?; assumption) ].

Ltac respects_go :=
  repeat first
    [ assumption
    | apply respects_set_sts; respects_side
    | apply respects_set_nIndex; respects_side
    | apply respects_sleep; respects_side
    | apply respects_check_result; respects_side
    | apply respects_check_error; respects_side
    | apply respects_break_on_error; respects_side
    | apply respects_read; respects_side
    | apply respects_find; respects_side
    | apply respects_find2; respects_side
    | apply respects_decode; respects_side
    | apply respects_vpp; respects_side
    | apply respects_ret; respects_side
    | apply respects_gets; respects_side
    | apply respects_continue; respects_side
    | apply respects_break; respects_side
    | match goal with
      | H : forall surf i, respects _ (EncodeFrameAsync_loop surf i) |- _ => apply H
      end
    | apply respects_when; [respects_side |]
    | apply respects_bind; [respects_side | | intros ?]
    | apply respects_if ].

Section Bodies.
Context (cfg : config).
Context (R : state -> state -> Prop) `{!PreOrder R}.
Context (HR : forall s s', neutral s s' -> R s s').
Context (Hflush : respects R (flush_oldest cfg)).
Context (Henc : forall surf i, respects R (EncodeFrameAsync_loop surf i)).
Context (Hstage : forall p s, R s (set_stage p s)).

Lemma respects_stage1 : respects R (stage1_body cfg).
Proof. unfold stage1_body. respects_go. Qed.
Lemma respects_stage2 : respects R (stage2_body cfg).
Proof. unfold stage2_body. respects_go. Qed.
Lemma respects_stage3 : respects R (stage3_body cfg).
Proof. unfold stage3_body. respects_go. Qed.
Lemma respects_stage4 : respects R (stage4_body cfg).
Proof. unfold stage4_body. respects_go. Qed.

Lemma respects_leave next s : R s (leave_stage next s).
Proof.
  unfold leave_stage, MSDK_CHECK_RESULT. simpl.
  destruct (_ >? _); simpl.
  - etrans; [|apply Hstage]. apply HR. etrans; [apply neutral_set_sts|].
    by apply neutral_log.
  - etrans; [|apply Hstage]. apply HR, neutral_set_sts.
Qed.

Lemma respects_iteration c body after s :
  respects R body -> (forall s, R s (after s)) -> R s (iteration c body after s).
Proof.
  intros Hb Ha. unfold iteration, settle. destruct c; [|apply Ha].
  specialize (Hb s). destruct (body s); simpl in *; auto.
  - etrans; [exact Hb | apply Ha].
  - etrans; [exact Hb | apply Hstage].
Qed.

Lemma respects_tick s : R s (tick cfg s).
Proof.
  unfold tick. destruct (stage s); try reflexivity;
    apply respects_iteration;
    auto using respects_stage1, respects_stage2, respects_stage3,
      respects_stage4, respects_leave.
Qed.

Lemma respects_run n s : R s (run cfg n s).
Proof.
  induction n as [|n IH]; simpl; [reflexivity|].
  etrans; [exact IH | apply respects_tick].
Qed.
End Bodies.

Section Evolves.
Context (cfg : config).

Lemma neutral_evolves s s' : neutral s s' -> evolves s s'.
Proof.
  intros (?&?&?&?&?&?&?&?&evs&?&Hs). eapply evolves_idle; eauto.
  eapply Forall_impl; [exact Hs | apply silent_idle].
Qed.

Lemma evolves_run n s : evolves s (run cfg n s).
Proof.
  apply respects_run; try typeclasses eauto.
  - apply neutral_evolves.
  - apply evolves_flush.
  - intros surf i s0. apply evolves_enc_loop.
  - intros p s0. by apply evolves_same.
Qed.

End Evolves.

Lemma ring_spec N f j : (f < N)%nat -> (j <= N)%nat ->
  ring N f j = if decide (f + j < N)%nat then (f + j)%nat else (f + j - N)%nat.
Proof.
  intros Hf Hj. unfold ring. case_decide.
  - by apply Nat.mod_small.
  - symmetry. apply Nat.mod_unique with (q := 1%nat); lia.
Qed.

Lemma ring_lt N f j : (0 < N)%nat -> (ring N f j < N)%nat.
Proof. intros. apply Nat.mod_upper_bound. lia. Qed.

Lemma first_free_task_spec l i0 :
  match first_free_task i0 l with
  | Some i => exists j, i = (i0 + j)%nat /\ (j < length l)%nat /\
      is_set (syncp (task_at l j)) = false /\
      forall j', (j' < j)%nat -> is_set (syncp (task_at l j')) = true
  | None => forall j, (j < length l)%nat -> is_set (syncp (task_at l j)) = true
  end.
Proof.
  revert i0. induction l as [|t l IH]; intros i0; simpl.
  - intros j Hj. lia.
  - destruct (is_set (syncp t)) eqn:Ht.
    + specialize (IH (S i0)). destruct (first_free_task (S i0) l) as [i|].
      * destruct IH as (j & -> & Hj & Hfree & Hocc).
        exists (S j). repeat split; auto; try lia.
        intros [|j'] Hj'; [exact Ht|]. apply Hocc. lia.
      * intros [|j] Hj; [exact Ht|]. apply IH. lia.
    + exists 0%nat. repeat split; auto; lia.
Qed.

Lemma GetFreeTaskIndex_spec l N : length l = N ->
  (exists i, GetFreeTaskIndex l N = Z.of_nat i /\ (i < N)%nat /\
     is_set (syncp (task_at l i)) = false /\
     forall j, (j < i)%nat -> is_set (syncp (task_at l j)) = true)
  \/ (GetFreeTaskIndex l N = MFX_ERR_NOT_FOUND /\
      forall j, (j < N)%nat -> is_set (syncp (task_at l j)) = true).
Proof.
  intros HN. unfold GetFreeTaskIndex. rewrite firstn_all2 by lia.
  pose proof (first_free_task_spec l 0) as H.
  destruct (first_free_task 0 l) as [i|].
  - left. destruct H as (j & -> & Hj & Hfree & Hocc). exists j. simpl.
    repeat split; auto. lia.
  - right. split; [done|]. intros j Hj. apply H. lia.
Qed.

Section Fifo.
Context (cfg : config).
Local Abbreviation N := (taskPoolSize cfg) (only parsing).

Lemma fifo_free_slot s k : fifo cfg s k -> (2 <= rank (stage s))%nat ->
  (k < N)%nat ->
  GetFreeTaskIndex (pTasks s) N = Z.of_nat (ring N (nFirstSyncTask s) k).
Proof.
  intros [HL Hf Hk Hocc Hfill _ _] Hr HkN.
  assert (Hfree : is_set (syncp (task_at (pTasks s) (ring N (nFirstSyncTask s) k))) = false).
  { rewrite Hocc by lia. apply bool_decide_eq_false. lia. }
  destruct (GetFreeTaskIndex_spec (pTasks s) N HL) as [(i & Hi & HiN & Hif & Hio)|[_ Hall]].
  2:{ rewrite Hall in Hfree; [done|]. apply ring_lt. lia. }
  rewrite Hi. f_equal.
  set (f := nFirstSyncTask s) in *.
  (* the offset of slot i *)
  set (j := if decide (f <= i)%nat then (i - f)%nat else (i + N - f)%nat).
  assert (Hj : (j < N)%nat) by (subst j; case_decide; lia).
  assert (Hji : ring N f j = i).
  { rewrite ring_spec by lia. subst j. repeat case_decide; lia. }
  assert (Hjk : (k <= j)%nat).
  { specialize (Hocc j Hj). rewrite Hji, Hif in Hocc.
    symmetry in Hocc. apply bool_decide_eq_false in Hocc. lia. }
  (* the slot at offset k is not below i unless it is i *)
  destruct (decide (ring N f k < i)%nat) as [Hlt|Hge].
  { rewrite Hio in Hfree by done. done. }
  destruct (Hfill Hr) as [H0|HN1].
  - assert (Hc : ring N f k = k) by (rewrite ring_spec by lia; case_decide; lia).
    assert (i = j) by (rewrite <- Hji; rewrite ring_spec by lia; case_decide; lia).
    destruct (decide (k = j)) as [|Hne]; [lia|].
    assert (Hkj : (k < i)%nat) by lia.
    specialize (Hio k Hkj). rewrite Hc in Hfree. congruence.
  - assert (j = k) by lia. subst j. by rewrite <- H.
Qed.

Lemma fifo_full s k : fifo cfg s k ->
  GetFreeTaskIndex (pTasks s) N = MFX_ERR_NOT_FOUND -> k = N.
Proof.
  intros [HL Hf Hk Hocc _ _ _] HG.
  destruct (GetFreeTaskIndex_spec (pTasks s) N HL) as [(i & Hi & _)|[_ Hall]].
  { rewrite Hi in HG. unfold MFX_ERR_NOT_FOUND, mfxStatus in HG. lia. }
  destruct (decide (k = N)) as [|Hne]; [done|]. exfalso.
  assert (HkN : (k < N)%nat) by lia.
  specialize (Hocc k HkN). rewrite Hall in Hocc.
  - symmetry in Hocc. apply bool_decide_eq_true in Hocc. lia.
  - apply ring_lt. lia.
Qed.

Lemma ring_inj f j1 j2 : (f < N)%nat -> (j1 < N)%nat -> (j2 < N)%nat ->
  ring N f j1 = ring N f j2 -> j1 = j2.
Proof.
  intros Hf H1 H2. rewrite !ring_spec by lia. repeat case_decide; lia.
Qed.

Lemma ring_0 f : (f < N)%nat -> ring N f 0 = f.
Proof. intros. rewrite ring_spec by lia. case_decide; lia. Qed.

Lemma ring_next f j : (0 < N)%nat ->
  ring N (ring N f 1) j = ring N f (S j).
Proof.
  intros. unfold ring. rewrite Nat.Div0.add_mod_idemp_l. f_equal. lia.
Qed.

Lemma ring_full f : (f < N)%nat -> ring N f N = f.
Proof. intros. rewrite ring_spec by lia. case_decide; lia. Qed.

Lemma fifo_not_full s k : fifo cfg s k ->
  GetFreeTaskIndex (pTasks s) N <> MFX_ERR_NOT_FOUND -> (k < N)%nat.
Proof.
  intros [HL Hf Hk Hocc _ _ _] HG.
  destruct (GetFreeTaskIndex_spec (pTasks s) N HL) as [(i & Hi & HiN & Hif & _)|[? _]];
    [|done].
  set (f := nFirstSyncTask s) in *.
  set (j := if decide (f <= i)%nat then (i - f)%nat else (i + N - f)%nat).
  assert (Hj : (j < N)%nat) by (subst j; case_decide; lia).
  assert (Hji : ring N f j = i).
  { rewrite ring_spec by lia. subst j. repeat case_decide; lia. }
  specialize (Hocc j Hj). rewrite Hji, Hif in Hocc.
  symmetry in Hocc. apply bool_decide_eq_false in Hocc. lia.
Qed.

Lemma fifo_core s s' k :
  pTasks s' = pTasks s -> nFirstSyncTask s' = nFirstSyncTask s ->
  sink s' = sink s -> issued (trace s') = issued (trace s) ->
  (rank (stage s') <= rank (stage s))%nat ->
  fifo cfg s k -> fifo cfg s' k.
Proof.
  intros HT HF HS HI HR [HL Hf Hk Hocc Hfill Hord Hhead].
  split; rewrite ?HT, ?HF, ?HS, ?HI; auto. intros. apply Hfill. lia.
Qed.

Lemma fifo_neutral s s' k : neutral s s' -> fifo cfg s k -> fifo cfg s' k.
Proof.
  intros (HT&HF&_&HS&Hst&_&_&_&evs&HE&Hev). apply fifo_core; auto.
  - rewrite HE, issued_app, (issued_idle evs), app_nil_r; [done|].
    eapply Forall_impl; [exact Hev | apply silent_idle].
  - by rewrite Hst.
Qed.

Lemma fifo_claim s s' k t :
  fifo cfg s k -> (k < N)%nat ->
  pTasks s' = <[ring N (nFirstSyncTask s) k := t]> (pTasks s) ->
  nFirstSyncTask s' = nFirstSyncTask s -> sink s' = sink s -> stage s' = stage s ->
  issued (trace s') =
    issued (trace s) ++ (if is_set (syncp t) then [payload (mfxBS t)] else []) ->
  fifo cfg s' (if is_set (syncp t) then S k else k).
Proof.
  intros [HL Hf Hk Hocc Hfill Hord Hhead] HkN HT HF HS Hst HI.
  set (f := nFirstSyncTask s) in *.
  assert (Hat : forall j, (j < N)%nat ->
     task_at (pTasks s') (ring N f j) =
       if decide (j = k) then t else task_at (pTasks s) (ring N f j)).
  { intros j Hj. rewrite HT, task_at_insert by (rewrite HL; apply ring_lt; lia).
    repeat case_decide; subst; auto; try done.
    exfalso. eauto using ring_inj. }
  split; rewrite ?HF, ?HS, ?Hst; fold f.
  - by rewrite HT, length_insert.
  - done.
  - destruct (is_set (syncp t)); lia.
  - intros j Hj. rewrite Hat by done. case_decide as Hjk.
    + subst j. destruct (is_set (syncp t)); symmetry.
      * apply bool_decide_eq_true. lia.
      * apply bool_decide_eq_false. lia.
    + rewrite Hocc by done. apply bool_decide_ext.
      destruct (is_set (syncp t)); lia.
  - intros Hr. destruct (Hfill Hr); [by left|right].
    destruct (is_set (syncp t)); lia.
  - rewrite HI, <- Hord, <- app_assoc. f_equal.
    assert (Hpend : pending N (pTasks s') f k = pending N (pTasks s) f k).
    { unfold pending. apply map_ext_in. intros j Hj%in_seq.
      rewrite Hat by lia. case_decide; [lia|done]. }
    destruct (is_set (syncp t)); [|by rewrite app_nil_r].
    unfold pending in *. rewrite seq_S, map_app, Hpend. simpl. f_equal.
    rewrite Hat by lia. by case_decide.
  - done.
Qed.

Lemma fifo_flush s s' k :
  fifo cfg s k -> (0 < k)%nat -> ((2 <= rank (stage s))%nat -> k = N) ->
  pTasks s' = alter recycle (nFirstSyncTask s) (pTasks s) ->
  nFirstSyncTask s' = ((nFirstSyncTask s + 1) mod N)%nat ->
  sink s' = sink s ++ [payload (mfxBS (task_at (pTasks s) (nFirstSyncTask s)))] ->
  issued (trace s') = issued (trace s) -> stage s' = stage s ->
  fifo cfg s' (k - 1).
Proof.
  intros [HL Hf Hk Hocc Hfill Hord Hhead] Hk0 HkN HT HF HS HI Hst.
  set (f := nFirstSyncTask s) in *.
  assert (HN : (0 < N)%nat) by lia.
  assert (Hf' : nFirstSyncTask s' = ring N f 1) by done.
  assert (Hat : forall j, (S j < N)%nat ->
     task_at (pTasks s') (ring N (ring N f 1) j) = task_at (pTasks s) (ring N f (S j))).
  { intros j Hj. rewrite ring_next by done.
    rewrite HT, task_at_alter by (rewrite HL; apply ring_lt; lia).
    case_decide as Hx; [|done]. exfalso.
    rewrite <- (ring_0 f) in Hx at 1 by done.
    apply ring_inj in Hx; lia. }
  split; rewrite ?Hf', ?HS, ?Hst.
  - by rewrite HT, length_alter.
  - by apply ring_lt.
  - lia.
  - intros j Hj. destruct (decide (S j < N)%nat) as [Hlt|Hge].
    + rewrite Hat, Hocc by lia. apply bool_decide_ext. lia.
    + assert (j = (N - 1)%nat) by lia. subst j.
      rewrite ring_next by done. replace (S (N - 1)) with N by lia.
      rewrite ring_full by done.
      rewrite HT, task_at_alter by lia. rewrite decide_True by done. simpl.
      symmetry. apply bool_decide_eq_false. lia.
  - intros Hr. right. rewrite HkN by done. lia.
  - rewrite HI, <- Hord, <- app_assoc. f_equal.
    destruct k as [|k]; [lia|]. simpl. rewrite Nat.sub_0_r.
    unfold pending. simpl. rewrite ring_0 by done. f_equal.
    rewrite <- seq_shift, map_map.
    apply map_ext_in. intros j Hj%in_seq. rewrite Hat by lia. done.
  - rewrite length_app. simpl. unfold ring. rewrite Hhead.
    by rewrite Nat.Div0.add_mod_idemp_l.
Qed.

Lemma fifo_enc_loop surf rs s k :
  fifo cfg s k -> (k < N)%nat ->
  exists k', fifo cfg (enc_loop surf (ring N (nFirstSyncTask s) k) rs s) k'.
Proof.
  revert s. induction rs as [|r rs IH]; intros s HF HkN; simpl.
  - exists k. eapply fifo_core; [..|exact HF]; simpl; auto.
    rewrite (fifo_occ _ _ _ HF) by lia. rewrite bool_decide_eq_false_2 by lia.
    by rewrite app_nil_r.
  - set (i := ring N (nFirstSyncTask s) k).
    set (s1 := set_sts (e_sts r) (set_pTasks _ _)).
    assert (H1 : fifo cfg s1 (if is_set (e_syncp r) then S k else k)).
    { apply (fifo_claim s s1 k (MkTask (e_bs r) (e_syncp r))); auto. }
    destruct (is_set (e_syncp r)) eqn:Htok.
    + rewrite andb_false_r. exists (S k).
      destruct (MFX_ERR_NONE <? e_sts r); simpl.
      * eapply fifo_core; [..|exact H1]; simpl; auto.
      * by destruct (_ =? _).
    + rewrite andb_true_r, andb_false_r.
      destruct (MFX_ERR_NONE <? e_sts r); simpl.
      * destruct (MFX_WRN_DEVICE_BUSY =? e_sts r).
        -- apply (IH (log (EvSleep 1) s1)); [|done].
           eapply fifo_core; [..|exact H1]; simpl; auto.
        -- by apply (IH s1).
      * exists k. by destruct (_ =? _).
Qed.

Lemma fifo_works s s' k i :
  fifo cfg s k -> (k < N)%nat -> i = ring N (nFirstSyncTask s) k ->
  works i s s' -> exists k', fifo cfg s' k'.
Proof.
  intros HF HkN -> (s1 & s2 & H1 & H2 & H3).
  assert (HF1 := fifo_neutral _ _ _ H1 HF).
  destruct H2 as [->|[surf ->]].
  - exists k. by eapply fifo_neutral.
  - destruct H1 as (_ & Hn & _). rewrite <- Hn in H3.
    destruct (fifo_enc_loop surf (w_enc (world s1)) s1 k HF1 HkN) as [k' Hk'].
    exists k'. by eapply fifo_neutral.
Qed.

Lemma works_neutral {A} i (m : M A) : respects neutral m -> respects (works i) m.
Proof.
  intros H s. exists s, s. split; [reflexivity|]. split; [by left | apply H].
Qed.

Lemma works_bind_l {A B} i (m : M A) (k : A -> M B) :
  respects neutral m -> (forall a, respects (works i) (k a)) ->
  respects (works i) (bind m k).
Proof.
  intros Hm Hk s. unfold bind. specialize (Hm s).
  destruct (m s) as [a s0| | |]; simpl in *;
    try (exists s, s; split; [reflexivity|]; split; [by left | done]).
  destruct (Hk a s0) as (s1 & s2 & H1 & H2 & H3).
  exists s1, s2. split; [by etrans | done].
Qed.

Lemma works_bind_r {A B} i (m : M A) (k : A -> M B) :
  respects (works i) m -> (forall a, respects neutral (k a)) ->
  respects (works i) (bind m k).
Proof.
  intros Hm Hk s. unfold bind. specialize (Hm s).
  destruct (m s) as [a s0| | |]; simpl in *; auto.
  destruct Hm as (s1 & s2 & H1 & H2 & H3).
  exists s1, s2. split; [done|]. split; [done|]. etrans; [exact H3 | apply Hk].
Qed.

Lemma works_enc surf idx :
  respects (works (Z.to_nat idx)) (EncodeFrameAsync_loop surf idx).
Proof.
  intros s. exists s, (enc_loop surf (Z.to_nat idx) (w_enc (world s)) s).
  split; [reflexivity|]. split; [right; by exists surf | reflexivity].
Qed.

Ltac works_go :=
  repeat first
    [ lazymatch goal with
      | |- respects (works _) (bind (EncodeFrameAsync_loop _ _) _) =>
          apply works_bind_r; [apply works_enc | intros ?; respects_go]
      | |- respects (works _) (EncodeFrameAsync_loop _ _) => apply works_enc
      | |- respects (works _) (bind _ _) =>
          apply works_bind_l; [respects_go | intros ?]
      | |- respects (works _) (if _ then _ else _) => apply respects_if
      end
    | solve [apply works_neutral; respects_go] ].

Lemma works_vpp_and_encode idx :
  respects (works (Z.to_nat idx)) (vpp_and_encode cfg idx).
Proof. unfold vpp_and_encode. works_go. Qed.

Lemma works_stage1 idx : respects (works (Z.to_nat idx)) (stage1_work cfg idx).
Proof. unfold stage1_work. works_go. apply works_vpp_and_encode. Qed.

Lemma works_stage2 idx : respects (works (Z.to_nat idx)) (stage2_work cfg idx).
Proof. unfold stage2_work. works_go. apply works_vpp_and_encode. Qed.

Lemma works_stage3 idx : respects (works (Z.to_nat idx)) (stage3_work cfg idx).
Proof. unfold stage3_work. works_go. Qed.

Lemma works_stage4 idx : respects (works (Z.to_nat idx)) (stage4_work idx).
Proof. unfold stage4_work. works_go. Qed.

(** What [flush_oldest] can do. *)
Lemma flush_cases s :
  let f := nFirstSyncTask s in
  match flush_oldest cfg s with
  | Val _ s' =>
      pTasks s' = alter recycle f (pTasks s) /\
      nFirstSyncTask s' = ((f + 1) mod N)%nat /\
      sink s' = sink s ++ [payload (mfxBS (task_at (pTasks s) f))] /\
      issued (trace s') = issued (trace s) /\ stage s' = stage s
  | Break s' | Return _ s' =>
      pTasks s' = pTasks s /\ nFirstSyncTask s' = f /\ sink s' = sink s /\
      issued (trace s') = issued (trace s) /\ stage s' = stage s
  | Continue _ => False
  end.
Proof.
  unfold flush_oldest, bind, gets, modify, SyncOperation,
    WriteBitStreamFrame, MSDK_CHECK_RESULT, MSDK_BREAK_ON_ERROR, return_, break_, ret.
  simpl. destruct (MFX_ERR_NONE >? _); simpl; [done|].
  destruct (Z.eqb_spec (hd MFX_ERR_NONE (w_write (world s))) MFX_ERR_NONE) as [Hr|Hr];
    simpl.
  - rewrite Hr. simpl. done.
  - destruct (Z.eqb_spec MFX_ERR_NONE (hd MFX_ERR_NONE (w_write (world s))));
      [congruence|]. simpl. done.
Qed.

Lemma fifo_stage p s k :
  (rank p <= rank (stage s))%nat -> fifo cfg s k -> fifo cfg (set_stage p s) k.
Proof. intros. eapply fifo_core; [..|eassumption]; auto. Qed.

Lemma fifo_leave next s k :
  (rank next <= rank (stage s))%nat -> fifo cfg s k ->
  fifo cfg (leave_stage next s) k.
Proof.
  intros Hr HF. unfold leave_stage, MSDK_CHECK_RESULT. simpl.
  destruct (_ >? _); simpl; (eapply fifo_core; [..|exact HF]); simpl; auto; lia.
Qed.

Lemma fifo_after_flush s k next :
  fifo cfg s k -> (0 < k)%nat -> ((2 <= rank (stage s))%nat -> k = N) ->
  (rank next <= rank (stage s))%nat ->
  exists k',
    fifo cfg (settle (leave_stage next) (flush_oldest cfg s)) k'.
Proof.
  intros HF Hk HkN Hr. pose proof (flush_cases s) as H. simpl in H.
  destruct (flush_oldest cfg s) as [[] s'|s'|s'|rc s']; [| done | |].
  - destruct H as (HT & Hf & HS & HI & Hst). exists (k - 1)%nat.
    by eapply fifo_flush.
  - destruct H as (HT & Hf & HS & HI & Hst). exists k.
    apply fifo_leave; [by rewrite Hst|]. eapply fifo_core; [..|exact HF]; auto.
    by rewrite Hst.
  - destruct H as (HT & Hf & HS & HI & Hst). exists k.
    apply fifo_stage; [simpl; lia|]. eapply fifo_core; [..|exact HF]; auto.
    by rewrite Hst.
Qed.

Lemma fifo_after_work s k next (work : Z -> M unit) :
  (forall idx, respects (works (Z.to_nat idx)) (work idx)) ->
  fifo cfg s k -> (2 <= rank (stage s))%nat ->
  (rank next <= rank (stage s))%nat ->
  GetFreeTaskIndex (pTasks s) N <> MFX_ERR_NOT_FOUND ->
  exists k',
    fifo cfg (settle (leave_stage next) (work (GetFreeTaskIndex (pTasks s) N) s)) k'.
Proof.
  intros Hw HF Hr Hn HG.
  assert (HkN := fifo_not_full _ _ HF HG).
  pose proof (fifo_free_slot _ _ HF Hr HkN) as Hidx.
  set (idx := GetFreeTaskIndex (pTasks s) N) in *.
  assert (Hi : Z.to_nat idx = ring N (nFirstSyncTask s) k)
    by (rewrite Hidx; apply Nat2Z.id).
  specialize (Hw idx s). rewrite Hi in Hw.
  destruct (fifo_works _ _ _ _ HF HkN eq_refl Hw) as [k' Hk'].
  assert (Hst : stage (exits (work idx s)) = stage s).
  { destruct Hw as (s1 & s2 & H1 & H2 & H3).
    destruct H1 as (_&_&_&_&E1&_). destruct H3 as (_&_&_&_&E3&_).
    rewrite E3. destruct H2 as [->|[surf ->]]; [done|].
    rewrite <- E1. clear. generalize (w_enc (world s1)). intros rs. revert s1.
    induction rs as [|r rs IH]; intros s1; simpl; [done|].
    repeat case_match; rewrite ?IH; done. }
  exists k'. revert Hk' Hst.
  destruct (work idx s) as [[] s'|s'|s'|rc s']; simpl; intros Hk' Hst; auto.
  - apply fifo_leave; [by rewrite Hst | done].
  - apply fifo_stage; [simpl; lia | done].
Qed.

Lemma fifo_tick s k : (0 < N)%nat -> fifo cfg s k -> exists k', fifo cfg (tick cfg s) k'.
Proof.
  intros HN HF. unfold tick.
  assert (Hbody : forall (work : Z -> M unit) cond next,
    (forall idx, respects (works (Z.to_nat idx)) (work idx)) ->
    (2 <= rank (stage s))%nat -> (rank next <= rank (stage s))%nat ->
    exists k', fifo cfg
      (iteration cond
         (bind (gets (fun s => GetFreeTaskIndex (pTasks s) N))
            (fun idx => if MFX_ERR_NOT_FOUND =? idx then flush_oldest cfg else work idx))
         (leave_stage next) s) k').
  { intros work cond next Hw Hr Hn. unfold iteration.
    destruct cond; [|exists k; by apply fifo_leave].
    unfold bind, gets.
    destruct (Z.eqb_spec MFX_ERR_NOT_FOUND (GetFreeTaskIndex (pTasks s) N)) as [He|He].
    - assert (k = N) by (apply (fifo_full s k HF); congruence).
      apply (fifo_after_flush s k next); auto. lia.
    - by apply (fifo_after_work s k next work). }
  destruct (stage s) eqn:Hst.
  - apply (Hbody (stage1_work cfg)); [apply works_stage1 | simpl; lia..].
  - apply (Hbody (stage2_work cfg)); [apply works_stage2 | simpl; lia..].
  - apply (Hbody (stage3_work cfg)); [apply works_stage3 | simpl; lia..].
  - apply (Hbody stage4_work); [apply works_stage4 | simpl; lia..].
  - unfold iteration. destruct (stage5_cond s) eqn:Hc.
    + unfold stage5_cond in Hc.
      assert (Hk : (0 < k)%nat).
      { pose proof (fifo_occ _ _ _ HF 0%nat HN) as H0.
        rewrite ring_0 in H0 by apply HF. rewrite Hc in H0.
        symmetry in H0. apply bool_decide_eq_true in H0. done. }
      pose proof (flush_cases s) as H. simpl in H.
      destruct (flush_oldest cfg s) as [[] s'|s'|s'|rc s']; [| done | |].
      * destruct H as (HT & Hf & HS & HI & Hst'). exists (k - 1)%nat.
        eapply fifo_flush; eauto. rewrite Hst. simpl. lia.
      * destruct H as (HT & Hf & HS & HI & Hst'). exists k.
        apply fifo_stage; [simpl; lia|]. eapply fifo_core; [..|exact HF]; auto.
        by rewrite Hst'.
      * destruct H as (HT & Hf & HS & HI & Hst'). exists k.
        apply fifo_stage; [simpl; lia|]. eapply fifo_core; [..|exact HF]; auto.
        by rewrite Hst'.
    + exists k. apply fifo_stage; [simpl; lia | done].
  - by exists k.
  - by exists k.
Qed.

Lemma fifo_init w : (0 < N)%nat -> fifo cfg (init cfg w) 0.
Proof.
  intros HN. split; simpl; auto.
  - by rewrite length_replicate.
  - lia.
  - intros j Hj. unfold task_at. by rewrite lookup_replicate_2 by (apply ring_lt; lia).
  - by rewrite Nat.Div0.mod_0_l.
Qed.

Lemma fifo_run w n : (0 < N)%nat -> exists k, fifo cfg (run cfg n (init cfg w)) k.
Proof.
  intros HN. induction n as [|n [k IH]]; simpl.
  - exists 0%nat. by apply fifo_init.
  - by eapply fifo_tick.
Qed.

End Fifo.

(** ** Every run ends *)

Lemma outstanding_insert l i t : (i < length l)%nat ->
  (outstanding (<[i := t]> l) + (if is_set (syncp (task_at l i)) then 1 else 0)
   = outstanding l + (if is_set (syncp t) then 1 else 0))%nat.
Proof.
  unfold outstanding, task_at. revert i. induction l as [|x l IH]; intros i Hi; simpl in *; [lia|].
  destruct i as [|i]; simpl.
  - rewrite !filter_cons. repeat case_decide; destruct (is_set (syncp x)), (is_set (syncp t)); simpl; try done; lia.
  - specialize (IH i ltac:(lia)). rewrite !filter_cons. case_decide; simpl; lia.
Qed.

Lemma outstanding_alter l i : (i < length l)%nat ->
  (outstanding (alter recycle i l) + (if is_set (syncp (task_at l i)) then 1 else 0)
   = outstanding l)%nat.
Proof.
  intros Hi. destruct (lookup_lt_is_Some_2 l i Hi) as [x Hx].
  assert (alter recycle i l = <[i := recycle x]> l) as ->.
  { apply list_eq. intros j. destruct (decide (i = j)) as [->|].
    - rewrite list_lookup_alter_eq, list_lookup_insert_eq, Hx; done.
    - by rewrite list_lookup_alter_ne, list_lookup_insert_ne. }
  pose proof (outstanding_insert l i (recycle x) Hi). simpl in *. lia.
Qed.

Lemma vpp_loop_score b i rs s : w_vpp (world s) = rs ->
  let s' := vpp_loop b i rs s in
  pTasks s' = pTasks s /\ stage s' = stage s /\
  length (w_read (world s')) = length (w_read (world s)) /\
  length (w_dec (world s')) = length (w_dec (world s)) /\
  w_enc (world s') = w_enc (world s) /\
  (length (w_vpp (world s')) <= length rs)%nat /\
  (length (w_vpp (world s')) = length rs -> sts s' = MFX_ERR_MORE_DATA).
Proof.
  revert s. induction rs as [|r rs IH]; intros s Hrs; simpl.
  - rewrite Hrs. simpl. repeat split; auto.
  - destruct ((MFX_ERR_NONE <? r_sts r) && negb (is_set (r_syncp r))).
    + match goal with |- context [vpp_loop b i rs ?s0] =>
        destruct (IH s0) as (H1&H2&H3&H4&H5&H6&H7) end.
      { by destruct (_ =? _). }
      rewrite H1, H2, H3, H4, H5. destruct (_ =? _); simpl; repeat split; auto; lia.
    + destruct (_ && _); simpl; repeat split; auto; lia.
Qed.

Lemma enc_loop_score surf i rs s : w_enc (world s) = rs ->
  (i < length (pTasks s))%nat -> is_set (syncp (task_at (pTasks s) i)) = false ->
  let s' := enc_loop surf i rs s in
  stage s' = stage s /\
  length (w_read (world s')) = length (w_read (world s)) /\
  length (w_dec (world s')) = length (w_dec (world s)) /\
  length (w_vpp (world s')) = length (w_vpp (world s)) /\
  ((6 * length (w_enc (world s')) + 3 * outstanding (pTasks s') + 3
    <= 6 * length rs + 3 * outstanding (pTasks s))%nat
   \/ (length (w_enc (world s')) = length rs /\
       outstanding (pTasks s') = outstanding (pTasks s) /\
       sts s' = MFX_ERR_MORE_DATA)).
Proof.
  revert s. induction rs as [|r rs IH]; intros s Hrs Hi Hfree; simpl.
  - rewrite Hrs. simpl. repeat split; auto.
  - pose proof (outstanding_insert (pTasks s) i (MkTask (e_bs r) (e_syncp r)) Hi) as Ho.
    rewrite Hfree in Ho. simpl in Ho.
    destruct (is_set (e_syncp r)) eqn:Htok.
    + rewrite andb_false_r. 
      destruct (MFX_ERR_NONE <? e_sts r); simpl; [|destruct (_ =? _); simpl];
        repeat split; auto; left; lia.
    + rewrite andb_true_r, andb_false_r.
      destruct (MFX_ERR_NONE <? e_sts r); simpl.
      * match goal with |- context [enc_loop surf i rs ?s0] =>
          destruct (IH s0) as (H1&H2&H3&H4&H5) end.
        { by destruct (_ =? _). }
        { destruct (_ =? _); simpl; by rewrite length_insert. }
        { destruct (_ =? _); simpl; rewrite task_at_insert by done;
            by rewrite decide_True. }
        rewrite H1, H2, H3, H4.
        destruct (MFX_WRN_DEVICE_BUSY =? e_sts r); simpl in *;
          repeat split; auto; left; lia.
      * destruct (_ =? _); simpl; repeat split; auto; left; lia.
Qed.

Ltac unfold_driver :=
  unfold stage1_work, stage2_work, stage3_work, stage4_work, vpp_and_encode,
    flush_oldest, bind, gets, when, modify, ret, MSDK_SLEEP, ReadBitStreamData,
    MSDK_BREAK_ON_ERROR, find_pSurfaces, find_pSurfaces2, MSDK_CHECK_ERROR,
    MSDK_CHECK_RESULT, DecodeFrameAsync, RunFrameVPPAsync_loop,
    EncodeFrameAsync_loop, SyncOperation, WriteBitStreamFrame,
    continue_, break_, return_.

Ltac split_if :=
  match goal with
  | |- context [if ?b then _ else _] =>
      lazymatch type of b with
      | bool =>
          lazymatch b with
          | context [if _ then _ else _] => fail
          | _ => destruct b eqn:?
          end
      end
  end.

Ltac run_driver := unfold_driver; unfold modify; simpl; repeat (split_if; simpl).

Ltac bools :=
  repeat match goal with
  | H : (_ =? _) = true |- _ => apply Z.eqb_eq in H
  | H : (_ =? _) = false |- _ => apply Z.eqb_neq in H
  | H : (_ <? _) = true |- _ => apply Z.ltb_lt in H
  | H : (_ <? _) = false |- _ => apply Z.ltb_ge in H
  | H : (_ <=? _) = true |- _ => apply Z.leb_le in H
  | H : (_ <=? _) = false |- _ => apply Z.leb_gt in H
  | H : (_ >? _) = true |- _ => rewrite Z.gtb_ltb in H
  | H : (_ >? _) = false |- _ => rewrite Z.gtb_ltb in H
  | H : (_ && _) = true |- _ => apply andb_true_iff in H; destruct H
  | H : (_ && _) = false |- _ => apply andb_false_iff in H; destruct H
  | H : (_ || _) = true |- _ => apply orb_true_iff in H; destruct H
  | H : (_ || _) = false |- _ => apply orb_false_iff in H; destruct H
  end.

Ltac codes :=
  unfold MFX_ERR_NONE, MFX_ERR_NULL_PTR, MFX_ERR_MEMORY_ALLOC,
    MFX_ERR_NOT_ENOUGH_BUFFER, MFX_ERR_NOT_FOUND, MFX_ERR_MORE_DATA,
    MFX_ERR_MORE_SURFACE, MFX_WRN_IN_EXECUTION, MFX_WRN_DEVICE_BUSY,
    MFX_WRN_PARTIAL_ACCELERATION, mfxStatus in *.

Ltac norm :=
  cbn [stage pTasks world sts sink trace nFirstSyncTask nFrame nIndex
       w_read w_pool w_pool2 w_dec w_vpp w_enc w_sync w_write
       set_pTasks set_nFirstSyncTask set_nFrame set_nIndex set_sts set_world
       set_sink set_stage log logs
       set_w_read set_w_pool set_w_pool2 set_w_dec set_w_vpp set_w_enc
       set_w_sync set_w_write r_sts r_syncp e_sts e_bs e_syncp exhausted
       hd tl length] in *.

(* the facts about the loops in the goal, the VPP loop first *)
Ltac loop_facts :=
  try match goal with
  | |- context [vpp_loop ?b ?i ?rs ?s0] =>
      let sv := fresh "sv" in
      pose proof (vpp_loop_score b i rs s0 eq_refl) as (?&?&?&?&?&?&?);
      set (sv := vpp_loop b i rs s0) in *; norm; clearbody sv
  end;
  try match goal with
  | |- context [enc_loop ?surf ?i ?rs ?s0] =>
      let se := fresh "se" in
      let H1 := fresh in
      let H2 := fresh in
      assert (H1 : (i < length (pTasks s0))%nat)
        by (norm; first [assumption | congruence]);
      assert (H2 : is_set (syncp (task_at (pTasks s0) i)) = false)
        by (norm; first [assumption | congruence]);
      pose proof (enc_loop_score surf i rs s0 eq_refl H1 H2) as (?&?&?&?&?);
      set (se := enc_loop surf i rs s0) in *; norm; clearbody se
  end.

Ltac finish s :=
  norm; bools; unfold potential, score, budget in *; norm;
  repeat match goal with
  | H : pTasks _ = _ |- _ => rewrite H in *; clear H
  | H : stage _ = _ |- _ => rewrite H in *; clear H
  | H : w_enc (world _) = _ |- _ => rewrite H in *; clear H
  end;
  destruct (w_read (world s)) eqn:?; destruct (w_dec (world s)) eqn:?; norm;
  repeat match goal with
  | |- context [if (?x =? ?y) then _ else _] => destruct (Z.eqb_spec x y)
  | H : context [if (?x =? ?y) then _ else _] |- _ => destruct (Z.eqb_spec x y)
  end;
  repeat match goal with H : _ \/ _ |- _ => destruct H end;
  repeat match goal with H : _ /\ _ |- _ => destruct H end;
  codes; split; first [congruence | lia].

Section Potential.
Context (cfg : config).

Lemma stage4_ok s idx i :
  idx = Z.of_nat i -> (i < length (pTasks s))%nat ->
  is_set (syncp (task_at (pTasks s) i)) = false ->
  sts s <> MFX_ERR_MORE_DATA ->
  ok s (stage4_work idx s).
Proof.
  intros -> Hi Hfree Hsts. unfold_driver. simpl. rewrite Nat2Z.id.
  destruct (enc_loop_score None i (w_enc (world s)) s eq_refl Hi Hfree)
    as (H1&H2&H3&H4&H5).
  split; [done|]. unfold potential, budget. rewrite H1, H2, H3, H4.
  destruct (Z.eqb_spec (sts s) MFX_ERR_MORE_DATA); [done|].
  destruct H5 as [H5|(H5&H6&H7)].
  - destruct (_ =? _); lia.
  - rewrite H5, H6, H7. simpl. lia.
Qed.

Lemma stage1_ok s idx i :
  idx = Z.of_nat i -> (i < length (pTasks s))%nat ->
  is_set (syncp (task_at (pTasks s) i)) = false ->
  ok s (stage1_work cfg idx s).
Proof.
  intros -> Hi Hfree. run_driver.
  all: rewrite ?Nat2Z.id.
  all: loop_facts.
  all: finish s.
Qed.

Lemma stage2_ok s idx i :
  idx = Z.of_nat i -> (i < length (pTasks s))%nat ->
  is_set (syncp (task_at (pTasks s) i)) = false ->
  sts s <> MFX_ERR_MORE_DATA ->
  ok s (stage2_work cfg idx s).
Proof.
  intros -> Hi Hfree Hsts. run_driver.
  all: rewrite ?Nat2Z.id.
  all: loop_facts.
  all: finish s.
Qed.

Lemma stage3_ok s idx i :
  idx = Z.of_nat i -> (i < length (pTasks s))%nat ->
  is_set (syncp (task_at (pTasks s) i)) = false ->
  ok s (stage3_work cfg idx s).
Proof.
  intros -> Hi Hfree. run_driver.
  all: rewrite ?Nat2Z.id.
  all: loop_facts.
  all: finish s.
Qed.

Lemma flush_ok s :
  (nFirstSyncTask s < length (pTasks s))%nat ->
  is_set (syncp (task_at (pTasks s) (nFirstSyncTask s))) = true ->
  ok s (flush_oldest cfg s).
Proof.
  intros Hf Htok. run_driver.
  all: pose proof (outstanding_alter (pTasks s) (nFirstSyncTask s) Hf) as Ho;
    rewrite Htok in Ho.
  all: finish s.
Qed.

Lemma potential_leave next s :
  (rank next < rank (stage s))%nat ->
  (potential (leave_stage next s) < score s + 3 * rank (stage s))%nat.
Proof.
  intros Hr. unfold leave_stage, MSDK_CHECK_RESULT, MSDK_IGNORE_MFX_STS, bind,
    modify, return_, ret. simpl.
  repeat (split_if; simpl); unfold potential, score; simpl;
    repeat match goal with
    | |- context [if (?x =? ?y) then _ else _] => destruct (Z.eqb_spec x y)
    end; lia.
Qed.

Lemma potential_score s :
  (score s + 3 * rank (stage s) <= potential s)%nat.
Proof. unfold potential, score. lia. Qed.

Lemma potential_settle next s c :
  (rank next < rank (stage s))%nat -> ok s c ->
  (potential (settle (leave_stage next) c) < potential s)%nat.
Proof.
  intros Hr Hok. pose proof (potential_score s).
  destruct c as [[] s'|s'|s'|rc s']; simpl in *; destruct Hok as [Hst Hs]; auto.
  - pose proof (potential_leave next s'). rewrite Hst in *. lia.
  - unfold potential, score in *. cbn [stage pTasks world sts set_stage rank].
    repeat match goal with
    | |- context [if (?x =? ?y) then _ else _] => destruct (Z.eqb_spec x y)
    end; lia.
Qed.

Lemma potential_work s next (work : Z -> M unit) :
  length (pTasks s) = taskPoolSize cfg ->
  (rank next < rank (stage s))%nat ->
  GetFreeTaskIndex (pTasks s) (taskPoolSize cfg) <> MFX_ERR_NOT_FOUND ->
  (forall idx i, idx = Z.of_nat i -> (i < length (pTasks s))%nat ->
     is_set (syncp (task_at (pTasks s) i)) = false -> ok s (work idx s)) ->
  (potential (settle (leave_stage next)
     (work (GetFreeTaskIndex (pTasks s) (taskPoolSize cfg)) s)) < potential s)%nat.
Proof.
  intros HL Hr HG Hw. apply potential_settle; [done|].
  destruct (GetFreeTaskIndex_spec (pTasks s) _ HL) as [(i & Hi & HiN & Hfree & _)|[? _]];
    [|done].
  eapply Hw; eauto. lia.
Qed.

Lemma potential_tick s k :
  (0 < taskPoolSize cfg)%nat -> fifo cfg s k -> (0 < rank (stage s))%nat ->
  (potential (tick cfg s) < potential s)%nat.
Proof.
  intros HN HF Hrank. pose proof (potential_score s) as Hps.
  assert (HL := fifo_len _ _ _ HF). assert (Hf := fifo_first _ _ _ HF).
  assert (Hflush : forall next, (rank next < rank (stage s))%nat ->
    GetFreeTaskIndex (pTasks s) (taskPoolSize cfg) = MFX_ERR_NOT_FOUND ->
    (potential (settle (leave_stage next) (flush_oldest cfg s)) < potential s)%nat).
  { intros next Hr HG. apply potential_settle; [done|].
    apply flush_ok; [lia|].
    pose proof (fifo_occ _ _ _ HF 0%nat HN) as H0.
    rewrite ring_0 in H0 by done. rewrite H0.
    apply bool_decide_eq_true. rewrite (fifo_full _ _ _ HF HG). lia. }
  assert (Hbody : forall (work : Z -> M unit) (cond : bool) next,
    (rank next < rank (stage s))%nat ->
    (cond = true -> forall idx i, idx = Z.of_nat i -> (i < length (pTasks s))%nat ->
       is_set (syncp (task_at (pTasks s) i)) = false -> ok s (work idx s)) ->
    (potential (iteration cond
       (bind (gets (fun s => GetFreeTaskIndex (pTasks s) (taskPoolSize cfg)))
          (fun idx => if (MFX_ERR_NOT_FOUND =? idx)%Z then flush_oldest cfg else work idx))
       (leave_stage next) s) < potential s)%nat).
  { intros work cond next Hr Hw. unfold iteration.
    destruct cond.
    2:{ pose proof (potential_leave next s Hr). lia. }
    specialize (Hw eq_refl).
    unfold bind, gets.
    destruct (Z.eqb_spec MFX_ERR_NOT_FOUND
                (GetFreeTaskIndex (pTasks s) (taskPoolSize cfg))) as [He|He].
    - by apply Hflush.
    - apply potential_work; auto. }
  unfold tick. destruct (stage s) eqn:Hst; simpl in Hrank; try lia.
  - apply (Hbody (stage1_work cfg)); [simpl; lia|].
    intros _ idx i. apply stage1_ok.
  - apply (Hbody (stage2_work cfg)); [simpl; lia|].
    intros Hc idx i ? ? ?. apply (stage2_ok s idx i); auto.
    unfold stage2_cond in Hc. intros E. rewrite E in Hc. done.
  - apply (Hbody (stage3_work cfg)); [simpl; lia|].
    intros _ idx i. apply stage3_ok.
  - apply (Hbody stage4_work); [simpl; lia|].
    intros Hc idx i ? ? ?. apply (stage4_ok s idx i); auto.
    unfold stage4_cond in Hc. intros E. rewrite E in Hc. done.
  - unfold iteration. destruct (stage5_cond s) eqn:Hc.
    + unfold stage5_cond in Hc.
      assert (Hok : ok s (flush_oldest cfg s)) by (apply flush_ok; [lia | done]).
      destruct (flush_oldest cfg s) as [[] s'|s'|s'|rc s']; simpl in *;
        destruct Hok as [Hs1 Hs2]; auto;
        unfold potential, score in *; cbn [stage pTasks world sts set_stage rank];
        rewrite Hst in *; simpl in *;
        repeat match goal with
        | |- context [if (?x =? ?y) then _ else _] => destruct (Z.eqb_spec x y)
        end; lia.
    + unfold potential. rewrite Hst. simpl. lia.
Qed.

Lemma tick_final s : final (stage s) -> tick cfg s = s.
Proof. unfold tick. by destruct (stage s). Qed.

Lemma run_tick n s : run cfg (S n) s = run cfg n (tick cfg s).
Proof.
  unfold run. induction n as [|n IH]; [done|].
  simpl in *. by rewrite IH.
Qed.

Lemma run_fixed n s : final (stage s) -> run cfg n s = s.
Proof.
  intros Hfin. induction n as [|n IH]; [done|].
  unfold run in *. simpl. rewrite IH. by apply tick_final.
Qed.

Lemma run_final n : forall s k,
  (0 < taskPoolSize cfg)%nat -> fifo cfg s k -> (potential s <= n)%nat ->
  final (stage (run cfg n s)).
Proof.
  induction n as [|n IH]; intros s k HN HF Hp.
  - simpl. unfold potential in Hp. destruct (stage s); simpl in *; try done; lia.
  - rewrite run_tick. destruct (decide (0 < rank (stage s))%nat) as [Hr|Hr].
    + destruct (fifo_tick cfg s k HN HF) as [k' HF'].
      apply (IH _ k'); auto.
      pose proof (potential_tick s k HN HF Hr). lia.
    + assert (Hfin : final (stage s)) by (destruct (stage s); simpl in *; try done; lia).
      rewrite tick_final by done. by rewrite run_fixed.
Qed.

End Potential.
(** ** Runs without failures *)

Lemma Forall_hd {A} (P : A -> Prop) d l : Forall P l -> P d -> P (hd d l).
Proof. by destruct 1. Qed.

Lemma Forall_tl {A} (P : A -> Prop) l : Forall P l -> Forall P (tl l).
Proof. destruct 1; simpl; auto. Qed.

Lemma first_unlocked_replicate n i :
  first_unlocked i (replicate (S n) (MkSurface 0)) = Some i.
Proof. done. Qed.

Lemma scan_default n : (0 < n)%nat ->
  GetFreeSurfaceIndex (replicate n (MkSurface 0)) n <> MFX_ERR_NOT_FOUND.
Proof.
  intros Hn. destruct n as [|n]; [lia|]. unfold GetFreeSurfaceIndex.
  rewrite firstn_all2 by (rewrite length_replicate; lia). simpl.
  unfold MFX_ERR_NOT_FOUND. lia.
Qed.

Section Nominal.
Context (cfg : config).

Lemma sound_vpp_loop b i rs s : w_vpp (world s) = rs -> nominal cfg (world s) ->
  let s' := vpp_loop b i rs s in
  nominal cfg (world s') /\ passes (sts s') /\ stage s' = stage s /\
  pTasks s' = pTasks s.
Proof.
  revert s. induction rs as [|r rs IH]; intros s Hrs Hn; simpl.
  - split; [exact Hn|]. split; [by right | done].
  - assert (Hr : passes (r_sts r)).
    { pose proof (nom_vpp _ _ Hn) as H. rewrite Hrs in H. by inversion H. }
    assert (Hn' : nominal cfg (set_w_vpp rs (world s))).
    { destruct Hn as [? ? ? ? ? ? Hv ? ? ?]. split; simpl; auto.
      rewrite Hrs in Hv. by inversion Hv. }
    destruct ((MFX_ERR_NONE <? r_sts r) && negb (is_set (r_syncp r))).
    + match goal with |- context [vpp_loop b i rs ?s0] =>
        destruct (IH s0) as (H1&H2&H3&H4) end.
      { by destruct (_ =? _). }
      { by destruct (_ =? _). }
      rewrite H3, H4. split; [done|]. split; [done|]. by destruct (_ =? _).
    + destruct (_ && _); simpl.
      * split; [exact Hn'|]. split; [by left | done].
      * split; [exact Hn'|]. split; [exact Hr | done].
Qed.

Lemma sound_enc_loop surf i rs s : w_enc (world s) = rs -> nominal cfg (world s) ->
  let s' := enc_loop surf i rs s in
  nominal cfg (world s') /\ passes (sts s') /\ stage s' = stage s.
Proof.
  revert s. induction rs as [|r rs IH]; intros s Hrs Hn; simpl.
  - split; [exact Hn|]. split; [by right | done].
  - assert (Hr : passes (e_sts r)).
    { pose proof (nom_enc _ _ Hn) as H. rewrite Hrs in H. by inversion H. }
    assert (Hn' : nominal cfg (set_w_enc rs (world s))).
    { destruct Hn as [? ? ? ? ? ? ? He ? ?]. split; simpl; auto.
      rewrite Hrs in He. by inversion He. }
    destruct ((MFX_ERR_NONE <? e_sts r) && negb (is_set (e_syncp r))).
    + match goal with |- context [enc_loop surf i rs ?s0] =>
        destruct (IH s0) as (H1&H2&H3) end.
      { by destruct (_ =? _). }
      { by destruct (_ =? _). }
      rewrite H3. split; [done|]. split; [done|]. by destruct (_ =? _).
    + destruct (_ && _); simpl; [|destruct (_ =? _); simpl].
      * split; [exact Hn'|]. split; [by left | done].
      * split; [exact Hn'|]. split; [exact Hr | done].
      * split; [exact Hn'|]. split; [exact Hr | done].
Qed.

Lemma nominal_heads w : nominal cfg w ->
  passes (hd MFX_ERR_MORE_DATA (w_read w)) /\
  GetFreeSurfaceIndex (hd (replicate (nSurfNumDecVPP cfg) (MkSurface 0)) (w_pool w))
    (nSurfNumDecVPP cfg) <> MFX_ERR_NOT_FOUND /\
  GetFreeSurfaceIndex (hd (replicate (nSurfNumVPPEnc cfg) (MkSurface 0)) (w_pool2 w))
    (nSurfNumVPPEnc cfg) <> MFX_ERR_NOT_FOUND /\
  flows (r_sts (hd exhausted (w_dec w))) /\
  MFX_ERR_NONE <= hd MFX_ERR_NONE (w_sync w) /\
  MFX_ERR_NONE <= hd MFX_ERR_NONE (w_write w).
Proof.
  intros [Hr Hp Hp2 Hs Hs2 Hd Hv He Hy Hw]. repeat split.
  - apply Forall_hd; [done | by right].
  - apply (Forall_hd (fun p => GetFreeSurfaceIndex p _ <> _)); [done | by apply scan_default].
  - apply (Forall_hd (fun p => GetFreeSurfaceIndex p _ <> _)); [done | by apply scan_default].
  - apply (Forall_hd (fun r => flows (r_sts r))); [done | by left; right].
  - by apply (Forall_hd (fun r => MFX_ERR_NONE <= r)).
  - by apply (Forall_hd (fun r => MFX_ERR_NONE <= r)).
Qed.

End Nominal.

Ltac nom_tac :=
  lazymatch goal with
  | Hn : nominal _ _ |- nominal _ _ =>
      destruct Hn; split; cbn; repeat apply Forall_tl; assumption
  end.

Ltac sound_facts cfg :=
  try match goal with
  | |- context [vpp_loop ?b ?i ?rs ?s0] =>
      let sv := fresh "sv" in
      let Hn0 := fresh in
      assert (Hn0 : nominal cfg (world s0)) by (norm; nom_tac);
      pose proof (sound_vpp_loop cfg b i rs s0 eq_refl Hn0) as (?&?&?&?);
      set (sv := vpp_loop b i rs s0) in *; norm; clearbody sv
  end;
  try match goal with
  | |- context [enc_loop ?surf ?i ?rs ?s0] =>
      let se := fresh "se" in
      let Hn0 := fresh in
      assert (Hn0 : nominal cfg (world s0)) by (norm; first [assumption | nom_tac]);
      pose proof (sound_enc_loop cfg surf i rs s0 eq_refl Hn0) as (?&?&?);
      set (se := enc_loop surf i rs s0) in *; norm; clearbody se
  end.

(* the status of the goal passes, or is the decoder's in its own stage *)
Ltac status_ok :=
  codes;
  repeat match goal with H : stage _ = _ |- _ => rewrite H in * end;
  cbn [rank] in *;
  first [ lia | intuition lia ].

Ltac safe_finish :=
  unfold safe, sound, flows, passes in *; norm; bools;
  repeat match goal with H : _ /\ _ |- _ => destruct H end;
  first
    [ exfalso; codes; first [congruence | lia | (intuition lia)]
    | split; [split; [first [assumption | nom_tac] | status_ok] | congruence]
    | split; [first [assumption | nom_tac] | split; [status_ok | congruence]] ].

Section NominalTick.
Context (cfg : config).

Lemma stage1_safe s idx :
  sound cfg s -> stage s = Stage1 -> safe cfg s (stage1_work cfg idx s).
Proof.
  intros [Hn Hs] Hst. pose proof (nominal_heads cfg _ Hn) as (?&?&?&?&?&?).
  run_driver.
  all: sound_facts cfg.
  all: safe_finish.
Qed.

Lemma stage2_safe s idx :
  sound cfg s -> stage s = Stage2 -> safe cfg s (stage2_work cfg idx s).
Proof.
  intros [Hn Hs] Hst. pose proof (nominal_heads cfg _ Hn) as (?&?&?&?&?&?).
  run_driver.
  all: sound_facts cfg.
  all: safe_finish.
Qed.

Lemma stage3_safe s idx : sound cfg s -> safe cfg s (stage3_work cfg idx s).
Proof.
  intros [Hn Hs]. pose proof (nominal_heads cfg _ Hn) as (?&?&?&?&?&?).
  run_driver.
  all: sound_facts cfg.
  all: safe_finish.
Qed.

Lemma stage4_safe s idx : sound cfg s -> safe cfg s (stage4_work idx s).
Proof.
  intros [Hn Hs]. pose proof (nominal_heads cfg _ Hn) as (?&?&?&?&?&?).
  run_driver.
  all: sound_facts cfg.
  all: safe_finish.
Qed.

Lemma flush_safe s : sound cfg s -> safe cfg s (flush_oldest cfg s).
Proof.
  intros [Hn Hs]. pose proof (nominal_heads cfg _ Hn) as (?&?&?&?&?&?).
  run_driver.
  all: safe_finish.
Qed.

Lemma sound_leave next s : nominal cfg (world s) -> passes (sts s) ->
  sound cfg (leave_stage next s) /\ stage (leave_stage next s) = next.
Proof.
  intros Hn Hs. unfold leave_stage, MSDK_CHECK_RESULT, MSDK_IGNORE_MFX_STS, bind,
    modify, return_, ret. simpl.
  repeat (split_if; simpl); unfold sound, passes in *; norm; bools; codes;
    try (exfalso; lia); (split; [split; [assumption | left; lia] | done]).
Qed.

Lemma sound_settle next s c : safe cfg s c ->
  let s' := settle (leave_stage next) c in
  sound cfg s' /\ (stage s' = stage s \/ stage s' = next).
Proof.
  destruct c as [[] s'|s'|s'|rc s']; simpl; intros H; try done;
    try (destruct H as [H1 H2]; split; [done | by left]).
  destruct H as (H1 & H2 & H3). destruct (sound_leave next s' H1 H2) as [H4 H5].
  split; [done | by right].
Qed.

(** A state of a run without failures whose loop is over has a status that
    passes. *)
Lemma sound_cond_false s : sound cfg s -> loop_cond s = false ->
  (2 <= rank (stage s))%nat -> passes (sts s).
Proof.
  intros [_ [Hs|[Hs Hr]]] Hc Hrk; [done|]. exfalso. revert Hc.
  unfold loop_cond, stage1_cond, stage2_cond.
  destruct (stage s); simpl in Hr; try lia; rewrite Hs;
    unfold MFX_ERR_MORE_SURFACE, MFX_ERR_MORE_DATA, MFX_ERR_NONE; done.
Qed.

Lemma sound_tick s : sound cfg s -> (position (stage s) <= 5)%nat ->
  sound cfg (tick cfg s) /\
  (stage (tick cfg s) = stage s \/
   position (stage (tick cfg s)) = S (position (stage s))).
Proof.
  intros Hs Hp.
  assert (Hbody : forall (work : Z -> M unit) (cond : bool) next,
    position next = S (position (stage s)) ->
    (forall idx, safe cfg s (work idx s)) ->
    (cond = false -> passes (sts s)) ->
    let s' := iteration cond
       (bind (gets (fun s => GetFreeTaskIndex (pTasks s) (taskPoolSize cfg)))
          (fun idx => if MFX_ERR_NOT_FOUND =? idx then flush_oldest cfg else work idx))
       (leave_stage next) s in
    sound cfg s' /\ (stage s' = stage s \/ position (stage s') = S (position (stage s)))).
  { intros work cond next Hnext Hw Hcond. unfold iteration. destruct cond.
    - unfold bind, gets.
      destruct (MFX_ERR_NOT_FOUND =? _).
      + destruct (sound_settle next s _ (flush_safe s Hs)) as [H1 [H2|H2]];
          (split; [done|]); [by left | right; by rewrite H2].
      + destruct (sound_settle next s _
                    (Hw (GetFreeTaskIndex (pTasks s) (taskPoolSize cfg)))) as [H1 [H2|H2]];
          (split; [done|]); [by left | right; by rewrite H2].
    - destruct (sound_leave next s (proj1 Hs) (Hcond eq_refl)) as [H1 H2].
      split; [done|]. right. by rewrite H2. }
  assert (Hcf : forall cond, cond = loop_cond s -> (2 <= rank (stage s))%nat ->
                cond = false -> passes (sts s)).
  { intros cond -> Hrk Hc. by apply sound_cond_false. }
  unfold tick. destruct (stage s) eqn:Hst; simpl in Hp; try lia.
  - apply (Hbody (stage1_work cfg)); [done | |].
    + intros. by apply stage1_safe.
    + apply Hcf; [unfold loop_cond; by rewrite Hst | simpl; lia].
  - apply (Hbody (stage2_work cfg)); [done | |].
    + intros. by apply stage2_safe.
    + apply Hcf; [unfold loop_cond; by rewrite Hst | simpl; lia].
  - apply (Hbody (stage3_work cfg)); [done | |].
    + intros. by apply stage3_safe.
    + apply Hcf; [unfold loop_cond; by rewrite Hst | simpl; lia].
  - apply (Hbody stage4_work); [done | |].
    + intros. by apply stage4_safe.
    + apply Hcf; [unfold loop_cond; by rewrite Hst | simpl; lia].
  - unfold iteration. destruct (stage5_cond s).
    + pose proof (flush_safe s Hs) as H.
      destruct (flush_oldest cfg s) as [[] s'|s'|s'|rc s']; simpl in *; try done.
      * destruct H as [H1 H2]. split; [done|]. rewrite ?H2, ?Hst; auto.
      * destruct H as [H1 H2]. split; [done|]. rewrite ?H2, ?Hst; auto.
      * destruct H as (H1 & H2 & H3). split; [by split; [|left]|]. by right.
    + destruct Hs as [Hn [Hs|[Hs Hr]]]; [|rewrite Hst in Hr; simpl in Hr; lia].
      split; [by split; [|left]|]. by right.
Qed.

Lemma sound_init w : nominal cfg w -> sound cfg (init cfg w).
Proof. intros. split; [done|]. by left; left. Qed.

Lemma sound_run w n : nominal cfg w ->
  let s := run cfg n (init cfg w) in
  sound cfg s /\ (1 <= position (stage s) <= 6)%nat /\
  (stage (tick cfg s) = stage s \/
   position (stage (tick cfg s)) = S (position (stage s))).
Proof.
  intros Hw. induction n as [|n (IH1 & IH2 & IH3)]; simpl.
  - pose proof (sound_init w Hw) as H0. split; [done|]. split; [simpl; lia|].
    apply sound_tick; [done | simpl; lia].
  - set (s := run cfg n (init cfg w)) in *.
    change (Nat.iter n (tick cfg) (init cfg w)) with s.
    destruct (decide (position (stage s) <= 5)%nat) as [Hle|Hgt].
    + destruct (sound_tick s IH1 Hle) as [H1 H2].
      assert (Hpos : (1 <= position (stage (tick cfg s)) <= 6)%nat)
        by (destruct H2 as [->| ->]; lia).
      split; [done|]. split; [done|].
      destruct (decide (position (stage (tick cfg s)) <= 5)%nat).
      * by apply sound_tick.
      * left. rewrite tick_final; [done|].
        destruct (stage (tick cfg s)); simpl in *; try done; lia.
    + assert (Hfin : final (stage s)) by (destruct (stage s); simpl in *; try done; lia).
      rewrite !tick_final by (rewrite ?tick_final; done). auto.
Qed.

End NominalTick.

(** A sequence that climbs by steps of one reaches every level for the first
    time somewhere. *)
Lemma first_reach (f : nat -> nat) (B k : nat) :
  (forall n, f n <= f (S n))%nat -> (f 0 < k)%nat -> (k <= f B)%nat ->
  exists n, (0 < n <= B)%nat /\ (k <= f n)%nat /\ forall m, (m < n)%nat -> (f m < k)%nat.
Proof.
  intros Hmono H0. induction B as [|B IH]; intros HB; [lia|].
  destruct (decide (k <= f B)%nat) as [Hk|Hk].
  - destruct (IH Hk) as (n & Hn & Hkn & Hm). exists n. repeat split; auto; lia.
  - exists (S B). repeat split; auto; try lia.
    intros m Hm. assert (Hle : (f m <= f B)%nat).
    { clear -Hmono Hm. induction B as [|B IH].
      - replace m with 0%nat by lia. done.
      - destruct (decide (m = S B)) as [->|]; [done|].
        etrans; [apply IH; lia | apply Hmono]. }
    lia.
Qed.

Section Local.
Context (cfg : config).

(** A wait that fails. *)
Lemma flush_wait_fails s :
  hd MFX_ERR_NONE (w_sync (world s)) < MFX_ERR_NONE ->
  let r := hd MFX_ERR_NONE (w_sync (world s)) in
  let f := nFirstSyncTask s in
  flush_oldest cfg s =
    Return r (log (EvPrintRetMsg r)
                (set_sts r (log (EvSync f (syncp (task_at (pTasks s) f)) 60000 r)
                   (set_world (set_w_sync (tl (w_sync (world s))) (world s)) s)))).
Proof.
  intros Hr. run_driver; bools; codes; try lia; try done.
Qed.

Lemma tick_waits s :
  about_to_wait cfg s = true ->
  exists after,
    tick cfg s = settle after (flush_oldest cfg s) /\
    ((exists next, after = leave_stage next /\ next <> stage s) \/
     after = set_stage Done).
Proof.
  unfold about_to_wait, loop_cond, tick, iteration.
  destruct (stage s); try done; intros H;
    try (apply andb_true_iff in H as [-> H]; unfold stage1_body, stage2_body,
           stage3_body, stage4_body, bind, gets; rewrite H;
         eexists; split; [reflexivity|]; left; eexists; split; [reflexivity|done]).
  rewrite H. eauto.
Qed.

Lemma tick_works s :
  about_to_work cfg s = true ->
  exists work next,
    tick cfg s = settle (leave_stage next)
                   (work (GetFreeTaskIndex (pTasks s) (taskPoolSize cfg)) s) /\
    ((stage s = Stage1 /\ work = stage1_work cfg /\ next = Stage2) \/
     (stage s = Stage2 /\ work = stage2_work cfg /\ next = Stage3) \/
     (stage s = Stage3 /\ work = stage3_work cfg /\ next = Stage4) \/
     (stage s = Stage4 /\ work = stage4_work /\ next = Stage5)).
Proof.
  unfold about_to_work, loop_cond, tick, iteration.
  destruct (stage s); try done; intros H;
    apply andb_true_iff in H as [-> H]; apply negb_true_iff in H;
    unfold stage1_body, stage2_body, stage3_body, stage4_body, bind, gets;
    rewrite H; eexists _, _; (split; [reflexivity|]); tauto.
Qed.

(** A scan of the first pool that finds nothing, in stage 1. *)
Lemma stage1_pool_empty s idx :
  (sts s = MFX_ERR_NONE \/ sts s = MFX_ERR_MORE_SURFACE) ->
  next_scan (nSurfNumDecVPP cfg) (w_pool (world s)) = MFX_ERR_NOT_FOUND ->
  stage1_work cfg idx s =
    Return MFX_ERR_MEMORY_ALLOC
      (log (EvPrintRetMsg MFX_ERR_MEMORY_ALLOC)
         (set_nIndex MFX_ERR_NOT_FOUND
            (set_world (set_w_pool (tl (w_pool (world s))) (world s)) s))).
Proof.
  unfold next_scan. intros Hs Hp.
  run_driver; bools; codes; try lia; try congruence.
Qed.

(** The same in stage 2, whatever the status. *)
Lemma stage2_pool_empty s idx :
  next_scan (nSurfNumDecVPP cfg) (w_pool (world s)) = MFX_ERR_NOT_FOUND ->
  let s0 := if MFX_WRN_DEVICE_BUSY =? sts s then log (EvSleep 1) s else s in
  stage2_work cfg idx s =
    Return MFX_ERR_MEMORY_ALLOC
      (log (EvPrintRetMsg MFX_ERR_MEMORY_ALLOC)
         (set_nIndex MFX_ERR_NOT_FOUND
            (set_world (set_w_pool (tl (w_pool (world s))) (world s)) s0))).
Proof.
  unfold next_scan. intros Hp.
  run_driver; bools; codes; try lia; try congruence.
Qed.

(** A scan of the second pool that finds nothing. *)
Lemma vpp_pool_empty s idx :
  next_scan (nSurfNumVPPEnc cfg) (w_pool2 (world s)) = MFX_ERR_NOT_FOUND ->
  vpp_and_encode cfg idx s =
    Return MFX_ERR_MEMORY_ALLOC
      (log (EvPrintRetMsg MFX_ERR_MEMORY_ALLOC)
         (set_world (set_w_pool2 (tl (w_pool2 (world s))) (world s)) s)).
Proof.
  unfold next_scan. intros Hp.
  unfold vpp_and_encode, bind, find_pSurfaces2, MSDK_CHECK_ERROR, modify, return_.
  simpl. rewrite Hp. reflexivity.
Qed.

Lemma stage3_pool_empty s idx :
  next_scan (nSurfNumVPPEnc cfg) (w_pool2 (world s)) = MFX_ERR_NOT_FOUND ->
  stage3_work cfg idx s =
    Return MFX_ERR_MEMORY_ALLOC
      (log (EvPrintRetMsg MFX_ERR_MEMORY_ALLOC)
         (set_world (set_w_pool2 (tl (w_pool2 (world s))) (world s)) s)).
Proof.
  unfold next_scan. intros Hp.
  unfold stage3_work, bind, find_pSurfaces2, MSDK_CHECK_ERROR, modify, return_.
  simpl. rewrite Hp. reflexivity.
Qed.

End Local.

Lemma first_unlocked_none l i :
  first_unlocked i l = None <-> Forall (fun x => Locked x <> 0) l.
Proof.
  revert i. induction l as [|x l IH]; intros i; simpl.
  - split; [constructor | done].
  - destruct (Z.eqb_spec (Locked x) 0) as [H|H].
    + split; [done|]. intros HF. by inversion HF.
    + rewrite IH. split; [by constructor | intros HF; by inversion HF].
Qed.

Lemma scan_not_found pool n :
  GetFreeSurfaceIndex pool n = MFX_ERR_NOT_FOUND <->
  Forall (fun x => Locked x <> 0) (take n pool).
Proof.
  unfold GetFreeSurfaceIndex. rewrite <- (first_unlocked_none _ 0%nat).
  destruct (first_unlocked 0 (take n pool)); [|done].
  unfold MFX_ERR_NOT_FOUND. split; [lia | done].
Qed.
(** ** The retry loops, answer by answer *)

(** An answer that is not a warning comes back after one call. *)
Lemma vpp_loop_final b i r rs s :
  r_sts r <= MFX_ERR_NONE ->
  vpp_loop b i (r :: rs) s =
    set_sts (r_sts r) (log (EvVPP b i r) (set_world (set_w_vpp rs (world s)) s)).
Proof.
  intros Hr. simpl.
  destruct (Z.ltb_spec MFX_ERR_NONE (r_sts r)); [lia | done].
Qed.

(** A warning with output comes back after one call, as [MFX_ERR_NONE]. *)
Lemma vpp_loop_output b i r rs s :
  MFX_ERR_NONE < r_sts r -> is_set (r_syncp r) = true ->
  vpp_loop b i (r :: rs) s =
    set_sts MFX_ERR_NONE
      (set_sts (r_sts r) (log (EvVPP b i r) (set_world (set_w_vpp rs (world s)) s))).
Proof.
  intros Hr Ht. simpl. rewrite Ht.
  destruct (Z.ltb_spec MFX_ERR_NONE (r_sts r)); [done | lia].
Qed.

(** A warning without output repeats the call. *)
Lemma vpp_loop_again b i r rs s :
  MFX_ERR_NONE < r_sts r -> is_set (r_syncp r) = false ->
  vpp_loop b i (r :: rs) s =
    vpp_loop b i rs
      (let s1 := set_sts (r_sts r)
                   (log (EvVPP b i r) (set_world (set_w_vpp rs (world s)) s)) in
       if MFX_WRN_DEVICE_BUSY =? r_sts r then log (EvSleep 1) s1 else s1).
Proof.
  intros Hr Ht. simpl. rewrite Ht.
  destruct (Z.ltb_spec MFX_ERR_NONE (r_sts r)); [done | lia].
Qed.

Lemma busy_rounds_S call n :
  busy_rounds call (S n) = EvSleep 1 :: call :: busy_rounds call n.
Proof. reflexivity. Qed.

Lemma busy_rounds_snoc call n :
  busy_rounds call (S n) = busy_rounds call n ++ [EvSleep 1; call].
Proof.
  induction n as [|n IH]; [done|].
  rewrite busy_rounds_S, IH at 1. by rewrite busy_rounds_S.
Qed.

(** [n] Busy answers: [n] calls, a sleep after each, and the loop goes on with
    the rest of the script. *)
Lemma vpp_loop_busy b i n rs s :
  exists s1,
    vpp_loop b i (replicate n busy ++ rs) s = vpp_loop b i rs s1 /\
    trace s1 = busy_rounds (EvVPP b i busy) n ++ trace s /\
    world s1 = (if n is O then world s else set_w_vpp rs (world s)) /\
    pTasks s1 = pTasks s /\ sink s1 = sink s /\ stage s1 = stage s /\
    nFirstSyncTask s1 = nFirstSyncTask s /\ nFrame s1 = nFrame s /\
    nIndex s1 = nIndex s.
Proof.
  revert s. induction n as [|n IH]; intros s.
  - exists s. by repeat split.
  - change (replicate (S n) busy ++ rs) with (busy :: (replicate n busy ++ rs)).
    rewrite vpp_loop_again by done.
    cbv zeta. change (MFX_WRN_DEVICE_BUSY =? r_sts busy) with true. cbv iota.
    destruct (IH (log (EvSleep 1) (set_sts (r_sts busy) (log (EvVPP b i busy)
                (set_world (set_w_vpp (replicate n busy ++ rs) (world s)) s)))))
      as (s1 & -> & Ht & Hw & Hrest).
    exists s1. split; [done|]. split.
    { rewrite Ht, busy_rounds_snoc, <- app_assoc. done. }
    split; [|exact Hrest].
    rewrite Hw. destruct n; simpl; [done|]. by destruct (world s).
Qed.

Lemma enc_loop_final surface i r rs s :
  e_sts r <= MFX_ERR_NONE ->
  enc_loop surface i (r :: rs) s =
    set_sts (e_sts r)
      (set_pTasks (<[i := MkTask (e_bs r) (e_syncp r)]> (pTasks s))
         (log (EvEncode surface i r) (set_world (set_w_enc rs (world s)) s))).
Proof.
  intros Hr. simpl.
  destruct (Z.ltb_spec MFX_ERR_NONE (e_sts r)); [lia|]. simpl.
  by destruct (MFX_ERR_NOT_ENOUGH_BUFFER =? e_sts r).
Qed.

Lemma enc_loop_output surface i r rs s :
  MFX_ERR_NONE < e_sts r -> is_set (e_syncp r) = true ->
  enc_loop surface i (r :: rs) s =
    set_sts MFX_ERR_NONE
      (set_pTasks (<[i := MkTask (e_bs r) (e_syncp r)]> (pTasks s))
         (log (EvEncode surface i r) (set_world (set_w_enc rs (world s)) s))).
Proof.
  intros Hr Ht. simpl. rewrite Ht.
  destruct (Z.ltb_spec MFX_ERR_NONE (e_sts r)); [done | lia].
Qed.

Lemma enc_loop_again surface i r rs s :
  MFX_ERR_NONE < e_sts r -> is_set (e_syncp r) = false ->
  enc_loop surface i (r :: rs) s =
    enc_loop surface i rs
      (let s1 := set_sts (e_sts r)
                   (set_pTasks (<[i := MkTask (e_bs r) (e_syncp r)]> (pTasks s))
                      (log (EvEncode surface i r)
                         (set_world (set_w_enc rs (world s)) s))) in
       if MFX_WRN_DEVICE_BUSY =? e_sts r then log (EvSleep 1) s1 else s1).
Proof.
  intros Hr Ht. simpl. rewrite Ht.
  destruct (Z.ltb_spec MFX_ERR_NONE (e_sts r)); [done | lia].
Qed.

Lemma busy_encodes_snoc surface i l r :
  busy_encodes surface i (l ++ [r]) =
    EvSleep 1 :: EvEncode surface i r :: busy_encodes surface i l.
Proof. unfold busy_encodes. by rewrite rev_unit. Qed.

Lemma busy_encodes_cons surface i l r :
  busy_encodes surface i (r :: l) =
    busy_encodes surface i l ++ [EvSleep 1; EvEncode surface i r].
Proof. unfold busy_encodes. simpl. by rewrite flat_map_app; simpl. Qed.

(** Busy answers of the encoder: a call and a sleep for each; the slot holds
    what the last call stored, without a token; the sink is untouched. *)
Lemma enc_loop_busy surface i l rs s :
  Forall is_busy l ->
  exists s1,
    enc_loop surface i (l ++ rs) s = enc_loop surface i rs s1 /\
    trace s1 = busy_encodes surface i l ++ trace s /\
    pTasks s1 = match last l with
                | Some r => <[i := MkTask (e_bs r) None]> (pTasks s)
                | None => pTasks s
                end /\
    sink s1 = sink s /\ stage s1 = stage s /\
    nFirstSyncTask s1 = nFirstSyncTask s /\ nFrame s1 = nFrame s.
Proof.
  intros Hl. revert s. induction Hl as [|r l [Hr Ht] Hl IH]; intros s.
  - exists s. by repeat split.
  - change ((r :: l) ++ rs) with (r :: (l ++ rs)).
    rewrite enc_loop_again by (rewrite ?Hr, ?Ht; done).
    cbv zeta. rewrite Hr. change (MFX_WRN_DEVICE_BUSY =? MFX_WRN_DEVICE_BUSY) with true.
    cbv iota.
    match goal with |- context [enc_loop _ _ (l ++ rs) ?s0] =>
      destruct (IH s0) as (s1 & -> & Htr & Hp & Hrest)
    end.
    exists s1. split; [done|]. split.
    { rewrite Htr, busy_encodes_cons, <- app_assoc. done. }
    split; [|exact Hrest].
    rewrite Hp. simpl. rewrite Ht.
    destruct l as [|r' l']; [done|].
    change (last (r :: r' :: l')) with (last (r' :: l')).
    destruct (last (r' :: l')) eqn:E; [|by apply last_None in E].
    by rewrite list_insert_insert_eq.
Qed.

(** ** Only error codes leave [main] *)

Section Graceful.
Context (cfg : config).

Lemma stage1_graceful s idx : graceful (stage1_work cfg idx s).
Proof. unfold graceful. run_driver; bools; codes; try lia; trivial. Qed.
Lemma stage2_graceful s idx : graceful (stage2_work cfg idx s).
Proof. unfold graceful. run_driver; bools; codes; try lia; trivial. Qed.
Lemma stage3_graceful s idx : graceful (stage3_work cfg idx s).
Proof. unfold graceful. run_driver; bools; codes; try lia; trivial. Qed.
Lemma stage4_graceful s idx : graceful (stage4_work idx s).
Proof. unfold graceful. run_driver; bools; codes; try lia; trivial. Qed.
Lemma flush_graceful s : graceful (flush_oldest cfg s).
Proof. unfold graceful. run_driver; bools; codes; try lia; trivial. Qed.

Lemma leave_graceful next s rc :
  stage (leave_stage next s) = Aborted rc -> next = Aborted rc \/ rc < MFX_ERR_NONE.
Proof.
  unfold leave_stage, MSDK_CHECK_RESULT, MSDK_IGNORE_MFX_STS, bind, modify, return_.
  simpl. repeat (split_if; simpl); bools; codes;
    intros H; first [by left | injection H as <-; right; lia].
Qed.

Global Instance same_stage_preorder : PreOrder same_stage.
Proof. split; unfold same_stage; [done | intros ???; congruence]. Qed.

Lemma same_stage_neutral s s' : neutral s s' -> same_stage s s'.
Proof. intros (?&?&?&?&?&?). done. Qed.

Lemma same_stage_enc surf i rs s : same_stage s (enc_loop surf i rs s).
Proof.
  revert s. induction rs as [|r rs IH]; intros s; simpl.
  { done. }
  repeat case_match; try done; (etrans; [|apply IH]); done.
Qed.

Lemma same_stage_flush : respects same_stage (flush_oldest cfg).
Proof. intros s. unfold same_stage. run_driver; done. Qed.

Lemma same_stage_body body :
  body = stage1_body cfg \/ body = stage2_body cfg \/ body = stage3_body cfg \/
  body = stage4_body cfg \/ body = flush_oldest cfg ->
  respects same_stage body.
Proof.
  assert (He : forall surf i, respects same_stage (EncodeFrameAsync_loop surf i)).
  { intros surf i s. apply same_stage_enc. }
  pose proof same_stage_neutral. pose proof same_stage_flush.
  intros [->|[->|[->|[->| ->]]]];
    [apply respects_stage1 | apply respects_stage2 | apply respects_stage3
    | apply respects_stage4 | ]; auto; typeclasses eauto.
Qed.

Lemma body_graceful s :
  graceful (stage1_body cfg s) /\ graceful (stage2_body cfg s) /\
  graceful (stage3_body cfg s) /\ graceful (stage4_body cfg s).
Proof.
  unfold stage1_body, stage2_body, stage3_body, stage4_body, bind, gets.
  destruct (_ =? _);
    auto using stage1_graceful, stage2_graceful, stage3_graceful,
      stage4_graceful, flush_graceful.
Qed.

Lemma iteration_graceful c body next s rc :
  respects same_stage body -> graceful (body s) ->
  stage (iteration c body (leave_stage next) s) = Aborted rc ->
  stage s = Aborted rc \/ next = Aborted rc \/ rc < MFX_ERR_NONE.
Proof.
  intros Hb Hg. unfold iteration, settle. specialize (Hb s). unfold same_stage in Hb.
  destruct c.
  - destruct (body s) as [[] s'|s'|s'|rc' s']; simpl in *.
    + intros H. left. congruence.
    + intros H. left. congruence.
    + intros H. right. by apply leave_graceful in H.
    + intros [= <-]. auto.
  - intros H. right. by apply leave_graceful in H.
Qed.

(** Whatever code the program aborts with is negative. *)
Lemma abort_negative s rc :
  stage (tick cfg s) = Aborted rc -> stage s = Aborted rc \/ rc < MFX_ERR_NONE.
Proof.
  destruct (body_graceful s) as (G1 & G2 & G3 & G4).
  unfold tick. destruct (stage s) eqn:Hs; try (intros H; left; congruence).
  1-4: intros H; apply iteration_graceful in H;
    [ destruct H as [H|[H|H]]; [congruence | done | by right]
    | apply same_stage_body; tauto | assumption ].
  unfold iteration, settle. pose proof (same_stage_flush s) as Hf.
  pose proof (flush_graceful s) as Hg. unfold same_stage in Hf.
  destruct (stage5_cond s); [|done].
  destruct (flush_oldest cfg s) as [[] s'|s'|s'|rc' s']; simpl in *;
    try (intros H; congruence).
  intros [= <-]. by right.
Qed.

End Graceful.

(** ** A decoder that is busy *)

Section DecodeBusy.
Context (cfg : config).

Lemma stage1_decode_busy s idx :
  sts s = MFX_WRN_DEVICE_BUSY \/
  (sts s = MFX_ERR_NONE /\
   next_scan (nSurfNumDecVPP cfg) (w_pool (world s)) <> MFX_ERR_NOT_FOUND) ->
  hd exhausted (w_dec (world s)) = busy ->
  exists s',
    stage1_work cfg idx s = Val tt s' /\
    sts s' = MFX_WRN_DEVICE_BUSY /\ stage s' = stage s /\
    pTasks s' = pTasks s /\ sink s' = sink s /\
    nFirstSyncTask s' = nFirstSyncTask s /\
    w_dec (world s') = tl (w_dec (world s)) /\
    (sts s = MFX_WRN_DEVICE_BUSY -> nIndex s' = nIndex s) /\
    trace s' = EvDecode false (nIndex s') busy
                 :: (if MFX_WRN_DEVICE_BUSY =? sts s then [EvSleep 1] else [])
                 ++ trace s.
Proof.
  unfold next_scan. intros Hs Hd.
  run_driver; try rewrite Hd in *; cbn [r_sts r_syncp busy is_set] in *;
    bools; codes; try lia; try congruence.
  all: eexists; split; [reflexivity|]; norm; repeat split; auto; try lia.
  all: repeat match goal with
       | |- context [?a =? ?b] => destruct (Z.eqb_spec a b); try lia
       end; done.
Qed.

Lemma stage2_decode_busy s idx :
  next_scan (nSurfNumDecVPP cfg) (w_pool (world s)) <> MFX_ERR_NOT_FOUND ->
  hd exhausted (w_dec (world s)) = busy ->
  exists s',
    stage2_work cfg idx s = Val tt s' /\
    sts s' = MFX_WRN_DEVICE_BUSY /\ stage s' = stage s /\
    pTasks s' = pTasks s /\ sink s' = sink s /\
    nFirstSyncTask s' = nFirstSyncTask s /\
    w_dec (world s') = tl (w_dec (world s)) /\
    nIndex s' = next_scan (nSurfNumDecVPP cfg) (w_pool (world s)) /\
    trace s' = EvDecode true (nIndex s') busy
                 :: (if MFX_WRN_DEVICE_BUSY =? sts s then [EvSleep 1] else [])
                 ++ trace s.
Proof.
  unfold next_scan. intros Hs Hd.
  run_driver; try rewrite Hd in *; cbn [r_sts r_syncp busy is_set] in *;
    bools; codes; try lia; try congruence.
  all: eexists; split; [reflexivity|]; norm; repeat split; auto; try lia.
  all: repeat match goal with
       | |- context [?a =? ?b] => destruct (Z.eqb_spec a b); try lia
       end; done.
Qed.

End DecodeBusy.

(** ** NeedMoreOutput *)

Section MoreSurface.
Context (cfg : config).

Lemma vpp_loop_more_surface b i s :
  r_sts (hd exhausted (w_vpp (world s))) = MFX_ERR_MORE_SURFACE ->
  vpp_loop b i (w_vpp (world s)) s =
    set_sts MFX_ERR_MORE_SURFACE
      (log (EvVPP b i (hd exhausted (w_vpp (world s))))
         (set_world (set_w_vpp (tl (w_vpp (world s))) (world s)) s)).
Proof.
  destruct (w_vpp (world s)) as [|r rs]; [done|]. simpl hd. simpl tl. intros Hr.
  rewrite vpp_loop_final by (rewrite Hr; done). by rewrite Hr.
Qed.

Lemma leave_more_surface next s :
  sts s = MFX_ERR_MORE_SURFACE ->
  leave_stage next s =
    set_stage (Aborted MFX_ERR_MORE_SURFACE)
      (log (EvPrintRetMsg MFX_ERR_MORE_SURFACE) (set_sts MFX_ERR_MORE_SURFACE s)).
Proof.
  intros Hs. unfold leave_stage, MSDK_CHECK_RESULT, MSDK_IGNORE_MFX_STS, bind,
    modify, return_. simpl. rewrite Hs. reflexivity.
Qed.

Lemma vpp_more_surface s idx :
  next_scan (nSurfNumVPPEnc cfg) (w_pool2 (world s)) <> MFX_ERR_NOT_FOUND ->
  r_sts (hd exhausted (w_vpp (world s))) = MFX_ERR_MORE_SURFACE ->
  vpp_and_encode cfg idx s =
    Break (set_sts MFX_ERR_MORE_SURFACE
             (log (EvVPP false (next_scan (nSurfNumVPPEnc cfg) (w_pool2 (world s)))
                     (hd exhausted (w_vpp (world s))))
                (set_world (set_w_vpp (tl (w_vpp (world s)))
                              (set_w_pool2 (tl (w_pool2 (world s))) (world s))) s))).
Proof.
  unfold next_scan. intros Hp Hr.
  unfold vpp_and_encode, bind, find_pSurfaces2, MSDK_CHECK_ERROR,
    RunFrameVPPAsync_loop, gets, break_, modify, return_, ret.
  simpl. destruct (Z.eqb_spec (GetFreeSurfaceIndex
    (hd (replicate (nSurfNumVPPEnc cfg) (MkSurface 0)) (w_pool2 (world s)))
    (nSurfNumVPPEnc cfg)) MFX_ERR_NOT_FOUND) as [|_]; [done|].
  match goal with |- context [vpp_loop ?b ?i _ ?s0] =>
    pose proof (vpp_loop_more_surface b i s0) as Hv end.
  simpl in Hv. norm. rewrite Hv by done. norm.
  change (MFX_ERR_MORE_DATA =? MFX_ERR_MORE_SURFACE) with false.
  change (MFX_ERR_MORE_SURFACE =? MFX_ERR_MORE_SURFACE) with true. cbv iota.
  by destruct (world s).
Qed.

Lemma stage3_more_surface s idx :
  next_scan (nSurfNumVPPEnc cfg) (w_pool2 (world s)) <> MFX_ERR_NOT_FOUND ->
  r_sts (hd exhausted (w_vpp (world s))) = MFX_ERR_MORE_SURFACE ->
  stage3_work cfg idx s =
    Break (set_sts MFX_ERR_MORE_SURFACE
             (log (EvVPP true (next_scan (nSurfNumVPPEnc cfg) (w_pool2 (world s)))
                     (hd exhausted (w_vpp (world s))))
                (set_world (set_w_vpp (tl (w_vpp (world s)))
                              (set_w_pool2 (tl (w_pool2 (world s))) (world s))) s))).
Proof.
  unfold next_scan. intros Hp Hr.
  unfold stage3_work, bind, find_pSurfaces2, MSDK_CHECK_ERROR,
    RunFrameVPPAsync_loop, gets, break_, modify, return_, ret.
  simpl. destruct (Z.eqb_spec (GetFreeSurfaceIndex
    (hd (replicate (nSurfNumVPPEnc cfg) (MkSurface 0)) (w_pool2 (world s)))
    (nSurfNumVPPEnc cfg)) MFX_ERR_NOT_FOUND) as [|_]; [done|].
  match goal with |- context [vpp_loop ?b ?i _ ?s0] =>
    pose proof (vpp_loop_more_surface b i s0) as Hv end.
  simpl in Hv. norm. rewrite Hv by done. norm.
  change (MFX_ERR_MORE_SURFACE =? MFX_ERR_MORE_SURFACE) with true. cbv iota.
  by destruct (world s).
Qed.

End MoreSurface.

(** ** The turn that waits *)

Section Wait.
Context (cfg : config).

Lemma leave_trace next s :
  exists evs, trace (leave_stage next s) = evs ++ trace s /\ Forall silent evs.
Proof.
  unfold leave_stage, MSDK_CHECK_RESULT, bind, modify, return_. simpl.
  destruct (_ >? _); simpl.
  - exists [EvPrintRetMsg (MSDK_IGNORE_MFX_STS (sts s) MFX_ERR_MORE_DATA)].
    split; [done | by repeat constructor].
  - by exists [].
Qed.

Lemma leave_stage_stage next s :
  stage (leave_stage next s) = next \/
  exists rc, stage (leave_stage next s) = Aborted rc.
Proof.
  unfold leave_stage, MSDK_CHECK_RESULT, bind, modify, return_. simpl.
  destruct (_ >? _); simpl; eauto.
Qed.

Lemma flush_trace s :
  let f := nFirstSyncTask s in
  exists evs,
    trace (exits (flush_oldest cfg s)) =
      evs ++ EvSync f (syncp (task_at (pTasks s) f)) 60000
               (hd MFX_ERR_NONE (w_sync (world s))) :: trace s /\
    issued evs = [].
Proof.
  run_driver; eexists [_]; split; reflexivity.
Qed.

(** A wait that comes back with a warning is taken for a success: the bit
    stream is written. *)
Lemma flush_after_warning s :
  MFX_ERR_NONE <= hd MFX_ERR_NONE (w_sync (world s)) ->
  let f := nFirstSyncTask s in
  trace (exits (flush_oldest cfg s)) =
    EvWrite f (payload (mfxBS (task_at (pTasks s) f)))
      (hd MFX_ERR_NONE (w_write (world s)))
    :: EvSync f (syncp (task_at (pTasks s) f)) 60000
         (hd MFX_ERR_NONE (w_sync (world s))) :: trace s.
Proof.
  intros Hr. run_driver; bools; codes; try lia; reflexivity.
Qed.

(** A wait that does not fail, and a write that reports [MFX_ERR_NONE]: the
    task is written and recycled, whatever warning the wait came back
    with. *)
Lemma flush_written s :
  MFX_ERR_NONE <= hd MFX_ERR_NONE (w_sync (world s)) ->
  hd MFX_ERR_NONE (w_write (world s)) = MFX_ERR_NONE ->
  let f := nFirstSyncTask s in
  let t := task_at (pTasks s) f in
  exists s1,
    flush_oldest cfg s = Val tt s1 /\ stage s1 = stage s /\
    trace s1 = EvWrite f (payload (mfxBS t)) MFX_ERR_NONE
                 :: EvSync f (syncp t) 60000 (hd MFX_ERR_NONE (w_sync (world s)))
                 :: trace s /\
    sink s1 = sink s ++ [payload (mfxBS t)] /\
    pTasks s1 = alter recycle f (pTasks s) /\
    nFrame s1 = (nFrame s + 1) mod 2 ^ 32 /\
    sts s1 = MFX_ERR_NONE.
Proof.
  intros Hr Hw. run_driver; bools; codes; try lia; try congruence.
  eexists. split; [reflexivity|]. norm. rewrite Hw. by repeat split.
Qed.

Lemma settle_trace after c :
  (forall s0, exists evs, trace (after s0) = evs ++ trace s0 /\ Forall silent evs) ->
  exists evs, trace (settle after c) = evs ++ trace (exits c) /\ Forall silent evs.
Proof.
  intros Ha. destruct c as [[] s'|s'|s'|rc s']; simpl; auto; by exists [].
Qed.

(** The turn that waits starts with the wait on the head task and issues no
    encode operation. *)
Lemma wait_trace s :
  about_to_wait cfg s = true ->
  let f := nFirstSyncTask s in
  exists evs,
    trace (tick cfg s) =
      evs ++ EvSync f (syncp (task_at (pTasks s) f)) 60000
               (hd MFX_ERR_NONE (w_sync (world s))) :: trace s /\
    issued evs = [].
Proof.
  intros Hw f. destruct (tick_waits cfg s Hw) as (after & -> & Hafter).
  assert (Ha : forall s0, exists evs, trace (after s0) = evs ++ trace s0 /\ Forall silent evs).
  { destruct Hafter as [(next & -> & _)| ->]; [apply leave_trace|].
    intros s0. by exists []. }
  destruct (settle_trace after (flush_oldest cfg s) Ha) as (e2 & -> & He2).
  destruct (flush_trace s) as (e1 & -> & He1).
  exists (e2 ++ e1). split; [by rewrite app_assoc|].
  rewrite issued_app, He1. apply issued_idle.
  eapply Forall_impl; [exact He2 | apply silent_idle].
Qed.

End Wait.

(** ** What the queue gives *)

Section Queue.
Context (cfg : config).
Local Abbreviation N := (taskPoolSize cfg) (only parsing).

Lemma pending_length l f k : length (pending N l f k) = k.
Proof. unfold pending. by rewrite length_map, length_seq. Qed.

Lemma fifo_count s k : fifo cfg s k ->
  length (issued (trace s)) = (length (sink s) + k)%nat.
Proof. intros HF. by rewrite <- (fifo_order _ _ _ HF), length_app, pending_length. Qed.

Lemma fifo_prefix s k : fifo cfg s k ->
  sink s = take (length (sink s)) (issued (trace s)).
Proof. intros HF. by rewrite <- (fifo_order _ _ _ HF), take_app_length. Qed.

Lemma fifo_oldest s k : fifo cfg s k -> (0 < k)%nat ->
  issued (trace s) !! length (sink s) =
    Some (payload (mfxBS (task_at (pTasks s) (nFirstSyncTask s)))).
Proof.
  intros HF Hk. rewrite <- (fifo_order _ _ _ HF).
  rewrite lookup_app_r by lia. rewrite Nat.sub_diag.
  destruct k as [|k]; [lia|]. unfold pending. simpl.
  rewrite ring_0; [done | apply HF].
Qed.

Lemma fifo_head_set s k : (0 < N)%nat -> fifo cfg s k ->
  is_set (syncp (task_at (pTasks s) (nFirstSyncTask s))) = bool_decide (0 < k)%nat.
Proof.
  intros HN HF. rewrite <- (fifo_occ _ _ _ HF 0%nat HN).
  rewrite ring_0; [done | apply HF].
Qed.

Lemma fifo_drained s k : (0 < N)%nat -> fifo cfg s k ->
  stage5_cond s = false -> sink s = issued (trace s).
Proof.
  intros HN HF Hc. unfold stage5_cond in Hc.
  rewrite (fifo_head_set s k HN HF) in Hc. apply bool_decide_eq_false in Hc.
  assert (k = 0%nat) as -> by lia.
  rewrite <- (fifo_order _ _ _ HF). unfold pending. simpl. by rewrite app_nil_r.
Qed.

Lemma wait_head_set s k : (0 < N)%nat -> fifo cfg s k ->
  about_to_wait cfg s = true -> (0 < k)%nat.
Proof.
  intros HN HF Hw.
  assert (Hcase : GetFreeTaskIndex (pTasks s) N = MFX_ERR_NOT_FOUND \/
                  stage5_cond s = true).
  { unfold about_to_wait, loop_cond in Hw.
    destruct (stage s); try done; [..|by right];
      apply andb_true_iff in Hw as [_ Hw]; apply Z.eqb_eq in Hw; by left. }
  destruct Hcase as [Hg|Hc].
  - rewrite (fifo_full cfg s k HF Hg). done.
  - unfold stage5_cond in Hc. rewrite (fifo_head_set s k HN HF) in Hc.
    by apply bool_decide_eq_true in Hc.
Qed.

(** The turn that waits either leaves the loop or recycles the head task. *)
Lemma wait_outcome s :
  about_to_wait cfg s = true ->
  let f := nFirstSyncTask s in
  stage (tick cfg s) <> stage s \/
  (pTasks (tick cfg s) = alter recycle f (pTasks s) /\
   sink (tick cfg s) = sink s ++ [payload (mfxBS (task_at (pTasks s) f))] /\
   nFirstSyncTask (tick cfg s) = ((f + 1) mod N)%nat).
Proof.
  intros Hw f. destruct (tick_waits cfg s Hw) as (after & -> & Hafter).
  pose proof (flush_cases cfg s) as H. simpl in H.
  assert (Hlive : forall rc, stage s <> Aborted rc /\ stage s <> Done).
  { intros rc. unfold about_to_wait in Hw. by destruct (stage s). }
  destruct (flush_oldest cfg s) as [[] s'|s'|s'|rc s']; simpl.
  - right. tauto.
  - done.
  - left. destruct H as (_&_&_&_&Hst).
    destruct Hafter as [(next & -> & Hn)| ->].
    + destruct (leave_stage_stage next s') as [->|[rc ->]]; [done|].
      intros E. destruct (Hlive rc); congruence.
    + simpl. intros E. destruct (Hlive 0); congruence.
  - left. intros E. destruct (Hlive rc); congruence.
Qed.

Lemma recycled_is_free l f : (f < N)%nat -> length l = N ->
  GetFreeTaskIndex (alter recycle f l) N <> MFX_ERR_NOT_FOUND.
Proof.
  intros Hf Hl.
  destruct (GetFreeTaskIndex_spec (alter recycle f l) N) as [(i & -> & _)|[_ Hall]].
  - by rewrite length_alter.
  - unfold MFX_ERR_NOT_FOUND. lia.
  - specialize (Hall f Hf). rewrite task_at_alter in Hall by lia.
    by rewrite decide_True in Hall.
Qed.

End Queue.

(** ** A task, from the calls that wrote it *)



Section Replay.
Context (cfg : config).




End Replay.

(** ** The order of the phases *)

Lemma climb_mono (f : nat -> nat) :
  (forall n, f n <= f (S n))%nat -> forall m n, (m <= n)%nat -> (f m <= f n)%nat.
Proof.
  intros Hf m n Hmn. induction Hmn as [|n _ IH]; [done|].
  etrans; [exact IH | apply Hf].
Qed.

Lemma level (f : nat -> nat) (B k : nat) :
  (forall n, f n <= f (S n) <= S (f n))%nat -> (f 0 < k)%nat -> (k <= f B)%nat ->
  exists n, (0 < n <= B)%nat /\ (f (n - 1) = k - 1)%nat /\
    forall m, (f m < k)%nat <-> (m < n)%nat.
Proof.
  intros Hf H0 HB.
  assert (Hmono : forall n, (f n <= f (S n))%nat) by (intros n; apply Hf).
  destruct (first_reach f B k Hmono H0 HB) as (n & Hn & Hk & Hlt).
  exists n. split; [done|]. split.
  - pose proof (Hlt (n - 1)%nat ltac:(lia)).
    pose proof (Hf (n - 1)%nat) as Hs. replace (S (n - 1)) with n in Hs by lia. lia.
  - intros m. split; [|apply Hlt]. intros Hm.
    destruct (decide (m < n)%nat) as [|Hge]; [done|].
    pose proof (climb_mono f Hmono n m ltac:(lia)). lia.
Qed.

Lemma position_phase p q : (position p <= 6)%nat -> position p = position q -> p = q.
Proof. destruct p, q; simpl; try done; lia. Qed.

(** *** The phases, for every run *)

Section Steps.
Context (cfg : config).

Lemma iteration_stage c body next s :
  respects same_stage body -> graceful (body s) ->
  let s' := iteration c body (leave_stage next) s in
  stage s' = stage s \/ stage s' = next \/
  exists rc, rc < MFX_ERR_NONE /\ stage s' = Aborted rc.
Proof.
  intros Hb Hg s'. subst s'. unfold iteration, settle.
  assert (Hl : forall s0, stage (leave_stage next s0) = next \/
                exists rc, rc < MFX_ERR_NONE /\ stage (leave_stage next s0) = Aborted rc).
  { intros s0. destruct (leave_stage_stage next s0) as [H|[rc H]]; [by left|].
    destruct (leave_graceful next s0 rc H) as [->|Hrc].
    - by left.
    - right. by exists rc. }
  specialize (Hb s). unfold same_stage in Hb.
  destruct c; [|right; apply Hl].
  destruct (body s) as [[] s1|s1|s1|rc s1]; simpl in *; auto.
  right. right. by exists rc.
Qed.

(** A turn leaves the phase as it is, moves to the next one, or aborts. *)
Lemma tick_stage s :
  stage (tick cfg s) = stage s \/ stage (tick cfg s) = next_phase (stage s) \/
  exists rc, rc < MFX_ERR_NONE /\ stage (tick cfg s) = Aborted rc.
Proof.
  destruct (body_graceful cfg s) as (G1 & G2 & G3 & G4).
  unfold tick. destruct (stage s) eqn:Hs; try (by left).
  1-4: match goal with |- context [iteration ?c ?b (leave_stage ?n) ?s0] =>
         destruct (iteration_stage c b n s0) as [H|[H|H]];
           [apply (same_stage_body cfg); tauto | assumption
           | left; congruence | right; left; exact H | right; right; exact H]
       end.
  unfold iteration, settle. pose proof (same_stage_flush cfg s) as Hf.
  pose proof (flush_graceful cfg s) as Hg. unfold same_stage in Hf.
  destruct (stage5_cond s); [|by right; left].
  destruct (flush_oldest cfg s) as [[] s'|s'|s'|rc' s']; simpl in *.
  - left. congruence.
  - left. congruence.
  - by right; left.
  - right. right. by exists rc'.
Qed.

Lemma position_next p : (position p <= position (next_phase p))%nat.
Proof. destruct p; simpl; lia. Qed.

Lemma tick_position s :
  (position (stage s) <= position (stage (tick cfg s)))%nat.
Proof.
  destruct (tick_stage s) as [->|[->|(rc & _ & Hrc)]];
    [done | apply position_next |].
  destruct (stage s) eqn:Hs; try (rewrite Hrc; simpl; lia);
    rewrite tick_final by (by rewrite Hs); by rewrite Hs.
Qed.

Lemma run_position n m s : (n <= m)%nat ->
  (position (stage (run cfg n s)) <= position (stage (run cfg m s)))%nat.
Proof.
  intros Hnm. induction Hnm as [|m _ IH]; [done|].
  etrans; [exact IH|]. apply tick_position.
Qed.

End Steps.

Section Phases.
Context (cfg : config).

Lemma run_abort_negative n s rc :
  stage (run cfg n s) = Aborted rc -> stage s = Aborted rc \/ rc < MFX_ERR_NONE.
Proof.
  induction n as [|n IH]; [by left|]. intros H.
  apply abort_negative in H as [H|H]; [by apply IH | by right].
Qed.

(** A run that is never aborted goes up the phases one by one. *)
Lemma phases_of_run w :
  (0 < taskPoolSize cfg)%nat ->
  (forall n rc, stage (run cfg n (init cfg w)) <> Aborted rc) ->
  exists n1 n2 n3 n4 n5,
    (0 < n1 < n2)%nat /\ (n2 < n3 < n4)%nat /\
    (n4 < n5 <= potential (init cfg w))%nat /\
    forall n, stage (run cfg n (init cfg w)) = phase_at n1 n2 n3 n4 n5 n.
Proof.
  intros HN Hw.
  set (f := fun n => position (stage (run cfg n (init cfg w)))).
  set (B := potential (init cfg w)).
  assert (Hrange : forall n, (1 <= f n <= 6)%nat).
  { intros n. subst f. cbv beta. specialize (Hw n).
    destruct (stage (run cfg n (init cfg w))); simpl; try lia. by destruct (Hw rc). }
  assert (Hf : forall n, (f n <= f (S n) <= S (f n))%nat).
  { intros n. pose proof (Hrange n) as Hr. subst f. cbv beta in *.
    change (run cfg (S n) (init cfg w)) with (tick cfg (run cfg n (init cfg w))).
    destruct (tick_stage cfg (run cfg n (init cfg w))) as [E|[E|(rc & _ & E)]].
    - rewrite E. lia.
    - rewrite E. destruct (stage (run cfg n (init cfg w))); simpl in *; lia.
    - by destruct (Hw (S n) rc). }
  assert (H0 : f 0%nat = 1%nat) by done.
  assert (HB : f B = 6%nat).
  { pose proof (run_final cfg B (init cfg w) 0%nat HN (fifo_init cfg w HN)
                  (Nat.le_refl _)) as Hfin.
    pose proof (Hrange B) as Hr. subst f. simpl in *.
    destruct (stage (run cfg B (init cfg w))); simpl in *; try done; lia. }
  destruct (level f B 2 Hf ltac:(lia) ltac:(lia)) as (n1 & Hn1 & He1 & L1).
  destruct (level f B 3 Hf ltac:(lia) ltac:(lia)) as (n2 & Hn2 & He2 & L2).
  destruct (level f B 4 Hf ltac:(lia) ltac:(lia)) as (n3 & Hn3 & He3 & L3).
  destruct (level f B 5 Hf ltac:(lia) ltac:(lia)) as (n4 & Hn4 & He4 & L4).
  destruct (level f B 6 Hf ltac:(lia) ltac:(lia)) as (n5 & Hn5 & He5 & L5).
  exists n1, n2, n3, n4, n5.
  assert (n1 < n2)%nat.
  { apply L2. pose proof (Hf (n1 - 1)%nat) as Hs.
    replace (S (n1 - 1)) with n1 in Hs by lia. lia. }
  assert (n2 < n3)%nat.
  { apply L3. pose proof (Hf (n2 - 1)%nat) as Hs.
    replace (S (n2 - 1)) with n2 in Hs by lia. lia. }
  assert (n3 < n4)%nat.
  { apply L4. pose proof (Hf (n3 - 1)%nat) as Hs.
    replace (S (n3 - 1)) with n3 in Hs by lia. lia. }
  assert (n4 < n5)%nat.
  { apply L5. pose proof (Hf (n4 - 1)%nat) as Hs.
    replace (S (n4 - 1)) with n4 in Hs by lia. lia. }
  repeat split; try lia.
  intros n. apply position_phase; [apply Hrange|].
  change (position (stage (run cfg n (init cfg w)))) with (f n).
  pose proof (Hrange n). pose proof (L1 n). pose proof (L2 n). pose proof (L3 n).
  pose proof (L4 n). pose proof (L5 n).
  unfold phase_at.
  repeat match goal with
  | |- context [(?a <? ?b)%nat] => destruct (Nat.ltb_spec a b)
  end; simpl; lia.
Qed.

(** A run in which nothing fails is never aborted. *)
Lemma nominal_never_aborted w n rc :
  nominal cfg w -> stage (run cfg n (init cfg w)) <> Aborted rc.
Proof.
  intros Hw E. destruct (sound_run cfg w n Hw) as (_ & Hp & _).
  rewrite E in Hp. simpl in Hp. lia.
Qed.

Lemma nominal_phases w :
  (0 < taskPoolSize cfg)%nat -> nominal cfg w ->
  exists n1 n2 n3 n4 n5,
    (0 < n1 < n2)%nat /\ (n2 < n3 < n4)%nat /\
    (n4 < n5 <= potential (init cfg w))%nat /\
    forall n, stage (run cfg n (init cfg w)) = phase_at n1 n2 n3 n4 n5 n.
Proof.
  intros HN Hw. apply phases_of_run; [done|].
  intros n rc. by apply nominal_never_aborted.
Qed.

End Phases.



(** ** Turns that work on a free task *)

Section Turns.
Context (cfg : config).

Lemma stage1_turn s :
  stage s = Stage1 -> MFX_ERR_NONE <= sts s ->
  GetFreeTaskIndex (pTasks s) (taskPoolSize cfg) <> MFX_ERR_NOT_FOUND ->
  tick cfg s = settle (leave_stage Stage2)
                 (stage1_work cfg (GetFreeTaskIndex (pTasks s) (taskPoolSize cfg)) s).
Proof.
  intros Hs Hc Hg. unfold tick, iteration, stage1_cond, stage1_body, bind, gets.
  rewrite Hs. destruct (Z.leb_spec MFX_ERR_NONE (sts s)); [|lia]. simpl.
  by destruct (Z.eqb_spec MFX_ERR_NOT_FOUND (GetFreeTaskIndex (pTasks s) (taskPoolSize cfg))).
Qed.

Lemma stage2_turn s :
  stage s = Stage2 -> MFX_ERR_NONE <= sts s ->
  GetFreeTaskIndex (pTasks s) (taskPoolSize cfg) <> MFX_ERR_NOT_FOUND ->
  tick cfg s = settle (leave_stage Stage3)
                 (stage2_work cfg (GetFreeTaskIndex (pTasks s) (taskPoolSize cfg)) s).
Proof.
  intros Hs Hc Hg. unfold tick, iteration, stage2_cond, stage2_body, bind, gets.
  rewrite Hs. destruct (Z.leb_spec MFX_ERR_NONE (sts s)); [|lia]. simpl.
  by destruct (Z.eqb_spec MFX_ERR_NOT_FOUND (GetFreeTaskIndex (pTasks s) (taskPoolSize cfg))).
Qed.

Lemma stage3_turn s :
  stage s = Stage3 -> MFX_ERR_NONE <= sts s ->
  GetFreeTaskIndex (pTasks s) (taskPoolSize cfg) <> MFX_ERR_NOT_FOUND ->
  tick cfg s = settle (leave_stage Stage4)
                 (stage3_work cfg (GetFreeTaskIndex (pTasks s) (taskPoolSize cfg)) s).
Proof.
  intros Hs Hc Hg. unfold tick, iteration, stage3_cond, stage3_body, bind, gets.
  rewrite Hs. destruct (Z.leb_spec MFX_ERR_NONE (sts s)); [|lia]. simpl.
  by destruct (Z.eqb_spec MFX_ERR_NOT_FOUND (GetFreeTaskIndex (pTasks s) (taskPoolSize cfg))).
Qed.

Lemma busy_decodes_snoc i n :
  busy_decodes i (S n) = busy_decodes i n ++ [EvDecode false i busy; EvSleep 1].
Proof.
  unfold busy_decodes. generalize [EvDecode false i busy; EvSleep 1]. intros x.
  induction n as [|n IH]; [simpl; by rewrite app_nil_r|].
  change (concat (replicate (S (S n)) x)) with (x ++ concat (replicate (S n) x)).
  rewrite IH at 1. by rewrite app_assoc.
Qed.

(** [n] Busy answers of the decoder in stage 1: [n] turns, each a sleep and
    the same call again. *)
Lemma stage1_busy_run n : forall rs s,
  stage s = Stage1 -> sts s = MFX_WRN_DEVICE_BUSY ->
  GetFreeTaskIndex (pTasks s) (taskPoolSize cfg) <> MFX_ERR_NOT_FOUND ->
  w_dec (world s) = replicate n busy ++ rs ->
  let s' := run cfg n s in
  stage s' = Stage1 /\ sts s' = MFX_WRN_DEVICE_BUSY /\
  trace s' = busy_decodes (nIndex s) n ++ trace s /\
  w_dec (world s') = rs /\ pTasks s' = pTasks s /\ sink s' = sink s.
Proof.
  induction n as [|n IH]; intros rs s Hs Hsts Hg Hw; [by repeat split|].
  cbv zeta. rewrite run_tick.
  assert (Hd : hd exhausted (w_dec (world s)) = busy) by (by rewrite Hw).
  destruct (stage1_decode_busy cfg s (GetFreeTaskIndex (pTasks s) (taskPoolSize cfg))
              (or_introl Hsts) Hd)
    as (s1 & Hwork & Hsts1 & Hst1 & Hp1 & Hsink1 & _ & Hdec1 & Hidx1 & Htr1).
  assert (Ht : tick cfg s = s1).
  { rewrite stage1_turn; [by rewrite Hwork | done | rewrite Hsts; done | done]. }
  rewrite Ht. specialize (Hidx1 Hsts).
  destruct (IH rs s1) as (H1 & H2 & H3 & H4 & H5 & H6).
  - congruence.
  - done.
  - by rewrite Hp1.
  - by rewrite Hdec1, Hw.
  - repeat split; try congruence.
    rewrite H3, Htr1, Hidx1, Hsts, busy_decodes_snoc, <- app_assoc. done.
Qed.

End Turns.

(** ** From a decoded frame to the VPP *)

Section Decoded.
Context (cfg : config).

(** The state in which stage 1 reaches the VPP, after a scan of the first pool
    and a call of the decoder that handed a frame back. *)
Lemma stage1_decoded s idx :
  sts s = MFX_ERR_NONE ->
  next_scan (nSurfNumDecVPP cfg) (w_pool (world s)) <> MFX_ERR_NOT_FOUND ->
  r_sts (hd exhausted (w_dec (world s))) = MFX_ERR_NONE ->
  stage1_work cfg idx s =
    vpp_and_encode cfg idx
      (set_sts MFX_ERR_NONE
         (log (EvDecode false (next_scan (nSurfNumDecVPP cfg) (w_pool (world s)))
                 (hd exhausted (w_dec (world s))))
            (set_world (set_w_dec (tl (w_dec (world s)))
                          (set_w_pool (tl (w_pool (world s))) (world s)))
               (set_nIndex (next_scan (nSurfNumDecVPP cfg) (w_pool (world s))) s)))).
Proof.
  unfold next_scan. intros Hs Hp Hd.
  unfold stage1_work, bind, gets, when, MSDK_SLEEP, modify, ReadBitStreamData,
    find_pSurfaces, MSDK_CHECK_ERROR, DecodeFrameAsync, ret, return_,
    MSDK_BREAK_ON_ERROR, break_.
  rewrite Hs. change (MFX_WRN_DEVICE_BUSY =? MFX_ERR_NONE) with false.
  change (MFX_ERR_MORE_DATA =? MFX_ERR_NONE) with false.
  change (MFX_ERR_MORE_SURFACE =? MFX_ERR_NONE) with false.
  change (MFX_ERR_NONE =? MFX_ERR_NONE) with true. norm. rewrite Hs.
  change (MFX_ERR_MORE_SURFACE =? MFX_ERR_NONE) with false.
  change (MFX_ERR_NONE =? MFX_ERR_NONE) with true. cbn [orb]. norm.
  destruct (Z.eqb_spec (GetFreeSurfaceIndex
      (hd (replicate (nSurfNumDecVPP cfg) (MkSurface 0)) (w_pool (world s)))
      (nSurfNumDecVPP cfg)) MFX_ERR_NOT_FOUND) as [|_]; [done|].
  norm. rewrite Hd. change (MFX_ERR_NONE <? MFX_ERR_NONE) with false. cbn [andb].
  change (MFX_ERR_NONE =? MFX_ERR_NONE) with true. cbv iota.
  reflexivity.
Qed.

End Decoded.

Lemma run_add cfg n m s : run cfg (n + m) s = run cfg n (run cfg m s).
Proof. unfold run. apply Nat.iter_add. Qed.
(** ** The claims *)

(** C10. When a mandatory option is missing after parsing (the bit rate is 0,
    the numerator or the denominator of the frame rate is 0, or the name of
    the source is empty), [main] prints one of the three error messages and
    returns -1 at once: the message is the only thing it has done, no file
    is open, no session, no call of the accelerator. *)
Theorem missing_option_returns_early (o : CmdOptions) (su : setup) (w : env) :
  missing_option o ->
  exists msg,
    msg ∈ option_errors /\
    main o su w = (-1, log (EvPrintf msg) (boot w)) /\
    trace (main o su w).2 = [EvPrintf msg] /\
    world (main o su w).2 = w.
Proof.
  unfold missing_option, main, main_body, when, bind, printf, modify, return_, ret.
  intros H.
  destruct (Z.eqb_spec (Bitrate o) 0) as [Hb|Hb].
  { eexists; split; [|by repeat split]. unfold option_errors; rewrite !elem_of_cons; auto. }
  destruct (Z.eqb_spec (FrameRateN o) 0) as [Hn|Hn].
  { eexists; split; [|by repeat split]. unfold option_errors; rewrite !elem_of_cons; auto. }
  destruct (Z.eqb_spec (FrameRateD o) 0) as [Hd|Hd].
  { eexists; split; [|by repeat split]. unfold option_errors; rewrite !elem_of_cons; auto. }
  destruct (nonempty (SourceName o)) eqn:Hs.
  { exfalso. destruct H as [?|[?|[?|?]]]; congruence. }
  eexists; split; [|by repeat split]. unfold option_errors; rewrite !elem_of_cons; auto.
Qed.

Lemma missing_option_returns_early_witness :
  missing_option sample_options /\
  exists msg,
    msg ∈ option_errors /\
    main sample_options sample_setup three_frames
      = (-1, log (EvPrintf msg) (boot three_frames)) /\
    trace (main sample_options sample_setup three_frames).2 = [EvPrintf msg] /\
    world (main sample_options sample_setup three_frames).2 = three_frames.
Proof.
  assert (H : missing_option sample_options) by (left; reflexivity).
  split; [exact H|].
  exact (missing_option_returns_early sample_options sample_setup three_frames H).
Defined.

(** C8. With a pool of one task and an input of three frames, every call of
    the decoder, the VPP and the encoder Ready at once, the program is done
    after 14 turns of its loops; the sink holds exactly the three encoded
    frames, in the order of their submission, and [nFrame] is 3. *)
Theorem three_frames_depth_one (b1 b2 b3 : mfxBitstream)
    (d1 d2 d3 v1 v2 v3 p1 p2 p3 : nat) (n1 n2 : nat) :
  let w := MkEnv [] [] [] [ready d1; ready d2; ready d3] [ready v1; ready v2; ready v3]
             [MkEncResp MFX_ERR_NONE b1 (Some p1); MkEncResp MFX_ERR_NONE b2 (Some p2);
              MkEncResp MFX_ERR_NONE b3 (Some p3)] [] [] in
  let cfg := MkConfig 1 (S n1) (S n2) in
  let s := run cfg 14 (init cfg w) in
  stage s = Done /\
  sink s = [payload b1; payload b2; payload b3] /\
  issued (trace s) = [payload b1; payload b2; payload b3] /\
  nFrame s = 3 /\
  forall n, (14 <= n)%nat -> run cfg n (init cfg w) = s.
Proof.
  intros w cfg s.
  assert (H : stage s = Done /\ sink s = [payload b1; payload b2; payload b3] /\
              issued (trace s) = [payload b1; payload b2; payload b3] /\ nFrame s = 3).
  { subst s w cfg. vm_compute. auto. }
  destruct H as (Hd & Hs & Hi & Hn).
  split; [exact Hd|]. split; [exact Hs|]. split; [exact Hi|]. split; [exact Hn|].
  intros n Hle. replace n with ((n - 14) + 14)%nat by lia.
  rewrite run_add. apply run_fixed. by rewrite Hd.
Qed.

(** C5, as the claim states it, fails.  One frame is in flight in a pool of
    one task; the program waits for it, and the wait comes back at its
    timeout with the operation still in execution
    ([MFX_WRN_IN_EXECUTION], a warning).  The run is not aborted:
    [MSDK_CHECK_RESULT] lets every status that is not negative pass.  The
    bit stream of the task is written and the task recycled, as after a wait
    that succeeded, and the run goes on to [Done]. *)
Lemma timed_out_wait_is_written :
  let s := run depth1 1 (init depth1 wait_times_out) in
  about_to_wait depth1 s = true /\
  timed_out (hd MFX_ERR_NONE (w_sync (world s))) /\
  stage (tick depth1 s) = Stage1 /\
  trace (tick depth1 s)
    = EvWrite 0 [11] MFX_ERR_NONE
        :: EvSync 0 (Some 7%nat) 60000 MFX_WRN_IN_EXECUTION :: trace s /\
  sink (tick depth1 s) = [[11]] /\
  stage (run depth1 9 s) = Done /\ sink (run depth1 9 s) = [[11]].
Proof. vm_compute. repeat split. Qed.

(** C5, amended.  When the program is about to wait for the head task and
    the wait comes back with a negative status, that turn of the loop ends
    the run: the only calls made are the wait, with its timeout of 60000 ms,
    and the printing of its status, which is the exit code; the wait is not
    made again, nothing is written, and the sink, the tasks and the frame
    counter are as they were; no later turn changes anything.  When the wait
    comes back with a status that is not negative (Ready, or a warning such
    as the one of a timeout), the bit stream of the head task is written
    next; if the write reports [MFX_ERR_NONE] the frame is in the sink, the
    task is recycled, the frame counter goes up by one, and the run stays in
    its stage. *)
Theorem failed_wait_aborts (cfg : config) (s : state) :
  about_to_wait cfg s = true ->
  let r := hd MFX_ERR_NONE (w_sync (world s)) in
  let f := nFirstSyncTask s in
  let t := task_at (pTasks s) f in
  let s' := tick cfg s in
  (r < MFX_ERR_NONE ->
   stage s' = Aborted r /\
   trace s' = EvPrintRetMsg r :: EvSync f (syncp t) 60000 r :: trace s /\
   sink s' = sink s /\ pTasks s' = pTasks s /\ nFrame s' = nFrame s /\
   forall n, run cfg n s' = s') /\
  (MFX_ERR_NONE <= r -> hd MFX_ERR_NONE (w_write (world s)) = MFX_ERR_NONE ->
   stage s' = stage s /\
   trace s' = EvWrite f (payload (mfxBS t)) MFX_ERR_NONE
                :: EvSync f (syncp t) 60000 r :: trace s /\
   sink s' = sink s ++ [payload (mfxBS t)] /\
   pTasks s' = alter recycle f (pTasks s) /\
   nFrame s' = (nFrame s + 1) mod 2 ^ 32).
Proof.
  intros Hw r f t s'. split.
  - intros Hr.
    assert (Hs' : s' = set_stage (Aborted r)
              (log (EvPrintRetMsg r)
                 (set_sts r (log (EvSync f (syncp t) 60000 r)
                    (set_world (set_w_sync (tl (w_sync (world s))) (world s)) s))))).
    { subst s'. destruct (tick_waits cfg s Hw) as (after & -> & _).
      by rewrite (flush_wait_fails cfg s Hr). }
    assert (Hst : stage s' = Aborted r) by (by rewrite Hs').
    split; [exact Hst|]. rewrite Hs' at 1 2 3 4. repeat split.
    intros n. apply run_fixed. by rewrite Hst.
  - intros Hr Hwr. subst s'.
    destruct (tick_waits cfg s Hw) as (after & -> & _).
    destruct (flush_written cfg s Hr Hwr) as (s1 & -> & H1 & H2 & H3 & H4 & H5 & _).
    cbn [settle]. by repeat split.
Qed.

Lemma failed_wait_aborts_witness :
  let s := run depth1 1 (init depth1 wait_fails) in
  about_to_wait depth1 s = true /\
  hd MFX_ERR_NONE (w_sync (world s)) < MFX_ERR_NONE /\
  stage (tick depth1 s) = Aborted (-1) /\
  sink (tick depth1 s) = sink s.
Proof.
  intros s.
  assert (H1 : about_to_wait depth1 s = true) by reflexivity.
  assert (H2 : hd MFX_ERR_NONE (w_sync (world s)) < MFX_ERR_NONE) by reflexivity.
  destruct (failed_wait_aborts depth1 s H1) as [Hneg _].
  destruct (Hneg H2) as (Ha & _ & Hb & _).
  split; [exact H1|]. split; [exact H2|]. split; [exact Ha | exact Hb].
Defined.

(** C3, as the claim states it, fails.  One frame has gone in and its encode
    operation is in flight; the program is in stage 1, with a free task, and
    every surface of the first pool is locked.  The next turn does not wait
    for the operation in flight: it prints [MFX_ERR_MEMORY_ALLOC] and the
    run is aborted with that code, the frame in flight never written. *)
Lemma full_surface_pool_aborts :
  let s := run depth2 1 (init depth2 pool_runs_out) in
  stage s = Stage1 /\ about_to_work depth2 s = true /\
  outstanding (pTasks s) = 1%nat /\
  next_scan (nSurfNumDecVPP depth2) (w_pool (world s)) = MFX_ERR_NOT_FOUND /\
  stage (tick depth2 s) = Aborted MFX_ERR_MEMORY_ALLOC /\
  trace (tick depth2 s) = EvPrintRetMsg MFX_ERR_MEMORY_ALLOC :: trace s /\
  issued (trace s) = [[11]] /\ sink (run depth2 100 s) = [].
Proof. vm_compute. repeat split. Qed.

(** C3, amended.  A scan of a pool returns [MFX_ERR_NOT_FOUND] exactly when
    every surface it looks at is locked, and it writes nothing.  The
    program takes that answer for an error: when the scan of the first pool
    (in stages 1 and 2) or of the second pool (before every VPP call, and in
    stage 3) finds nothing, that turn prints [MFX_ERR_MEMORY_ALLOC] and the
    run is aborted with that code, without a wait, a retry, or a change to
    the sink and the tasks. *)
Theorem full_surface_pool_is_an_error (cfg : config) (s : state) :
  about_to_work cfg s = true ->
  let s' := tick cfg s in
  let aborted evs :=
    stage s' = Aborted MFX_ERR_MEMORY_ALLOC /\
    trace s' = EvPrintRetMsg MFX_ERR_MEMORY_ALLOC :: evs ++ trace s /\
    sink s' = sink s /\ pTasks s' = pTasks s in
  (stage s = Stage1 -> sts s = MFX_ERR_NONE \/ sts s = MFX_ERR_MORE_SURFACE ->
   next_scan (nSurfNumDecVPP cfg) (w_pool (world s)) = MFX_ERR_NOT_FOUND ->
   aborted []) /\
  (stage s = Stage2 ->
   next_scan (nSurfNumDecVPP cfg) (w_pool (world s)) = MFX_ERR_NOT_FOUND ->
   aborted (if MFX_WRN_DEVICE_BUSY =? sts s then [EvSleep 1] else [])) /\
  (stage s = Stage3 ->
   next_scan (nSurfNumVPPEnc cfg) (w_pool2 (world s)) = MFX_ERR_NOT_FOUND ->
   aborted []) /\
  (forall idx s0,
     next_scan (nSurfNumVPPEnc cfg) (w_pool2 (world s0)) = MFX_ERR_NOT_FOUND ->
     vpp_and_encode cfg idx s0 =
       Return MFX_ERR_MEMORY_ALLOC
         (log (EvPrintRetMsg MFX_ERR_MEMORY_ALLOC)
            (set_world (set_w_pool2 (tl (w_pool2 (world s0))) (world s0)) s0))) /\
  (forall pool n,
     GetFreeSurfaceIndex pool n = MFX_ERR_NOT_FOUND <->
     Forall (fun x => Locked x <> 0) (take n pool)) /\
  (forall n s0, exists i,
     find_pSurfaces n s0
       = Val i (set_world (set_w_pool (tl (w_pool (world s0))) (world s0)) s0)).
Proof.
  intros Hw s' aborted.
  destruct (tick_works cfg s Hw) as (work & next & Ht & Hcase).
  subst aborted. cbv beta. subst s'. rewrite Ht. clear Ht.
  split; [|split; [|split; [|split; [|split]]]].
  - intros Hs Hsts Hp.
    destruct Hcase as [(_ & -> & _)|[(? & _)|[(? & _)|(? & _)]]]; try congruence.
    rewrite stage1_pool_empty by done. by repeat split.
  - intros Hs Hp.
    destruct Hcase as [(? & _)|[(_ & -> & _)|[(? & _)|(? & _)]]]; try congruence.
    rewrite stage2_pool_empty by done.
    destruct (MFX_WRN_DEVICE_BUSY =? sts s); by repeat split.
  - intros Hs Hp.
    destruct Hcase as [(? & _)|[(? & _)|[(_ & -> & _)|(? & _)]]]; try congruence.
    rewrite stage3_pool_empty by done. by repeat split.
  - intros idx s0. apply vpp_pool_empty.
  - apply scan_not_found.
  - intros n s0. by eexists.
Qed.

Lemma full_surface_pool_is_an_error_witness :
  let s := run depth2 1 (init depth2 pool_runs_out) in
  about_to_work depth2 s = true /\
  stage (tick depth2 s) = Aborted MFX_ERR_MEMORY_ALLOC /\
  sink (tick depth2 s) = sink s.
Proof.
  intros s.
  assert (H : about_to_work depth2 s = true) by reflexivity.
  destruct (full_surface_pool_is_an_error depth2 s H) as (H1 & _).
  destruct (H1 eq_refl (or_introl eq_refl) eq_refl) as (Ha & _ & Hb & _).
  split; [exact H|]. split; [exact Ha | exact Hb].
Defined.

(** C4, as the claim states it, fails.  The input is finite, no call answers
    Busy and no wait is made, but the first call of the decoder fails: the
    run is aborted with the decoder's status while still in stage 1, and no
    number of turns brings it to [Done]. *)
Lemma fatal_decode_never_done :
  let s0 := init depth1 decoder_fails in
  stage (run depth1 1 s0) = Stage1 /\
  stage (run depth1 2 s0) = Aborted (-1) /\
  trace (run depth1 2 s0) = [EvPrintRetMsg (-1); EvDecode false 0 (MkResp (-1) None)] /\
  ~ exists n, stage (run depth1 n s0) = Done.
Proof.
  intros s0. split; [reflexivity|]. split; [reflexivity|]. split; [reflexivity|].
  intros [n Hn].
  destruct n as [|[|n]]; [discriminate Hn | discriminate Hn |].
  replace (S (S n)) with (n + 2)%nat in Hn by lia.
  rewrite run_add, run_fixed in Hn; [discriminate Hn | exact I].
Qed.

(** C4, amended.  With a pool of at least one task, every run is over after
    at most [potential] turns of the loops, whatever the reader, the decoder,
    the VPP, the encoder, the waits and the writer answer from their finite
    scripts: it is done, or aborted with a negative code.  A run that is not
    aborted is in stage 1, then 2, then 3, then 4, then 5, each for at least
    one turn, and then done.  No run is aborted in which nothing fails: no
    status below zero but NeedMoreInput from the reader, the VPP and the
    encoder, none but NeedMoreInput and [MFX_ERR_MORE_SURFACE] from the
    decoder, a free surface at every scan, no negative status from a wait or
    a write. *)
Theorem phases_in_order_and_termination (cfg : config) (w : env) :
  (0 < taskPoolSize cfg)%nat ->
  let s0 := init cfg w in
  let in_order :=
    exists n1 n2 n3 n4 n5,
      (0 < n1 < n2)%nat /\ (n2 < n3 < n4)%nat /\ (n4 < n5 <= potential s0)%nat /\
      forall n, stage (run cfg n s0) = phase_at n1 n2 n3 n4 n5 n in
  (forall n, (potential s0 <= n)%nat -> final (stage (run cfg n s0))) /\
  (forall n rc, stage (run cfg n s0) = Aborted rc -> rc < MFX_ERR_NONE) /\
  ((forall n rc, stage (run cfg n s0) <> Aborted rc) -> in_order) /\
  (nominal cfg w -> (forall n rc, stage (run cfg n s0) <> Aborted rc) /\ in_order).
Proof.
  intros HN s0 in_order. split; [|split; [|split]].
  - intros n Hn. apply (run_final cfg n s0 0%nat HN); [|exact Hn].
    by apply fifo_init.
  - intros n rc Hrc.
    destruct (run_abort_negative cfg n s0 rc Hrc) as [H|H]; [discriminate H | exact H].
  - intros Hw. by apply phases_of_run.
  - intros Hw. split; [|by apply nominal_phases].
    intros n rc. by apply nominal_never_aborted.
Qed.

Lemma phases_in_order_and_termination_witness :
  (0 < taskPoolSize depth1)%nat /\ nominal depth1 decoder_wants_surface /\
  exists n1 n2 n3 n4 n5,
    (0 < n1 < n2)%nat /\ (n2 < n3 < n4)%nat /\
    (n4 < n5 <= potential (init depth1 decoder_wants_surface))%nat /\
    forall n, stage (run depth1 n (init depth1 decoder_wants_surface))
              = phase_at n1 n2 n3 n4 n5 n.
Proof.
  assert (H1 : (0 < taskPoolSize depth1)%nat) by (simpl; lia).
  assert (H2 : nominal depth1 decoder_wants_surface).
  { split; simpl; try lia;
      repeat first [ apply List.Forall_nil
                   | apply List.Forall_cons; [first [by left | by right | by left; left]|] ]. }
  split; [exact H1|]. split; [exact H2|].
  destruct (phases_in_order_and_termination depth1 decoder_wants_surface H1)
    as (_ & _ & _ & Hnom).
  exact (proj2 (Hnom H2)).
Defined.

(** C1. At every turn of every run, whatever the calls answer: the pool has
    [taskPoolSize] tasks, so at most that many hold a sync point; the encode
    operations issued and not yet written are at most [taskPoolSize] (none is
    overwritten in its slot); and when the program is about to wait (no free
    task), the next turn starts with the wait on the head task, which holds
    the oldest operation not yet written, issues no encode operation, and
    either leaves the loop or recycles that task, which is then free for the
    next claim. *)
Theorem outstanding_tasks_bounded (cfg : config) (w : env) (n : nat) :
  (0 < taskPoolSize cfg)%nat ->
  let s := run cfg n (init cfg w) in
  let f := nFirstSyncTask s in
  length (pTasks s) = taskPoolSize cfg /\
  (outstanding (pTasks s) <= taskPoolSize cfg)%nat /\
  (length (issued (trace s)) <= length (sink s) + taskPoolSize cfg)%nat /\
  (about_to_wait cfg s = true ->
   is_set (syncp (task_at (pTasks s) f)) = true /\
   issued (trace s) !! length (sink s)
     = Some (payload (mfxBS (task_at (pTasks s) f))) /\
   (exists evs,
      trace (tick cfg s) =
        evs ++ EvSync f (syncp (task_at (pTasks s) f)) 60000
                 (hd MFX_ERR_NONE (w_sync (world s))) :: trace s /\
      issued evs = []) /\
   (stage (tick cfg s) <> stage s \/
    (pTasks (tick cfg s) = alter recycle f (pTasks s) /\
     (outstanding (pTasks (tick cfg s)) < outstanding (pTasks s))%nat /\
     GetFreeTaskIndex (pTasks (tick cfg s)) (taskPoolSize cfg) <> MFX_ERR_NOT_FOUND))).
Proof.
  intros HN s f. destruct (fifo_run cfg w n HN) as [k HF]. fold s in HF.
  pose proof (fifo_len _ _ _ HF) as HL.
  split; [exact HL|]. split.
  { rewrite <- HL. unfold outstanding. apply length_filter. }
  split.
  { rewrite (fifo_count cfg s k HF). pose proof (fifo_k _ _ _ HF). lia. }
  intros Hw. pose proof (wait_head_set cfg s k HN HF Hw) as Hk.
  assert (Hset : is_set (syncp (task_at (pTasks s) f)) = true).
  { subst f. rewrite (fifo_head_set cfg s k HN HF). by apply bool_decide_eq_true. }
  split; [exact Hset|]. split; [by apply (fifo_oldest cfg s k)|].
  split; [by apply wait_trace|].
  destruct (wait_outcome cfg s Hw) as [Hleft|(Hp & _ & _)]; [by left|right].
  pose proof (fifo_first _ _ _ HF) as Hf.
  split; [exact Hp|]. rewrite Hp. split.
  - assert (Hlt : (f < length (pTasks s))%nat) by (unfold f; lia).
    pose proof (outstanding_alter (pTasks s) f Hlt) as Ho.
    rewrite Hset in Ho. cbv iota in Ho. unfold f in Ho. lia.
  - by apply recycled_is_free.
Qed.

Lemma outstanding_tasks_bounded_witness :
  let s := run depth1 1 (init depth1 three_frames) in
  (0 < taskPoolSize depth1)%nat /\
  about_to_wait depth1 s = true /\
  (outstanding (pTasks s) <= taskPoolSize depth1)%nat /\
  is_set (syncp (task_at (pTasks s) (nFirstSyncTask s))) = true.
Proof.
  intros s.
  assert (H1 : (0 < taskPoolSize depth1)%nat) by (simpl; lia).
  assert (H2 : about_to_wait depth1 s = true) by reflexivity.
  destruct (outstanding_tasks_bounded depth1 three_frames 1 H1) as (_ & Hb & _ & Hw).
  destruct (Hw H2) as (Hset & _).
  split; [exact H1|]. split; [exact H2|]. split; [exact Hb | exact Hset].
Defined.

(** C2. At every turn of every run the sink is a prefix of the encode
    operations issued, in the order of their issue: of two operations the one
    issued first is written first.  The head [nFirstSyncTask] is the number
    of frames written, modulo the size of the pool; the tasks from the head
    on, around the pool, hold the operations not yet written, in their order;
    and when the last loop has nothing left to wait for, everything issued
    has been written. *)
Theorem flush_order_is_issue_order (cfg : config) (w : env) (n : nat) :
  (0 < taskPoolSize cfg)%nat ->
  let s := run cfg n (init cfg w) in
  sink s = take (length (sink s)) (issued (trace s)) /\
  (forall a b A B, (a < b)%nat ->
     issued (trace s) !! a = Some A -> issued (trace s) !! b = Some B ->
     (b < length (sink s))%nat -> sink s !! a = Some A /\ sink s !! b = Some B) /\
  nFirstSyncTask s = (length (sink s) mod taskPoolSize cfg)%nat /\
  (exists k, fifo cfg s k /\
     drop (length (sink s)) (issued (trace s))
       = pending (taskPoolSize cfg) (pTasks s) (nFirstSyncTask s) k) /\
  (stage5_cond s = false -> sink s = issued (trace s)).
Proof.
  intros HN s. destruct (fifo_run cfg w n HN) as [k HF]. fold s in HF.
  pose proof (fifo_prefix cfg s k HF) as Hpre.
  split; [exact Hpre|]. split.
  { intros a b A B Hab HA HB Hb. rewrite Hpre.
    rewrite !lookup_take_lt by lia. done. }
  split; [apply (fifo_head _ _ _ HF)|]. split.
  - exists k. split; [exact HF|].
    by rewrite <- (fifo_order _ _ _ HF), drop_app_length.
  - by apply (fifo_drained cfg s k).
Qed.

Lemma flush_order_is_issue_order_witness :
  let s := run depth1 14 (init depth1 three_frames) in
  (0 < taskPoolSize depth1)%nat /\
  sink s = take (length (sink s)) (issued (trace s)) /\
  sink s = [[11]; [22]; [33]].
Proof.
  intros s.
  assert (H1 : (0 < taskPoolSize depth1)%nat) by (simpl; lia).
  destruct (flush_order_is_issue_order depth1 three_frames 14 H1) as (Hp & _).
  split; [exact H1|]. split; [exact Hp | reflexivity].
Defined.



(** C6. Busy never ends a run: a run is aborted only with a negative code,
    and [MFX_WRN_DEVICE_BUSY] is positive.  Each Busy answer is followed by
    a sleep of 1 ms and the same call again, any number of times: the VPP
    and the encoder inside their loops, with the same arguments; the decoder
    at the next turn of stage 1 or 2, which leaves the stage, the tasks and
    the sink as they are (in stage 1 with the same surface, in stage 2 with
    the surface of a new scan). *)
Theorem busy_is_retried (cfg : config) :
  (forall s rc, stage (tick cfg s) = Aborted rc ->
     stage s = Aborted rc \/ rc < MFX_ERR_NONE) /\
  (forall in_null i n rs s, exists s1,
     vpp_loop in_null i (replicate n busy ++ rs) s = vpp_loop in_null i rs s1 /\
     trace s1 = busy_rounds (EvVPP in_null i busy) n ++ trace s /\
     pTasks s1 = pTasks s /\ sink s1 = sink s /\ stage s1 = stage s) /\
  (forall surface i l rs s, Forall is_busy l -> exists s1,
     enc_loop surface i (l ++ rs) s = enc_loop surface i rs s1 /\
     trace s1 = busy_encodes surface i l ++ trace s /\
     sink s1 = sink s /\ stage s1 = stage s /\
     forall j, j <> i -> task_at (pTasks s1) j = task_at (pTasks s) j) /\
  (forall n rs s,
     stage s = Stage1 -> sts s = MFX_WRN_DEVICE_BUSY ->
     GetFreeTaskIndex (pTasks s) (taskPoolSize cfg) <> MFX_ERR_NOT_FOUND ->
     w_dec (world s) = replicate n busy ++ rs ->
     let s' := run cfg n s in
     stage s' = Stage1 /\ sts s' = MFX_WRN_DEVICE_BUSY /\
     trace s' = busy_decodes (nIndex s) n ++ trace s /\
     w_dec (world s') = rs /\ pTasks s' = pTasks s /\ sink s' = sink s) /\
  (forall s,
     stage s = Stage1 -> sts s = MFX_ERR_NONE ->
     GetFreeTaskIndex (pTasks s) (taskPoolSize cfg) <> MFX_ERR_NOT_FOUND ->
     next_scan (nSurfNumDecVPP cfg) (w_pool (world s)) <> MFX_ERR_NOT_FOUND ->
     hd exhausted (w_dec (world s)) = busy ->
     let s' := tick cfg s in
     stage s' = Stage1 /\ sts s' = MFX_WRN_DEVICE_BUSY /\
     trace s' = EvDecode false (nIndex s') busy :: trace s /\
     pTasks s' = pTasks s /\ sink s' = sink s) /\
  (forall s,
     stage s = Stage2 -> MFX_ERR_NONE <= sts s ->
     GetFreeTaskIndex (pTasks s) (taskPoolSize cfg) <> MFX_ERR_NOT_FOUND ->
     next_scan (nSurfNumDecVPP cfg) (w_pool (world s)) <> MFX_ERR_NOT_FOUND ->
     hd exhausted (w_dec (world s)) = busy ->
     let s' := tick cfg s in
     stage s' = Stage2 /\ sts s' = MFX_WRN_DEVICE_BUSY /\
     trace s' = EvDecode true (next_scan (nSurfNumDecVPP cfg) (w_pool (world s))) busy
                  :: (if MFX_WRN_DEVICE_BUSY =? sts s then [EvSleep 1] else [])
                  ++ trace s /\
     pTasks s' = pTasks s /\ sink s' = sink s).
Proof.
  split; [apply abort_negative|]. split.
  { intros b i n rs s.
    destruct (vpp_loop_busy b i n rs s) as (s1 & H1 & H2 & _ & H3 & H4 & H5 & _).
    by exists s1. }
  split.
  { intros surface i l rs s Hl.
    destruct (enc_loop_busy surface i l rs s Hl) as (s1 & H1 & H2 & H3 & H4 & H5 & _).
    exists s1. repeat split; auto. intros j Hj. rewrite H3.
    destruct (last l); [|done]. unfold task_at. by rewrite list_lookup_insert_ne. }
  split; [apply stage1_busy_run|]. split.
  - intros s Hs Hsts Hg Hp Hd s'. subst s'.
    destruct (stage1_decode_busy cfg s (GetFreeTaskIndex (pTasks s) (taskPoolSize cfg))
                (or_intror (conj Hsts Hp)) Hd)
      as (s1 & Hwork & Hsts1 & Hst1 & Hp1 & Hsink1 & _ & _ & _ & Htr1).
    rewrite stage1_turn, Hwork by (rewrite ?Hsts; done). simpl.
    rewrite Hsts in Htr1. repeat split; auto. congruence.
  - intros s Hs Hsts Hg Hp Hd s'. subst s'.
    destruct (stage2_decode_busy cfg s (GetFreeTaskIndex (pTasks s) (taskPoolSize cfg))
                Hp Hd)
      as (s1 & Hwork & Hsts1 & Hst1 & Hp1 & Hsink1 & _ & _ & Hidx & Htr1).
    rewrite stage2_turn, Hwork by done. simpl.
    rewrite Hidx in Htr1. repeat split; auto. congruence.
Qed.

Lemma busy_is_retried_witness :
  let s := run depth2 1 (init depth2 busy_world) in
  stage s = Stage1 /\ sts s = MFX_WRN_DEVICE_BUSY /\
  GetFreeTaskIndex (pTasks s) (taskPoolSize depth2) <> MFX_ERR_NOT_FOUND /\
  w_dec (world s) = replicate 1 busy ++ [ready 1; ready 2] /\
  stage (run depth2 1 s) = Stage1 /\
  trace (run depth2 1 s) = busy_decodes (nIndex s) 1 ++ trace s /\
  sink (run depth2 100 s) = [[11]; [22]].
Proof.
  intros s.
  assert (H1 : stage s = Stage1) by reflexivity.
  assert (H2 : sts s = MFX_WRN_DEVICE_BUSY) by reflexivity.
  assert (H3 : GetFreeTaskIndex (pTasks s) (taskPoolSize depth2) <> MFX_ERR_NOT_FOUND)
    by discriminate.
  assert (H4 : w_dec (world s) = replicate 1 busy ++ [ready 1; ready 2]) by reflexivity.
  destruct (busy_is_retried depth2) as (_ & _ & _ & Hrun & _).
  destruct (Hrun 1%nat [ready 1; ready 2] s H1 H2 H3 H4) as (Ha & _ & Hb & _).
  split; [exact H1|]. split; [exact H2|]. split; [exact H3|]. split; [exact H4|].
  split; [exact Ha|]. split; [exact Hb | reflexivity].
Defined.

(** C7, as the claim states it, fails in its last clause: Busy is not the
    only answer that is retried.  The VPP answers
    [MFX_WRN_PARTIAL_ACCELERATION] and the encoder [MFX_WRN_IN_EXECUTION],
    both without output: each call is made again at once, without a sleep,
    and the second call takes the frame. *)
Lemma warning_without_output_is_retried :
  let v := MkResp MFX_WRN_PARTIAL_ACCELERATION None in
  let e := MkEncResp MFX_WRN_IN_EXECUTION (frame_of []) None in
  let s := tick depth1 (init depth1 warnings_world) in
  r_sts v <> MFX_WRN_DEVICE_BUSY /\ e_sts e <> MFX_WRN_DEVICE_BUSY /\
  trace s = [ EvEncode (Some 0) 0 (encoded [11] 7); EvEncode (Some 0) 0 e;
              EvVPP false 0 (ready 4); EvVPP false 0 v;
              EvDecode false 0 (ready 1) ] /\
  stage s = Stage1 /\ issued (trace s) = [[11]].
Proof. vm_compute. repeat split; discriminate. Qed.

(** C7, amended.  [MFX_ERR_MORE_SURFACE] from the VPP is not retried: the
    loop around the call hands back every status that is not a warning
    (Ready, NeedMoreInput, NeedMoreOutput, any error) after that one call,
    and a warning that came with output as [MFX_ERR_NONE]; it repeats the
    call for every warning that came without output, after a sleep of 1 ms
    when the warning is Busy and at once otherwise; the loop around the
    encoder does the same.  After [MFX_ERR_MORE_SURFACE] the program leaves
    its loop: it prints the code and the run is aborted with it, in stage 3
    and, through the same statements, in stages 1 and 2, with the sink and
    the tasks as they were. *)
Theorem more_surface_is_a_hard_stop (cfg : config) :
  (forall in_null i r rs s, r_sts r <= MFX_ERR_NONE ->
     vpp_loop in_null i (r :: rs) s =
       set_sts (r_sts r)
         (log (EvVPP in_null i r) (set_world (set_w_vpp rs (world s)) s))) /\
  (forall in_null i r rs s,
     MFX_ERR_NONE < r_sts r -> is_set (r_syncp r) = false ->
     vpp_loop in_null i (r :: rs) s =
       vpp_loop in_null i rs
         (let s1 := set_sts (r_sts r)
                      (log (EvVPP in_null i r) (set_world (set_w_vpp rs (world s)) s)) in
          if MFX_WRN_DEVICE_BUSY =? r_sts r then log (EvSleep 1) s1 else s1)) /\
  (forall surface i r rs s, e_sts r <= MFX_ERR_NONE ->
     enc_loop surface i (r :: rs) s =
       set_sts (e_sts r)
         (set_pTasks (<[i := MkTask (e_bs r) (e_syncp r)]> (pTasks s))
            (log (EvEncode surface i r) (set_world (set_w_enc rs (world s)) s)))) /\
  (forall s,
     stage s = Stage3 -> MFX_ERR_NONE <= sts s ->
     GetFreeTaskIndex (pTasks s) (taskPoolSize cfg) <> MFX_ERR_NOT_FOUND ->
     next_scan (nSurfNumVPPEnc cfg) (w_pool2 (world s)) <> MFX_ERR_NOT_FOUND ->
     r_sts (hd exhausted (w_vpp (world s))) = MFX_ERR_MORE_SURFACE ->
     let s' := tick cfg s in
     stage s' = Aborted MFX_ERR_MORE_SURFACE /\
     trace s' = EvPrintRetMsg MFX_ERR_MORE_SURFACE
                  :: EvVPP true (next_scan (nSurfNumVPPEnc cfg) (w_pool2 (world s)))
                       (hd exhausted (w_vpp (world s)))
                  :: trace s /\
     sink s' = sink s /\ pTasks s' = pTasks s /\
     forall n, run cfg n s' = s') /\
  (forall s,
     stage s = Stage1 -> sts s = MFX_ERR_NONE ->
     GetFreeTaskIndex (pTasks s) (taskPoolSize cfg) <> MFX_ERR_NOT_FOUND ->
     next_scan (nSurfNumDecVPP cfg) (w_pool (world s)) <> MFX_ERR_NOT_FOUND ->
     r_sts (hd exhausted (w_dec (world s))) = MFX_ERR_NONE ->
     next_scan (nSurfNumVPPEnc cfg) (w_pool2 (world s)) <> MFX_ERR_NOT_FOUND ->
     r_sts (hd exhausted (w_vpp (world s))) = MFX_ERR_MORE_SURFACE ->
     let s' := tick cfg s in
     stage s' = Aborted MFX_ERR_MORE_SURFACE /\
     trace s' = EvPrintRetMsg MFX_ERR_MORE_SURFACE
                  :: EvVPP false (next_scan (nSurfNumVPPEnc cfg) (w_pool2 (world s)))
                       (hd exhausted (w_vpp (world s)))
                  :: EvDecode false (next_scan (nSurfNumDecVPP cfg) (w_pool (world s)))
                       (hd exhausted (w_dec (world s)))
                  :: trace s /\
     sink s' = sink s /\ pTasks s' = pTasks s) /\
  (forall idx next s,
     next_scan (nSurfNumVPPEnc cfg) (w_pool2 (world s)) <> MFX_ERR_NOT_FOUND ->
     r_sts (hd exhausted (w_vpp (world s))) = MFX_ERR_MORE_SURFACE ->
     let s' := settle (leave_stage next) (vpp_and_encode cfg idx s) in
     stage s' = Aborted MFX_ERR_MORE_SURFACE /\
     trace s' = EvPrintRetMsg MFX_ERR_MORE_SURFACE
                  :: EvVPP false (next_scan (nSurfNumVPPEnc cfg) (w_pool2 (world s)))
                       (hd exhausted (w_vpp (world s)))
                  :: trace s /\
     sink s' = sink s /\ pTasks s' = pTasks s) /\
  (forall in_null i r rs s,
     MFX_ERR_NONE < r_sts r -> is_set (r_syncp r) = true ->
     vpp_loop in_null i (r :: rs) s =
       set_sts MFX_ERR_NONE
         (set_sts (r_sts r)
            (log (EvVPP in_null i r) (set_world (set_w_vpp rs (world s)) s)))) /\
  (forall surface i r rs s,
     MFX_ERR_NONE < e_sts r -> is_set (e_syncp r) = false ->
     enc_loop surface i (r :: rs) s =
       enc_loop surface i rs
         (let s1 := set_sts (e_sts r)
                      (set_pTasks (<[i := MkTask (e_bs r) (e_syncp r)]> (pTasks s))
                         (log (EvEncode surface i r)
                            (set_world (set_w_enc rs (world s)) s))) in
          if MFX_WRN_DEVICE_BUSY =? e_sts r then log (EvSleep 1) s1 else s1)) /\
  (forall surface i r rs s,
     MFX_ERR_NONE < e_sts r -> is_set (e_syncp r) = true ->
     enc_loop surface i (r :: rs) s =
       set_sts MFX_ERR_NONE
         (set_pTasks (<[i := MkTask (e_bs r) (e_syncp r)]> (pTasks s))
            (log (EvEncode surface i r) (set_world (set_w_enc rs (world s)) s)))).
Proof.
  split; [intros; by apply vpp_loop_final|].
  split; [intros; by apply vpp_loop_again|].
  split; [intros; by apply enc_loop_final|].
  assert (Hgen : forall idx next s,
     next_scan (nSurfNumVPPEnc cfg) (w_pool2 (world s)) <> MFX_ERR_NOT_FOUND ->
     r_sts (hd exhausted (w_vpp (world s))) = MFX_ERR_MORE_SURFACE ->
     let s' := settle (leave_stage next) (vpp_and_encode cfg idx s) in
     stage s' = Aborted MFX_ERR_MORE_SURFACE /\
     trace s' = EvPrintRetMsg MFX_ERR_MORE_SURFACE
                  :: EvVPP false (next_scan (nSurfNumVPPEnc cfg) (w_pool2 (world s)))
                       (hd exhausted (w_vpp (world s)))
                  :: trace s /\
     sink s' = sink s /\ pTasks s' = pTasks s).
  { intros idx next s Hp Hr s'. subst s'.
    rewrite vpp_more_surface by done. cbn [settle].
    rewrite leave_more_surface by done. by repeat split. }
  split; [|split; [|split; [exact Hgen|]]].
  3:{ split; [intros; by apply vpp_loop_output|].
      split; [intros; by apply enc_loop_again | intros; by apply enc_loop_output]. }
  - intros s Hs Hsts Hg Hp Hr s'.
    assert (Hs' : stage s' = Aborted MFX_ERR_MORE_SURFACE /\
              trace s' = EvPrintRetMsg MFX_ERR_MORE_SURFACE
                  :: EvVPP true (next_scan (nSurfNumVPPEnc cfg) (w_pool2 (world s)))
                       (hd exhausted (w_vpp (world s)))
                  :: trace s /\
              sink s' = sink s /\ pTasks s' = pTasks s).
    { subst s'. rewrite stage3_turn by done.
      rewrite stage3_more_surface by done. cbn [settle].
      rewrite leave_more_surface by done. by repeat split. }
    destruct Hs' as (H1 & H2 & H3 & H4). repeat split; auto.
    intros n. apply run_fixed. by rewrite H1.
  - intros s Hs Hsts Hg Hp Hd Hp2 Hr s'. subst s'.
    rewrite stage1_turn by (rewrite ?Hsts; done).
    rewrite stage1_decoded by done.
    match goal with |- context [vpp_and_encode cfg ?idx ?s0] =>
      destruct (Hgen idx Stage2 s0 Hp2 Hr) as (H1 & H2 & H3 & H4) end.
    by repeat split.
Qed.

Lemma more_surface_is_a_hard_stop_witness :
  let s := init depth1 more_surface_world in
  stage s = Stage1 /\
  r_sts (hd exhausted (w_vpp (world s))) = MFX_ERR_MORE_SURFACE /\
  stage (tick depth1 s) = Aborted MFX_ERR_MORE_SURFACE /\
  sink (tick depth1 s) = sink s.
Proof.
  intros s.
  assert (H1 : stage s = Stage1) by reflexivity.
  assert (H2 : r_sts (hd exhausted (w_vpp (world s))) = MFX_ERR_MORE_SURFACE)
    by reflexivity.
  destruct (more_surface_is_a_hard_stop depth1) as (_ & _ & _ & _ & Hone & _).
  destruct (Hone s H1 eq_refl ltac:(discriminate) ltac:(discriminate) eq_refl
              ltac:(discriminate) H2) as (Ha & _ & Hb & _).
  split; [exact H1|]. split; [exact H2|]. split; [exact Ha | exact Hb].
Defined.
(** * More of [main] *)

(** ** The frame counter *)

Global Instance keeps_count_preorder : PreOrder keeps_count.
Proof.
  split; [intros s | intros s1 s2 s3]; unfold keeps_count; tauto.
Qed.

Lemma keeps_count_intro s s' :
  nFrame s' = nFrame s -> sink s' = sink s -> keeps_count s s'.
Proof. unfold keeps_count, counted. by intros -> ->. Qed.

Lemma keeps_count_neutral s s' : neutral s s' -> keeps_count s s'.
Proof. intros (_ & _ & Hn & Hs & _). by apply keeps_count_intro. Qed.

Lemma enc_loop_frame surf i rs s :
  nFrame (enc_loop surf i rs s) = nFrame s /\ sink (enc_loop surf i rs s) = sink s.
Proof.
  revert s. induction rs as [|r rs IH]; intros s; simpl.
  { done. }
  repeat case_match; try done;
    match goal with |- context [enc_loop _ _ rs ?s0] =>
      destruct (IH s0) as [-> ->] end; done.
Qed.

Lemma count_step n :
  ((Z.of_nat n mod 2 ^ 32 + 1) mod 2 ^ 32) = Z.of_nat (n + 1) mod 2 ^ 32.
Proof. rewrite Zplus_mod_idemp_l. f_equal. lia. Qed.

Lemma keeps_count_flush cfg : respects keeps_count (flush_oldest cfg).
Proof.
  intros s. unfold keeps_count, counted.
  run_driver; norm; try done; bools; try congruence.
  intros ->. rewrite length_app. simpl. apply count_step.
Qed.

Lemma keeps_count_run cfg n s : keeps_count s (run cfg n s).
Proof.
  apply respects_run; try typeclasses eauto.
  - apply keeps_count_neutral.
  - apply keeps_count_flush.
  - intros surf i s0. simpl. apply keeps_count_intro; apply enc_loop_frame.
  - intros p s0. by apply keeps_count_intro.
Qed.

(** ** The calls of each phase *)

Section Adds.
Context (P : event -> bool).

Global Instance adds_preorder : PreOrder (adds P).
Proof.
  split.
  - intros s. by exists [].
  - intros s1 s2 s3 (e1 & T1 & F1) (e2 & T2 & F2). exists (e2 ++ e1).
    split; [rewrite T2, T1; by rewrite app_assoc | by apply Forall_app].
Qed.

Lemma adds_same s s' : trace s' = trace s -> adds P s s'.
Proof. intros H. by exists []. Qed.

Lemma adds_one s s' ev : trace s' = ev :: trace s -> P ev = true -> adds P s s'.
Proof. intros H Hev. exists [ev]. split; [done | by repeat constructor]. Qed.

Lemma adds_modify f : (forall s, trace (f s) = trace s) -> respects (adds P) (modify f).
Proof. intros H s. simpl. by apply adds_same. Qed.

Lemma adds_log ev : P ev = true -> respects (adds P) (modify (log ev)).
Proof. intros H s. simpl. by apply (adds_one _ _ ev). Qed.

Lemma adds_check_result X Y E :
  (forall rc, P (EvPrintRetMsg rc) = true) -> respects (adds P) (MSDK_CHECK_RESULT X Y E).
Proof.
  intros H s. unfold MSDK_CHECK_RESULT. destruct (Y >? X); simpl; [|reflexivity].
  by apply (adds_one _ _ (EvPrintRetMsg E)).
Qed.

Lemma adds_check_error X Y E :
  (forall rc, P (EvPrintRetMsg rc) = true) -> respects (adds P) (MSDK_CHECK_ERROR X Y E).
Proof.
  intros H s. unfold MSDK_CHECK_ERROR. destruct (Y =? X); simpl; [|reflexivity].
  by apply (adds_one _ _ (EvPrintRetMsg E)).
Qed.

Lemma adds_break_on_error X : respects (adds P) (MSDK_BREAK_ON_ERROR X).
Proof. intros s. unfold MSDK_BREAK_ON_ERROR. destruct (_ =? X); simpl; reflexivity. Qed.

Lemma adds_sleep : P (EvSleep 1) = true -> respects (adds P) (MSDK_SLEEP 1).
Proof. intros H. by apply adds_log. Qed.

Lemma adds_read : (forall r, P (EvRead r) = true) -> respects (adds P) ReadBitStreamData.
Proof. intros H s. simpl. by eapply adds_one. Qed.

Lemma adds_find n : respects (adds P) (find_pSurfaces n).
Proof. intros s. simpl. by apply adds_same. Qed.

Lemma adds_find2 n : respects (adds P) (find_pSurfaces2 n).
Proof. intros s. simpl. by apply adds_same. Qed.

Lemma adds_decode b i :
  (forall r, P (EvDecode b i r) = true) -> respects (adds P) (DecodeFrameAsync b i).
Proof. intros H s. simpl. by eapply adds_one. Qed.

Lemma adds_sync i sp :
  (forall r, P (EvSync i sp 60000 r) = true) -> respects (adds P) (SyncOperation i sp 60000).
Proof. intros H s. simpl. by eapply adds_one. Qed.

Lemma adds_write i bs :
  (forall b r, P (EvWrite i b r) = true) -> respects (adds P) (WriteBitStreamFrame i bs).
Proof.
  intros H s. simpl. destruct (_ =? _); by eapply adds_one.
Qed.

Lemma adds_vpp_loop b i rs s :
  (forall r, P (EvVPP b i r) = true) -> P (EvSleep 1) = true ->
  adds P s (vpp_loop b i rs s).
Proof.
  intros Hv Hs. revert s. induction rs as [|r rs IH]; intros s; simpl.
  { by eapply adds_one. }
  destruct ((MFX_ERR_NONE <? r_sts r) && negb (is_set (r_syncp r))).
  - etrans; [|apply IH]. destruct (MFX_WRN_DEVICE_BUSY =? r_sts r).
    + exists [EvSleep 1; EvVPP b i r]. split; [done|]. by repeat constructor.
    + by eapply adds_one.
  - destruct ((MFX_ERR_NONE <? r_sts r) && is_set (r_syncp r)); by eapply adds_one.
Qed.

Lemma adds_enc_loop surf i rs s :
  (forall r, P (EvEncode surf i r) = true) -> P (EvSleep 1) = true ->
  adds P s (enc_loop surf i rs s).
Proof.
  intros Hv Hs. revert s. induction rs as [|r rs IH]; intros s; simpl.
  { by eapply adds_one. }
  destruct ((MFX_ERR_NONE <? e_sts r) && negb (is_set (e_syncp r))).
  - etrans; [|apply IH]. destruct (MFX_WRN_DEVICE_BUSY =? e_sts r).
    + exists [EvSleep 1; EvEncode surf i r]. split; [done|]. by repeat constructor.
    + by eapply adds_one.
  - destruct ((MFX_ERR_NONE <? e_sts r) && is_set (e_syncp r));
      [|destruct (_ =? _)]; by eapply adds_one.
Qed.

Lemma adds_vpp b i :
  (forall r, P (EvVPP b i r) = true) -> P (EvSleep 1) = true ->
  respects (adds P) (RunFrameVPPAsync_loop b i).
Proof. intros ?? s. by apply adds_vpp_loop. Qed.

Lemma adds_enc surf i :
  (forall r, P (EvEncode surf (Z.to_nat i) r) = true) -> P (EvSleep 1) = true ->
  respects (adds P) (EncodeFrameAsync_loop surf i).
Proof. intros ?? s. by apply adds_enc_loop. Qed.

End Adds.

Ltac adds_side := first [ done | intros; reflexivity | typeclasses eauto ].

Ltac adds_go :=
  repeat first
    [ apply adds_check_result; adds_side
    | apply adds_check_error; adds_side
    | apply adds_break_on_error
    | apply adds_sleep; adds_side
    | apply adds_read; adds_side
    | apply adds_find
    | apply adds_find2
    | apply adds_decode; adds_side
    | apply adds_sync; adds_side
    | apply adds_write; adds_side
    | apply adds_vpp; adds_side
    | apply adds_enc; adds_side
    | apply adds_modify; adds_side
    | apply respects_ret; adds_side
    | apply respects_gets; adds_side
    | apply respects_continue; adds_side
    | apply respects_break; adds_side
    | apply respects_when; [adds_side |]
    | apply respects_bind; [adds_side | | intros ?]
    | apply respects_if ].

Section PhaseCalls.
Context (cfg : config).

Lemma flush_adds p : (1 <= rank p)%nat ->
  respects (adds (allowed p)) (flush_oldest cfg).
Proof. intros Hp. destruct p; simpl in Hp; try lia; unfold flush_oldest; adds_go. Qed.

Lemma stage1_adds : respects (adds (allowed Stage1)) (stage1_body cfg).
Proof.
  pose proof (flush_adds Stage1 ltac:(simpl; lia)).
  unfold stage1_body, stage1_work, vpp_and_encode. adds_go.
Qed.

Lemma stage2_adds : respects (adds (allowed Stage2)) (stage2_body cfg).
Proof.
  pose proof (flush_adds Stage2 ltac:(simpl; lia)).
  unfold stage2_body, stage2_work, vpp_and_encode. adds_go.
Qed.

Lemma stage3_adds : respects (adds (allowed Stage3)) (stage3_body cfg).
Proof.
  pose proof (flush_adds Stage3 ltac:(simpl; lia)).
  unfold stage3_body, stage3_work. adds_go.
Qed.

Lemma stage4_adds : respects (adds (allowed Stage4)) (stage4_body cfg).
Proof.
  pose proof (flush_adds Stage4 ltac:(simpl; lia)).
  unfold stage4_body, stage4_work. adds_go.
Qed.

Lemma leave_adds p next s : (1 <= rank p)%nat -> adds (allowed p) s (leave_stage next s).
Proof.
  intros Hp. unfold leave_stage, MSDK_CHECK_RESULT, bind, modify, return_. simpl.
  destruct (_ >? _); simpl; [|by apply adds_same].
  eapply adds_one; [reflexivity|]. destruct p; simpl in *; done || lia.
Qed.

Lemma iteration_adds p c body after s :
  respects (adds (allowed p)) body -> (forall s0, adds (allowed p) s0 (after s0)) ->
  adds (allowed p) s (iteration c body after s).
Proof.
  intros Hb Ha. unfold iteration, settle. destruct c; [|apply Ha].
  specialize (Hb s). destruct (body s); simpl in *; try assumption.
  etrans; [exact Hb | apply Ha].
Qed.

(** What a turn adds to the trace are calls of its phase. *)
Lemma tick_adds s : adds (allowed (stage s)) s (tick cfg s).
Proof.
  unfold tick. destruct (stage s); try reflexivity; apply iteration_adds;
    auto using stage1_adds, stage2_adds, stage3_adds, stage4_adds.
  all: try (intros s0; apply leave_adds; simpl; lia).
  all: try (apply flush_adds; simpl; lia).
  all: try (intros s0; by apply adds_same).
Qed.

End PhaseCalls.

(** ** The source is read before any stage is drained *)

Lemma allowed_stage1 ev : allowed Stage1 ev = true -> drains ev = false.
Proof. destruct ev as [| | | | |[]|[]|[]| | |]; simpl; done. Qed.

Lemma allowed_later p ev : p <> Stage1 -> allowed p ev = true -> reads ev = false.
Proof. destruct ev, p; simpl; done. Qed.

Lemma reads_first_quiet evs tr :
  Forall (fun e => reads e = false) evs -> reads_first tr -> reads_first (evs ++ tr).
Proof.
  intros He Ht. induction He as [|ev evs Hev _ IH]; [done|].
  simpl. split; [|exact IH]. intros H. congruence.
Qed.

Lemma reads_first_clean tr :
  Forall (fun e => drains e = false) tr -> reads_first tr.
Proof.
  induction 1 as [|ev tr Hev Htr IH]; [done|]. simpl. by split.
Qed.

Lemma reads_first_split tr newer ev older :
  reads_first tr -> tr = newer ++ ev :: older -> reads ev = true ->
  Forall (fun e => drains e = false) older.
Proof.
  revert tr. induction newer as [|e newer IH]; intros tr Ht -> Hev.
  - simpl in Ht. by apply Ht.
  - simpl in Ht. by apply (IH (newer ++ ev :: older)); [apply Ht|..].
Qed.

Section ReadsFirst.
Context (cfg : config).

Lemma reads_first_tick s :
  reads_first (trace s) /\
  (stage s = Stage1 -> Forall (fun e => drains e = false) (trace s)) ->
  reads_first (trace (tick cfg s)) /\
  (stage (tick cfg s) = Stage1 ->
   Forall (fun e => drains e = false) (trace (tick cfg s))).
Proof.
  intros [Hr H1]. destruct (tick_adds cfg s) as (evs & Ht & Hev). rewrite Ht.
  assert (Hdec : stage s = Stage1 \/ stage s <> Stage1)
    by (destruct (stage s); auto; right; discriminate).
  destruct Hdec as [Hs|Hs].
  - assert (Hclean : Forall (fun e => drains e = false) (evs ++ trace s)).
    { apply Forall_app. split; [|by apply H1].
      eapply Forall_impl; [exact Hev|]. intros ev. rewrite Hs. apply allowed_stage1. }
    split; [by apply reads_first_clean | done].
  - split.
    + apply reads_first_quiet; [|done].
      eapply Forall_impl; [exact Hev|]. intros ev. by apply allowed_later.
    + intros Hs'. exfalso. pose proof (tick_position cfg s) as Hp.
      rewrite Hs' in Hp. destruct (stage s); simpl in Hp; try lia; done.
Qed.

Lemma reads_first_run n s :
  stage s = Stage1 -> Forall (fun e => drains e = false) (trace s) ->
  reads_first (trace (run cfg n s)).
Proof.
  intros Hs Hc.
  assert (H : reads_first (trace (run cfg n s)) /\
              (stage (run cfg n s) = Stage1 ->
               Forall (fun e => drains e = false) (trace (run cfg n s)))).
  { induction n as [|n IH]; [split; [by apply reads_first_clean | done]|].
    by apply reads_first_tick. }
  apply H.
Qed.

End ReadsFirst.

(** ** Leaving a loop *)

Section Leave.
Context (cfg : config).

(** A turn whose loop test fails goes to what follows the loop. *)
Lemma tick_leaves s :
  loop_cond s = false -> (2 <= rank (stage s))%nat ->
  tick cfg s = leave_stage (next_phase (stage s)) s.
Proof.
  unfold loop_cond, tick, iteration. intros Hc Hr.
  destruct (stage s); simpl in Hr; try lia; by rewrite Hc.
Qed.

(** After a loop, [MFX_ERR_MORE_DATA] is the end of the stage and every other
    negative status the end of the run. *)
Lemma leave_cases next s :
  let s' := leave_stage next s in
  (sts s = MFX_ERR_MORE_DATA -> s' = set_stage next (set_sts MFX_ERR_NONE s)) /\
  (MFX_ERR_NONE <= sts s -> s' = set_stage next (set_sts (sts s) s)) /\
  (sts s < MFX_ERR_NONE -> sts s <> MFX_ERR_MORE_DATA ->
   s' = set_stage (Aborted (sts s))
          (log (EvPrintRetMsg (sts s)) (set_sts (sts s) s))).
Proof.
  unfold leave_stage, MSDK_CHECK_RESULT, MSDK_IGNORE_MFX_STS, bind, modify, return_.
  simpl. repeat split; intros;
    repeat (split_if; simpl); bools; codes; try lia; try congruence; reflexivity.
Qed.

End Leave.

(** ** A write that fails *)

Section WriteFails.
Context (cfg : config).

Lemma flush_write_fails s :
  MFX_ERR_NONE <= hd MFX_ERR_NONE (w_sync (world s)) ->
  hd MFX_ERR_NONE (w_write (world s)) <> MFX_ERR_NONE ->
  let f := nFirstSyncTask s in
  let t := task_at (pTasks s) f in
  flush_oldest cfg s =
    Break (set_sts (hd MFX_ERR_NONE (w_write (world s)))
             (log (EvWrite f (payload (mfxBS t)) (hd MFX_ERR_NONE (w_write (world s))))
                (set_world (set_w_write (tl (w_write (world s)))
                              (set_w_sync (tl (w_sync (world s))) (world s)))
                   (set_sts (hd MFX_ERR_NONE (w_sync (world s)))
                      (log (EvSync f (syncp t) 60000 (hd MFX_ERR_NONE (w_sync (world s))))
                         s))))).
Proof.
  intros Hs Hw. run_driver; bools; codes; try lia; try congruence; reflexivity.
Qed.

Lemma tick_waits_at s :
  about_to_wait cfg s = true ->
  tick cfg s = settle (match stage s with
                       | Stage5 => set_stage Done
                       | p => leave_stage (next_phase p)
                       end)
                 (flush_oldest cfg s).
Proof.
  unfold about_to_wait, loop_cond, tick, iteration.
  destruct (stage s); try done; intros H;
    try (apply andb_true_iff in H as [-> H]; unfold stage1_body, stage2_body,
           stage3_body, stage4_body, bind, gets; rewrite H; reflexivity).
  by rewrite H.
Qed.

End WriteFails.

(** ** The call of the decoder *)

Lemma vpp_loop_suffix b i rs s : trace s `suffix_of` trace (vpp_loop b i rs s).
Proof.
  destruct (adds_vpp_loop (fun _ => true) b i rs s) as (evs & -> & _); [done..|].
  by apply suffix_app_r.
Qed.

Lemma enc_loop_suffix surf i rs s : trace s `suffix_of` trace (enc_loop surf i rs s).
Proof.
  destruct (adds_enc_loop (fun _ => true) surf i rs s) as (evs & -> & _); [done..|].
  by apply suffix_app_r.
Qed.

Ltac suffix_go :=
  repeat first
    [ reflexivity
    | apply suffix_cons_r
    | (etrans; [|apply enc_loop_suffix]); norm
    | (etrans; [|apply vpp_loop_suffix]); norm ].

Lemma settle_suffix next c :
  trace (exits c) `suffix_of` trace (settle (leave_stage next) c).
Proof.
  destruct (settle_trace (leave_stage next) c (leave_trace next)) as (evs & -> & _).
  by apply suffix_app_r.
Qed.

Section DecodeCall.
Context (cfg : config).

Lemma stage1_decode_call s idx :
  (sts s = MFX_ERR_MORE_DATA -> hd MFX_ERR_MORE_DATA (w_read (world s)) = MFX_ERR_NONE) ->
  (sts s <= MFX_ERR_NONE ->
   next_scan (nSurfNumDecVPP cfg) (w_pool (world s)) <> MFX_ERR_NOT_FOUND) ->
  MFX_ERR_NONE <= sts s \/ sts s = MFX_ERR_MORE_DATA \/ sts s = MFX_ERR_MORE_SURFACE ->
  (EvDecode false (decode_surface cfg s) (hd exhausted (w_dec (world s)))
     :: decode_prelude s ++ trace s)
  `suffix_of` trace (exits (stage1_work cfg idx s)).
Proof.
  unfold next_scan, decode_surface, decode_prelude. intros Hread Hscan Hsts.
  run_driver; bools; codes; try lia; try (exfalso; apply Hscan; [lia | congruence]).
  all: norm; repeat (split_if; simpl); bools; codes; try lia.
  all: try (specialize (Hread ltac:(lia)); rewrite ?Hread in *; try lia).
  all: suffix_go.
Qed.

Lemma stage2_decode_call s idx :
  next_scan (nSurfNumDecVPP cfg) (w_pool (world s)) <> MFX_ERR_NOT_FOUND ->
  (EvDecode true (next_scan (nSurfNumDecVPP cfg) (w_pool (world s)))
       (hd exhausted (w_dec (world s)))
     :: (if MFX_WRN_DEVICE_BUSY =? sts s then [EvSleep 1] else []) ++ trace s)
  `suffix_of` trace (exits (stage2_work cfg idx s)).
Proof.
  unfold next_scan. intros Hscan.
  run_driver; bools; codes; try lia; try congruence.
  all: norm; suffix_go.
Qed.

End DecodeCall.

(** ** What each stage does with the answer it gets *)

Section Answers.
Context (cfg : config).

(** The reader does not answer [MFX_ERR_NONE]: stage 1 is left. *)
Lemma stage1_source_ends s idx :
  sts s = MFX_ERR_MORE_DATA ->
  hd MFX_ERR_MORE_DATA (w_read (world s)) <> MFX_ERR_NONE ->
  stage1_work cfg idx s =
    Break (set_sts (hd MFX_ERR_MORE_DATA (w_read (world s)))
             (log (EvRead (hd MFX_ERR_MORE_DATA (w_read (world s))))
                (set_world (set_w_read (tl (w_read (world s))) (world s)) s))).
Proof.
  intros Hs Hr. run_driver; bools; codes; try lia; try congruence; reflexivity.
Qed.

(** The decoder answers something else than a frame: the status is kept for
    the loop test, and nothing else is called. *)
Lemma stage1_decode_other s idx :
  (sts s = MFX_ERR_MORE_DATA -> hd MFX_ERR_MORE_DATA (w_read (world s)) = MFX_ERR_NONE) ->
  (sts s <= MFX_ERR_NONE ->
   next_scan (nSurfNumDecVPP cfg) (w_pool (world s)) <> MFX_ERR_NOT_FOUND) ->
  MFX_ERR_NONE <= sts s \/ sts s = MFX_ERR_MORE_DATA \/ sts s = MFX_ERR_MORE_SURFACE ->
  gives_frame (hd exhausted (w_dec (world s))) = false ->
  exists s',
    stage1_work cfg idx s = Val tt s' /\
    sts s' = r_sts (hd exhausted (w_dec (world s))) /\ stage s' = stage s /\
    pTasks s' = pTasks s /\ sink s' = sink s /\
    nFirstSyncTask s' = nFirstSyncTask s /\
    nIndex s' = decode_surface cfg s /\
    trace s' = EvDecode false (decode_surface cfg s) (hd exhausted (w_dec (world s)))
                 :: decode_prelude s ++ trace s.
Proof.
  unfold next_scan, decode_surface, decode_prelude, gives_frame.
  intros Hread Hscan Hsts Hd.
  run_driver; bools; codes; try lia; try congruence;
    try (exfalso; apply Hscan; [lia | congruence]).
  all: try (specialize (Hread ltac:(lia)); rewrite ?Hread in *; try lia).
  all: eexists; split; [reflexivity|]; norm; repeat (split_if; simpl); bools; codes;
    try lia; by repeat split.
Qed.

Lemma stage2_decode_other s idx :
  next_scan (nSurfNumDecVPP cfg) (w_pool (world s)) <> MFX_ERR_NOT_FOUND ->
  gives_frame (hd exhausted (w_dec (world s))) = false ->
  exists s',
    stage2_work cfg idx s = Val tt s' /\
    sts s' = r_sts (hd exhausted (w_dec (world s))) /\ stage s' = stage s /\
    pTasks s' = pTasks s /\ sink s' = sink s /\
    nFirstSyncTask s' = nFirstSyncTask s /\
    trace s' = EvDecode true (next_scan (nSurfNumDecVPP cfg) (w_pool (world s)))
                 (hd exhausted (w_dec (world s)))
                 :: (if MFX_WRN_DEVICE_BUSY =? sts s then [EvSleep 1] else [])
                 ++ trace s.
Proof.
  unfold next_scan, gives_frame. intros Hscan Hd.
  run_driver; bools; codes; try lia; try congruence.
  all: eexists; split; [reflexivity|]; norm; by repeat split.
Qed.

(** The VPP answers something else than a frame, in stage 3: the loop is
    left. *)
Lemma stage3_vpp_stops s idx :
  next_scan (nSurfNumVPPEnc cfg) (w_pool2 (world s)) <> MFX_ERR_NOT_FOUND ->
  r_sts (hd exhausted (w_vpp (world s))) < MFX_ERR_NONE ->
  stage3_work cfg idx s =
    Break (set_sts (r_sts (hd exhausted (w_vpp (world s))))
             (log (EvVPP true (next_scan (nSurfNumVPPEnc cfg) (w_pool2 (world s)))
                     (hd exhausted (w_vpp (world s))))
                (set_world (set_w_vpp (tl (w_vpp (world s)))
                              (set_w_pool2 (tl (w_pool2 (world s))) (world s))) s))).
Proof.
  unfold next_scan. intros Hp Hr.
  assert (Hv : forall s0, w_vpp (world s0) = w_vpp (world s) ->
     vpp_loop true (GetFreeSurfaceIndex
        (hd (replicate (nSurfNumVPPEnc cfg) (MkSurface 0)) (w_pool2 (world s)))
        (nSurfNumVPPEnc cfg)) (w_vpp (world s)) s0 =
     set_sts (r_sts (hd exhausted (w_vpp (world s))))
       (log (EvVPP true (GetFreeSurfaceIndex
          (hd (replicate (nSurfNumVPPEnc cfg) (MkSurface 0)) (w_pool2 (world s)))
          (nSurfNumVPPEnc cfg)) (hd exhausted (w_vpp (world s))))
          (set_world (set_w_vpp (tl (w_vpp (world s))) (world s0)) s0))).
  { intros s0 H0. destruct (w_vpp (world s)) as [|r rs].
    - destruct s0 as [? ? ? ? ? w0 ? ? ?]. destruct w0. simpl in *. by subst.
    - simpl hd in *. simpl tl. rewrite vpp_loop_final by lia. reflexivity. }
  unfold stage3_work, bind, find_pSurfaces2, MSDK_CHECK_ERROR,
    RunFrameVPPAsync_loop, gets, break_, modify, return_, ret, MSDK_BREAK_ON_ERROR.
  norm.
  destruct (Z.eqb_spec (GetFreeSurfaceIndex
    (hd (replicate (nSurfNumVPPEnc cfg) (MkSurface 0)) (w_pool2 (world s)))
    (nSurfNumVPPEnc cfg)) MFX_ERR_NOT_FOUND) as [|_]; [done|].
  norm. rewrite Hv by done. norm.
  repeat (split_if; simpl); bools; codes; try lia; reflexivity.
Qed.

End Answers.

(** ** [main] up to its loops *)

Lemma first_failure_None l :
  first_failure l = None <-> Forall (fun r => MFX_ERR_NONE <= r) l.
Proof.
  unfold first_failure. induction l as [|r l IH]; simpl.
  - split; [constructor | done].
  - destruct (Z.ltb_spec r MFX_ERR_NONE).
    + split; [done|]. intros HF. inversion HF. lia.
    + rewrite IH. split; [by constructor | intros HF; by inversion HF].
Qed.

Lemma first_failure_Some l e :
  first_failure l = Some e -> e < MFX_ERR_NONE /\ e ∈ l.
Proof.
  unfold first_failure. intros H. apply find_some in H as [Hin He].
  apply Z.ltb_lt in He. split; [done|]. by apply list_elem_of_In.
Qed.

Lemma bind_val {A B} (m : M A) (k : A -> M B) s a s' :
  m s = Val a s' -> bind m k s = k a s'.
Proof. unfold bind. by intros ->. Qed.

Lemma bind_return {A B} (m : M A) (k : A -> M B) s rc s' :
  m s = Return rc s' -> bind m k s = Return rc s'.
Proof. unfold bind. by intros ->. Qed.

Lemma check_result_pass r s :
  MFX_ERR_NONE <= r -> MSDK_CHECK_RESULT r MFX_ERR_NONE r s = Val tt s.
Proof.
  intros Hr. unfold MSDK_CHECK_RESULT. rewrite Z.gtb_ltb.
  by destruct (Z.ltb_spec r MFX_ERR_NONE); [lia|].
Qed.

Lemma check_result_fail r s :
  r < MFX_ERR_NONE ->
  MSDK_CHECK_RESULT r MFX_ERR_NONE r s = Return r (log (EvPrintRetMsg r) s).
Proof.
  intros Hr. unfold MSDK_CHECK_RESULT. rewrite Z.gtb_ltb.
  by destruct (Z.ltb_spec r MFX_ERR_NONE); [|lia].
Qed.

(** A call of the set-up that does not fail: warnings pass. *)
Lemma call_pass name ig r s :
  MFX_ERR_NONE <= r ->
  call name ig r s =
    Val tt (set_sts (if ig then MSDK_IGNORE_MFX_STS r MFX_WRN_PARTIAL_ACCELERATION else r)
              (log (EvSetup name r) s)).
Proof.
  intros Hr. unfold call.
  erewrite bind_val by reflexivity. erewrite bind_val by reflexivity.
  erewrite bind_val by reflexivity. norm.
  apply check_result_pass. unfold MSDK_IGNORE_MFX_STS.
  destruct ig; [|done]. destruct (_ =? _); [done | lia].
Qed.

(** A call of the set-up that fails: [main] returns its status. *)
Lemma call_fail name ig r s :
  r < MFX_ERR_NONE ->
  call name ig r s =
    Return r (log (EvPrintRetMsg r) (set_sts r (log (EvSetup name r) s))).
Proof.
  intros Hr. unfold call.
  erewrite bind_val by reflexivity. erewrite bind_val by reflexivity.
  erewrite bind_val by reflexivity. norm.
  assert (Hig : (if ig then MSDK_IGNORE_MFX_STS r MFX_WRN_PARTIAL_ACCELERATION else r) = r).
  { destruct ig; [|done]. unfold MSDK_IGNORE_MFX_STS.
    destruct (Z.eqb_spec MFX_WRN_PARTIAL_ACCELERATION r); [|done].
    unfold MFX_WRN_PARTIAL_ACCELERATION, MFX_ERR_NONE in *. lia. }
  rewrite Hig. by apply check_result_fail.
Qed.

(** The loop of lines 366 to 373 falls through when the buffers have bytes,
    and leaves [main] at its first turn when they have none. *)
Lemma prepare_tasks_ready len n s :
  (len =? 0) = false -> prepare_tasks len n s = Val tt s.
Proof.
  intros Hlen. induction n as [|n IH]; [done|]. simpl.
  unfold MSDK_CHECK_POINTER. rewrite Hlen. simpl. by erewrite bind_val by reflexivity.
Qed.

Lemma prepare_tasks_null len n s :
  (len =? 0) = true -> (0 < n)%nat ->
  prepare_tasks len n s = Return MFX_ERR_MEMORY_ALLOC s.
Proof.
  intros Hlen Hn. destruct n as [|n]; [lia|]. simpl.
  unfold MSDK_CHECK_POINTER. rewrite Hlen. simpl. by erewrite bind_return by reflexivity.
Qed.

Ltac main_step :=
  first
    [ erewrite bind_val by (apply call_pass; assumption)
    | erewrite bind_val by (apply check_result_pass; assumption)
    | erewrite bind_val by (apply prepare_tasks_ready; assumption)
    | erewrite bind_val by reflexivity ].

Section Main.
Context (o : CmdOptions) (su : setup) (w : env).

Lemma main_loops :
  ~ missing_option o -> files_open o su = true ->
  first_failure (checks su w) = None -> tasks_ready su = true ->
  main o su w =
    main_end o su
      (run (main_config su) (potential (loop_start o su w)) (loop_start o su w)).
Proof.
  intros Hopt Hfiles Hchecks Hready.
  unfold tasks_ready in Hready. apply negb_true_iff in Hready.
  apply first_failure_None in Hchecks. unfold checks in Hchecks.
  repeat match goal with H : Forall _ (_ :: _) |- _ =>
    apply Forall_cons in H as [? H] end.
  unfold files_open in Hfiles. apply andb_true_iff in Hfiles as [Hsrc Hsink].
  assert (Hb : (Bitrate o =? 0) = false) by (apply Z.eqb_neq; intros E; apply Hopt; by left).
  assert (Hn : (FrameRateN o =? 0) = false)
    by (apply Z.eqb_neq; intros E; apply Hopt; by right; left).
  assert (Hd : (FrameRateD o =? 0) = false)
    by (apply Z.eqb_neq; intros E; apply Hopt; by right; right; left).
  assert (Hs : nonempty (SourceName o) = true).
  { destruct (nonempty (SourceName o)) eqn:E; [done|]. exfalso. apply Hopt.
    by right; right; right. }
  unfold main, main_body. rewrite Hb, Hn, Hd, Hs, Hsrc. cbn [negb orb].
  assert (Hsink' : nonempty (SinkName o) = true -> open_sink su = true).
  { intros E. by rewrite E in Hsink. }
  assert (Hstart : forall s0, s0 = loop_start o su w ->
    match bind (transcode (nonempty (SinkName o)) (main_config su))
            (fun _ => bind (call "Release3DLutMemory" false (on_Release3DLutMemory su))
                        (fun _ => ret 0)) s0 with
    | Continue s | Break s => (0, s)
    | Val rc s | Return rc s => (rc, s)
    end = main_end o su (run (main_config su) (potential (loop_start o su w))
                           (loop_start o su w))).
  { intros s0 ->. unfold bind at 1. unfold transcode, main_end.
    set (s1 := to_file (nonempty (SinkName o))
                 (run (main_config su) (potential (loop_start o su w))
                    (loop_start o su w))).
    assert (Hrel : forall s2,
      match bind (call "Release3DLutMemory" false (on_Release3DLutMemory su))
              (fun _ => ret 0) s2 with
      | Continue s | Break s => (0, s)
      | Val rc s | Return rc s => (rc, s)
      end = (let r := on_Release3DLutMemory su in
             let s3 := set_sts r (log (EvSetup "Release3DLutMemory" r) s2) in
             if r <? MFX_ERR_NONE then (r, log (EvPrintRetMsg r) s3) else (0, s3))).
    { intros s2. cbv zeta.
      destruct (Z.ltb_spec (on_Release3DLutMemory su) MFX_ERR_NONE).
      - by erewrite bind_return by (by apply call_fail).
      - by erewrite bind_val by (by apply call_pass). }
    destruct (stage s1); try apply Hrel. reflexivity. }
  unfold loop_start, setup_trace in Hstart |- *.
  destruct (nonempty (SinkName o)); [rewrite (Hsink' eq_refl)|];
    do 30 (try main_step); apply Hstart; reflexivity.
Qed.

(** [main] never gets to its loops when a file does not open or a call of the
    set-up fails. *)
Lemma main_stops_early :
  ~ missing_option o ->
  let rc := (main o su w).1 in
  let s := (main o su w).2 in
  (open_source su = false ->
   rc = MFX_ERR_NULL_PTR /\
   trace s = [EvOpenFile (SourceName o) "rb" false]) /\
  (open_source su = true -> nonempty (SinkName o) = true -> open_sink su = false ->
   rc = MFX_ERR_NULL_PTR /\
   trace s = [EvOpenFile (SinkName o) "wb" false;
              EvOpenFile (SourceName o) "rb" true]) /\
  (forall e, files_open o su = true -> first_failure (checks su w) = Some e ->
   rc = e /\ Forall (fun ev => setup_call ev = true) (trace s) /\ sink s = [] /\
   hd (EvSleep 0) (trace s) = EvPrintRetMsg e) /\
  (files_open o su = true -> first_failure (checks su w) = None ->
   tasks_ready su = false -> (0 < taskPoolSize (main_config su))%nat ->
   rc = MFX_ERR_MEMORY_ALLOC /\ trace s = setup_trace o su w /\ sink s = [] /\
   stage s = Stage1).
Proof.
  intros Hopt rc s. subst rc s.
  assert (Hb : (Bitrate o =? 0) = false) by (apply Z.eqb_neq; intros E; apply Hopt; by left).
  assert (Hn : (FrameRateN o =? 0) = false)
    by (apply Z.eqb_neq; intros E; apply Hopt; by right; left).
  assert (Hd : (FrameRateD o =? 0) = false)
    by (apply Z.eqb_neq; intros E; apply Hopt; by right; right; left).
  assert (Hs : nonempty (SourceName o) = true).
  { destruct (nonempty (SourceName o)) eqn:E; [done|]. exfalso. apply Hopt.
    by right; right; right. }
  unfold main, main_body. rewrite Hb, Hn, Hd, Hs. cbn [negb orb].
  split; [|split; [|split]].
  - intros ->. do 3 (try main_step). by split.
  - intros -> -> ->. do 6 (try main_step). by split.
  - intros e Hfiles Hfail.
    unfold files_open in Hfiles. apply andb_true_iff in Hfiles as [Hsrc Hsink].
    rewrite Hsrc.
    assert (Hsink' : nonempty (SinkName o) = true -> open_sink su = true).
    { intros E. by rewrite E in Hsink. }
    unfold first_failure, checks, find in Hfail.
    destruct (nonempty (SinkName o)); [rewrite (Hsink' eq_refl)|].
    all: repeat match type of Hfail with
         | context [if ?r <? MFX_ERR_NONE then _ else _] =>
             destruct (Z.ltb_spec r MFX_ERR_NONE)
         end; try discriminate; injection Hfail as <-.
    all: do 30 (try main_step).
    all: first [ erewrite bind_return by (by apply call_fail)
               | erewrite bind_return by (by apply check_result_fail) ].
    all: split; [reflexivity|]; split; [by repeat constructor|]; by split.
  - intros Hfiles Hchecks Hready HN.
    unfold tasks_ready in Hready. apply negb_false_iff in Hready.
    apply first_failure_None in Hchecks. unfold checks in Hchecks.
    repeat match goal with H : Forall _ (_ :: _) |- _ =>
      apply Forall_cons in H as [? H] end.
    unfold files_open in Hfiles. apply andb_true_iff in Hfiles as [Hsrc Hsink].
    rewrite Hsrc.
    assert (Hsink' : nonempty (SinkName o) = true -> open_sink su = true).
    { intros E. by rewrite E in Hsink. }
    unfold setup_trace.
    destruct (nonempty (SinkName o)); [rewrite (Hsink' eq_refl)|].
    all: do 30 (try main_step).
    all: erewrite bind_return by (by apply prepare_tasks_null).
    all: by repeat split.
Qed.

End Main.

(** ** [main] through its loops *)

Section FromAnyState.
Context (cfg : config).

Lemma fifo_run_from n s k :
  (0 < taskPoolSize cfg)%nat -> fifo cfg s k -> exists k', fifo cfg (run cfg n s) k'.
Proof.
  intros HN HF. induction n as [|n [k' IH]]; [by exists k|].
  by apply (fifo_tick cfg _ k').
Qed.


Global Instance writes_on_preorder : PreOrder writes_on.
Proof.
  split; [intros s | intros s1 s2 s3 H1 H2]; unfold writes_on in *;
    [done | by etrans].
Qed.

Lemma suffix_tl {A} (l : list A) : tl l `suffix_of` l.
Proof. destruct l; [done|]. by apply suffix_cons_r. Qed.

Lemma enc_loop_writes surf i rs s :
  w_write (world (enc_loop surf i rs s)) = w_write (world s).
Proof.
  revert s. induction rs as [|r rs IH]; intros s; simpl.
  { done. }
  repeat case_match; try done; by rewrite IH.
Qed.

Lemma writes_on_run n s : writes_on s (run cfg n s).
Proof.
  apply respects_run; try typeclasses eauto.
  - intros s0 s1 (_&_&_&_&_&_&_&Hw&_). unfold writes_on. by rewrite Hw.
  - intros s0. unfold writes_on. run_driver; norm; first [reflexivity | apply suffix_tl].
  - intros surf i s0. unfold writes_on. simpl. by rewrite enc_loop_writes.
  - intros p s0. unfold writes_on. simpl. reflexivity.
Qed.

End FromAnyState.

Section Drained.
Context (cfg : config).

Lemma drained_tick s : drained s -> drained (tick cfg s).
Proof.
  intros [Hw Hd]. split.
  { pose proof (writes_on_run cfg 1 s) as [k Hk]. unfold run in Hk. simpl in Hk.
    rewrite Hk in Hw. by apply Forall_app in Hw as [_ Hw]. }
  intros Hdone.
  destruct (stage s) eqn:Hs;
    try (pose proof (tick_stage cfg s) as Ht; rewrite Hs in Ht; simpl in Ht;
         destruct Ht as [Ht|[Ht|(rc & _ & Ht)]]; congruence).
  - (* stage 5 *)
    revert Hdone. unfold tick. rewrite Hs. unfold iteration.
    destruct (stage5_cond s) eqn:Hc; [|done].
    assert (Hwr : hd MFX_ERR_NONE (w_write (world s)) = MFX_ERR_NONE).
    { destruct (w_write (world s)); [done|]. by inversion Hw. }
    pose proof (same_stage_flush cfg s) as Hsame. unfold same_stage in Hsame.
    revert Hsame. run_driver; bools; codes; norm; try congruence;
      rewrite ?Hs; try discriminate; try lia.
  - rewrite tick_final by (by rewrite Hs). by apply Hd.
  - rewrite tick_final in Hdone by (by rewrite Hs). congruence.
Qed.

Lemma drained_run n s : drained s -> drained (run cfg n s).
Proof. intros H. induction n as [|n IH]; [done|]. by apply drained_tick. Qed.

End Drained.

(** Without a sink only the sink differs. *)
Lemma to_file_same b s :
  stage (to_file b s) = stage s /\ trace (to_file b s) = trace s /\
  nFrame (to_file b s) = nFrame s /\ pTasks (to_file b s) = pTasks s /\
  nFirstSyncTask (to_file b s) = nFirstSyncTask s /\
  sink (to_file b s) = (if b then sink s else []).
Proof. by destruct b. Qed.

Section MainEnd.
Context (o : CmdOptions) (su : setup) (w : env).

Lemma main_missing_option : missing_option o -> (main o su w).1 = -1.
Proof.
  unfold missing_option, main, main_body, when, bind, printf, modify, return_, ret.
  intros H.
  destruct (Z.eqb_spec (Bitrate o) 0); [done|].
  destruct (Z.eqb_spec (FrameRateN o) 0); [done|].
  destruct (Z.eqb_spec (FrameRateD o) 0); [done|].
  destruct (nonempty (SourceName o)) eqn:Hs; [|done].
  exfalso. destruct H as [?|[?|[?|?]]]; congruence.
Qed.

Lemma missing_option_dec : missing_option o \/ ~ missing_option o.
Proof.
  unfold missing_option.
  destruct (Z.eq_dec (Bitrate o) 0); [tauto|].
  destruct (Z.eq_dec (FrameRateN o) 0); [tauto|].
  destruct (Z.eq_dec (FrameRateD o) 0); [tauto|].
  destruct (nonempty (SourceName o)); [|tauto].
  right. intros [?|[?|[?|?]]]; congruence.
Qed.

Lemma issued_setup_trace : issued (setup_trace o su w) = [].
Proof. unfold setup_trace. by destruct (nonempty (SinkName o)). Qed.

Lemma fifo_loop_start :
  (0 < taskPoolSize (main_config su))%nat ->
  fifo (main_config su) (loop_start o su w) 0.
Proof.
  intros HN.
  apply (fifo_core (main_config su)
           (init (main_config su) (set_w_read (tl (w_read w)) w))); try done.
  - unfold loop_start, init. cbn [trace]. by rewrite issued_setup_trace.
  - by apply fifo_init.
Qed.

(** The state the loops leave: over, with a pool in order. *)
Lemma loops_end :
  (0 < taskPoolSize (main_config su))%nat ->
  let s1 := run (main_config su) (potential (loop_start o su w)) (loop_start o su w) in
  (stage s1 = Done \/ exists rc, rc < MFX_ERR_NONE /\ stage s1 = Aborted rc) /\
  exists k, fifo (main_config su) s1 k.
Proof.
  intros HN s1. split.
  - pose proof (run_final (main_config su) (potential (loop_start o su w))
                  (loop_start o su w) 0%nat HN
                  (fifo_loop_start HN) (Nat.le_refl _)) as Hfin.
    fold s1 in Hfin. destruct (stage s1) eqn:Hs; simpl in Hfin; try done; [by left|].
    right. exists rc. split; [|done].
    destruct (run_abort_negative _ _ _ _ Hs) as [H|H]; [discriminate H | done].
  - apply (fifo_run_from _ _ _ 0%nat); [exact HN | by apply fifo_loop_start].
Qed.

Lemma main_end_code s :
  (stage s = Done \/ exists rc, rc < MFX_ERR_NONE /\ stage s = Aborted rc) ->
  (main_end o su s).1 <= 0 /\
  ((main_end o su s).1 = 0 ->
   stage s = Done /\ MFX_ERR_NONE <= on_Release3DLutMemory su /\
   stage (main_end o su s).2 = Done).
Proof.
  unfold main_end. cbv zeta.
  destruct (to_file_same (nonempty (SinkName o)) s) as (-> & _).
  intros [Hs|(rc & Hrc & Hs)]; rewrite Hs.
  - cbv zeta. destruct (Z.ltb_spec (on_Release3DLutMemory su) MFX_ERR_NONE); simpl.
    + split; [unfold MFX_ERR_NONE in *; lia|]. unfold MFX_ERR_NONE in *. lia.
    + split; [done|]. intros _. repeat split; try done.
      by destruct (to_file_same (nonempty (SinkName o)) s) as (-> & _).
  - simpl. split; [unfold MFX_ERR_NONE in *; lia|]. unfold MFX_ERR_NONE in *. lia.
Qed.

(** The end of [main] leaves the sink, the tasks and the frame counter as the
    loops have left them, the sink when there is one. *)
Lemma main_end_same s :
  sink (main_end o su s).2 = (if nonempty (SinkName o) then sink s else []) /\
  issued (trace (main_end o su s).2) = issued (trace s) /\
  written (trace (main_end o su s).2) = written (trace s) /\
  nFrame (main_end o su s).2 = nFrame s.
Proof.
  unfold main_end. cbv zeta.
  destruct (to_file_same (nonempty (SinkName o)) s) as (Hst & Htr & Hn & _ & _ & Hsk).
  rewrite Hst. destruct (stage s); cbv zeta;
    try (destruct (_ <? _)); simpl; rewrite ?Htr, ?Hn, ?Hsk; by repeat split.
Qed.

End MainEnd.

Lemma allowed_loop_call p ev : allowed p ev = true -> loop_call ev = true.
Proof. destruct ev, p; simpl; done. Qed.

Lemma adds_loop_run cfg n s : adds loop_call s (run cfg n s).
Proof.
  induction n as [|n IH]; [reflexivity|].
  etrans; [exact IH|]. simpl.
  destruct (tick_adds cfg (run cfg n s)) as (evs & Ht & Hev).
  exists evs. split; [exact Ht|].
  eapply Forall_impl; [exact Hev|]. intros ev. apply allowed_loop_call.
Qed.

Lemma main_end_trace o su s :
  trace (main_end o su s).2 = closing_calls su (stage s) ++ trace s /\
  stage (main_end o su s).2 = stage s /\
  (forall rc, stage s = Aborted rc -> (main_end o su s).1 = rc).
Proof.
  unfold main_end, closing_calls. cbv zeta.
  destruct (to_file_same (nonempty (SinkName o)) s) as (Hst & Htr & _).
  rewrite Hst.
  destruct (stage s) eqn:Hs; cbv zeta;
    try (destruct (_ <? _); simpl; rewrite ?Htr, ?Hst, ?Hs; repeat split; try done;
         intros; discriminate).
  simpl. rewrite ?Htr, ?Hst, ?Hs. repeat split; try done. by intros ? [= <-].
Qed.

(** ** Two turns: the answer, then the loop test *)

Section TwoTurns.
Context (cfg : config).

(** A negative status at the loop test, other than the ones the loop goes on
    with: the run leaves the loop. *)
Lemma tick_on_error s :
  (2 <= rank (stage s))%nat -> sts s < MFX_ERR_NONE ->
  (sts s = MFX_ERR_MORE_DATA -> stage s = Stage2 \/ stage s = Stage4) ->
  (sts s = MFX_ERR_MORE_SURFACE -> stage s = Stage4) ->
  tick cfg s = leave_stage (next_phase (stage s)) s.
Proof.
  intros Hr Hneg Hmd Hms. apply tick_leaves; [|done].
  unfold loop_cond, stage1_cond, stage2_cond, stage3_cond, stage4_cond.
  destruct (stage s); simpl in Hr; try lia.
  all: destruct (Z.leb_spec MFX_ERR_NONE (sts s)); [lia|].
  all: destruct (Z.eqb_spec MFX_ERR_MORE_DATA (sts s)) as [E|E];
    [symmetry in E; destruct (Hmd E); discriminate || (try done)|].
  all: destruct (Z.eqb_spec MFX_ERR_MORE_SURFACE (sts s)) as [E'|E'];
    [symmetry in E'; specialize (Hms E'); discriminate || (try done)|]; done.
Qed.

End TwoTurns.

Section WorkTurn.
Context (cfg : config).

Lemma work_turn s :
  about_to_work cfg s = true ->
  let idx := GetFreeTaskIndex (pTasks s) (taskPoolSize cfg) in
  (stage s = Stage1 -> tick cfg s = settle (leave_stage Stage2) (stage1_work cfg idx s)) /\
  (stage s = Stage2 -> tick cfg s = settle (leave_stage Stage3) (stage2_work cfg idx s)) /\
  (stage s = Stage3 -> tick cfg s = settle (leave_stage Stage4) (stage3_work cfg idx s)) /\
  (stage s = Stage4 -> tick cfg s = settle (leave_stage Stage5) (stage4_work idx s)).
Proof.
  intros Hw idx. destruct (tick_works cfg s Hw) as (work & next & Ht & Hcase).
  fold idx in Ht.
  destruct Hcase as [H|[H|[H|H]]]; destruct H as (Hs & Hwk & Hnx); subst work next;
    repeat split; intros Hs'; congruence.
Qed.

Lemma about_to_work_free s :
  about_to_work cfg s = true ->
  GetFreeTaskIndex (pTasks s) (taskPoolSize cfg) <> MFX_ERR_NOT_FOUND /\
  loop_cond s = true.
Proof.
  unfold about_to_work. destruct (stage s); try done; intros H;
    apply andb_true_iff in H as [Hc H]; apply negb_true_iff in H;
    apply Z.eqb_neq in H; (split; [congruence | done]).
Qed.

End WorkTurn.

Section Errors.
Context (cfg : config).

(** The VPP fails on a decoded frame: the loop of stage 1 or 2 is left. *)
Lemma vpp_fails s idx :
  next_scan (nSurfNumVPPEnc cfg) (w_pool2 (world s)) <> MFX_ERR_NOT_FOUND ->
  r_sts (hd exhausted (w_vpp (world s))) < MFX_ERR_NONE ->
  r_sts (hd exhausted (w_vpp (world s))) <> MFX_ERR_MORE_DATA ->
  vpp_and_encode cfg idx s =
    Break (set_sts (r_sts (hd exhausted (w_vpp (world s))))
             (log (EvVPP false (next_scan (nSurfNumVPPEnc cfg) (w_pool2 (world s)))
                     (hd exhausted (w_vpp (world s))))
                (set_world (set_w_vpp (tl (w_vpp (world s)))
                              (set_w_pool2 (tl (w_pool2 (world s))) (world s))) s))).
Proof.
  unfold next_scan. intros Hp Hr Hmd.
  destruct (w_vpp (world s)) as [|r rs] eqn:E; [done|]. simpl hd in *. simpl tl.
  unfold vpp_and_encode, bind, find_pSurfaces2, MSDK_CHECK_ERROR,
    RunFrameVPPAsync_loop, gets, break_, modify, return_, ret, MSDK_BREAK_ON_ERROR.
  norm.
  destruct (Z.eqb_spec (GetFreeSurfaceIndex
    (hd (replicate (nSurfNumVPPEnc cfg) (MkSurface 0)) (w_pool2 (world s)))
    (nSurfNumVPPEnc cfg)) MFX_ERR_NOT_FOUND) as [|_]; [done|].
  norm. rewrite E. rewrite vpp_loop_final by lia. norm.
  repeat (split_if; simpl); bools; codes; try lia; try congruence; reflexivity.
Qed.

(** The VPP hands a frame back and the encoder fails, in stage 3. *)
Lemma stage3_encode_fails s idx v vs r rs :
  next_scan (nSurfNumVPPEnc cfg) (w_pool2 (world s)) <> MFX_ERR_NOT_FOUND ->
  w_vpp (world s) = v :: vs -> r_sts v = MFX_ERR_NONE ->
  w_enc (world s) = r :: rs -> e_sts r < MFX_ERR_NONE -> e_sts r <> MFX_ERR_MORE_DATA ->
  let i2 := next_scan (nSurfNumVPPEnc cfg) (w_pool2 (world s)) in
  exists s',
    stage3_work cfg idx s = Val tt s' /\
    sts s' = e_sts r /\ stage s' = stage s /\ sink s' = sink s /\
    pTasks s' = <[Z.to_nat idx := MkTask (e_bs r) (e_syncp r)]> (pTasks s) /\
    trace s' = EvEncode (Some i2) (Z.to_nat idx) r :: EvVPP true i2 v :: trace s.
Proof.
  intros Hp Hv Hvs He Hes Hmd i2. subst i2. unfold next_scan in *.
  unfold stage3_work, bind, find_pSurfaces2, MSDK_CHECK_ERROR,
    RunFrameVPPAsync_loop, EncodeFrameAsync_loop, gets, break_, modify, return_, ret,
    MSDK_BREAK_ON_ERROR, continue_.
  norm.
  destruct (Z.eqb_spec (GetFreeSurfaceIndex
    (hd (replicate (nSurfNumVPPEnc cfg) (MkSurface 0)) (w_pool2 (world s)))
    (nSurfNumVPPEnc cfg)) MFX_ERR_NOT_FOUND) as [|_]; [done|].
  norm. rewrite Hv. rewrite vpp_loop_final by lia. norm. rewrite Hvs.
  change (MFX_ERR_MORE_SURFACE =? MFX_ERR_NONE) with false.
  change (MFX_ERR_NONE =? MFX_ERR_NONE) with true. cbv iota.
  unfold ret. cbv beta iota. norm.
  rewrite He. rewrite enc_loop_final by lia. norm.
  destruct (Z.eqb_spec MFX_ERR_MORE_DATA (e_sts r)); [congruence|].
  eexists. split; [reflexivity|]. by repeat split.
Qed.

(** The VPP hands a frame back and the encoder fails, in stages 1 and 2. *)
Lemma encode_fails s idx v vs r rs :
  next_scan (nSurfNumVPPEnc cfg) (w_pool2 (world s)) <> MFX_ERR_NOT_FOUND ->
  w_vpp (world s) = v :: vs -> r_sts v = MFX_ERR_NONE ->
  w_enc (world s) = r :: rs -> e_sts r < MFX_ERR_NONE -> e_sts r <> MFX_ERR_MORE_DATA ->
  let i2 := next_scan (nSurfNumVPPEnc cfg) (w_pool2 (world s)) in
  exists s',
    vpp_and_encode cfg idx s = Val tt s' /\
    sts s' = e_sts r /\ stage s' = stage s /\ sink s' = sink s /\
    pTasks s' = <[Z.to_nat idx := MkTask (e_bs r) (e_syncp r)]> (pTasks s) /\
    trace s' = EvEncode (Some i2) (Z.to_nat idx) r :: EvVPP false i2 v :: trace s.
Proof.
  intros Hp Hv Hvs He Hes Hmd i2. subst i2. unfold next_scan in *.
  unfold vpp_and_encode, bind, find_pSurfaces2, MSDK_CHECK_ERROR,
    RunFrameVPPAsync_loop, EncodeFrameAsync_loop, gets, break_, modify, return_, ret,
    MSDK_BREAK_ON_ERROR, continue_.
  norm.
  destruct (Z.eqb_spec (GetFreeSurfaceIndex
    (hd (replicate (nSurfNumVPPEnc cfg) (MkSurface 0)) (w_pool2 (world s)))
    (nSurfNumVPPEnc cfg)) MFX_ERR_NOT_FOUND) as [|_]; [done|].
  norm. rewrite Hv. rewrite vpp_loop_final by lia. norm. rewrite Hvs.
  change (MFX_ERR_MORE_DATA =? MFX_ERR_NONE) with false.
  change (MFX_ERR_MORE_SURFACE =? MFX_ERR_NONE) with false.
  change (MFX_ERR_NONE =? MFX_ERR_NONE) with true. cbv iota.
  unfold ret. cbv beta iota. norm.
  rewrite He. rewrite enc_loop_final by lia. norm.
  destruct (Z.eqb_spec MFX_ERR_MORE_DATA (e_sts r)); [congruence|].
  eexists. split; [reflexivity|]. by repeat split.
Qed.

(** The decoder hands a frame back in stage 1: the frame goes to the VPP. *)
Lemma stage1_frame s idx :
  (sts s = MFX_ERR_MORE_DATA -> hd MFX_ERR_MORE_DATA (w_read (world s)) = MFX_ERR_NONE) ->
  (sts s <= MFX_ERR_NONE ->
   next_scan (nSurfNumDecVPP cfg) (w_pool (world s)) <> MFX_ERR_NOT_FOUND) ->
  MFX_ERR_NONE <= sts s \/ sts s = MFX_ERR_MORE_DATA \/ sts s = MFX_ERR_MORE_SURFACE ->
  gives_frame (hd exhausted (w_dec (world s))) = true ->
  exists s0,
    stage1_work cfg idx s = vpp_and_encode cfg idx s0 /\
    trace s0 = EvDecode false (decode_surface cfg s) (hd exhausted (w_dec (world s)))
                 :: decode_prelude s ++ trace s /\
    w_pool2 (world s0) = w_pool2 (world s) /\ w_vpp (world s0) = w_vpp (world s) /\
    w_enc (world s0) = w_enc (world s) /\
    pTasks s0 = pTasks s /\ sink s0 = sink s /\ stage s0 = stage s.
Proof.
  unfold next_scan, decode_surface, decode_prelude, gives_frame.
  intros Hread Hscan Hsts Hd.
  unfold stage1_work. remember (vpp_and_encode cfg idx) as VE eqn:HVE.
  unfold bind, gets, when, modify, ret, MSDK_SLEEP, ReadBitStreamData,
    MSDK_BREAK_ON_ERROR, find_pSurfaces, MSDK_CHECK_ERROR, DecodeFrameAsync,
    break_, return_.
  simpl; repeat (split_if; simpl); bools; codes; try lia; try congruence;
    try (exfalso; apply Hscan; [lia | congruence]).
  all: try (specialize (Hread ltac:(lia)); rewrite ?Hread in *; try lia).
  all: try (eexists; split; [reflexivity|]; norm; repeat (split_if; simpl); bools; codes;
    try lia; by repeat split).
Qed.

Lemma stage2_frame s idx :
  next_scan (nSurfNumDecVPP cfg) (w_pool (world s)) <> MFX_ERR_NOT_FOUND ->
  gives_frame (hd exhausted (w_dec (world s))) = true ->
  exists s0,
    stage2_work cfg idx s = vpp_and_encode cfg idx s0 /\
    trace s0 = EvDecode true (next_scan (nSurfNumDecVPP cfg) (w_pool (world s)))
                 (hd exhausted (w_dec (world s)))
                 :: (if MFX_WRN_DEVICE_BUSY =? sts s then [EvSleep 1] else [])
                 ++ trace s /\
    w_pool2 (world s0) = w_pool2 (world s) /\ w_vpp (world s0) = w_vpp (world s) /\
    w_enc (world s0) = w_enc (world s) /\
    pTasks s0 = pTasks s /\ sink s0 = sink s /\ stage s0 = stage s.
Proof.
  unfold next_scan, gives_frame. intros Hscan Hd.
  unfold stage2_work. remember (vpp_and_encode cfg idx) as VE eqn:HVE.
  unfold bind, gets, when, modify, ret, MSDK_SLEEP,
    MSDK_BREAK_ON_ERROR, find_pSurfaces, MSDK_CHECK_ERROR, DecodeFrameAsync,
    break_, return_.
  simpl; repeat (split_if; simpl); bools; codes; try lia; try congruence.
  all: try (eexists; split; [reflexivity|]; norm; by repeat split).
Qed.

End Errors.
(** ** The rest of [main] *)

(** X1. With a pool of one task at least, the exit code of [main] is never
    positive: it is 0, or the negative code of what went wrong.  It is 0
    exactly when no mandatory option is missing, the files are open, no call
    of the set-up has failed, the buffers of the tasks have bytes (line 372),
    the five loops have come to their end, and [Release3DLutMemory] has not
    failed. *)
Theorem main_exit_code (o : CmdOptions) (su : setup) (w : env) :
  (0 < taskPoolSize (main_config su))%nat ->
  (main o su w).1 <= 0 /\
  ((main o su w).1 = 0 <->
   ~ missing_option o /\ files_open o su = true /\
   first_failure (checks su w) = None /\ tasks_ready su = true /\
   stage (main o su w).2 = Done /\
   MFX_ERR_NONE <= on_Release3DLutMemory su).
Proof.
  intros HN.
  destruct (missing_option_dec o) as [Hm|Hm].
  { rewrite (main_missing_option o su w Hm). split; [lia|].
    split; [discriminate | tauto]. }
  destruct (main_stops_early o su w Hm) as (Hsrc & Hsink & Hfail & Hmem).
  destruct (files_open o su) eqn:Hfiles.
  2:{ unfold files_open in Hfiles. destruct (open_source su) eqn:E1.
      - destruct (nonempty (SinkName o)) eqn:E2; [|done].
        destruct (open_sink su) eqn:E3; [done|].
        destruct (Hsink eq_refl eq_refl eq_refl) as [-> _].
        split; [done|]. split; [discriminate|]. by intros (_ & ? & _).
      - destruct (Hsrc eq_refl) as [-> _].
        split; [done|]. split; [discriminate|]. by intros (_ & ? & _). }
  destruct (first_failure (checks su w)) as [e|] eqn:Hchecks.
  { destruct (Hfail e eq_refl eq_refl) as [-> _].
    apply first_failure_Some in Hchecks as [He _]. unfold MFX_ERR_NONE in He.
    split; [lia|]. split; [lia|]. by intros (_ & _ & ? & _). }
  destruct (tasks_ready su) eqn:Hready.
  2:{ destruct (Hmem eq_refl eq_refl eq_refl HN) as [-> _].
      split; [done|]. split; [discriminate|]. by intros (_ & _ & _ & ? & _). }
  rewrite (main_loops o su w Hm Hfiles Hchecks Hready).
  destruct (loops_end o su w HN) as [Hend _].
  set (s1 := run _ _ _) in *.
  destruct (main_end_code o su s1 Hend) as [Hle Hzero].
  destruct (main_end_trace o su s1) as (_ & Hst & _).
  split; [exact Hle|]. split.
  - intros Hrc. destruct (Hzero Hrc) as (Hd & Hr & Hd'). by repeat split.
  - intros (_ & _ & _ & _ & Hd & Hr). rewrite Hst in Hd.
    unfold main_end. cbv zeta.
    destruct (to_file_same (nonempty (SinkName o)) s1) as (-> & _). rewrite Hd.
    by destruct (Z.ltb_spec (on_Release3DLutMemory su) MFX_ERR_NONE); [lia|].
Qed.

Lemma main_exit_code_witness :
  (0 < taskPoolSize (main_config sample_setup))%nat /\
  (main good_options sample_setup three_frames_file).1 = 0 /\
  stage (main good_options sample_setup three_frames_file).2 = Done /\
  sink (main good_options sample_setup three_frames_file).2 = [[11]; [22]; [33]].
Proof.
  assert (HN : (0 < taskPoolSize (main_config sample_setup))%nat)
    by (vm_compute; lia).
  assert (H : (main good_options sample_setup three_frames_file).1 = 0)
    by (vm_compute; reflexivity).
  destruct (main_exit_code good_options sample_setup three_frames_file HN) as [_ Hz].
  destruct (proj1 Hz H) as (_ & _ & _ & _ & Hd & _).
  split; [exact HN|]. split; [exact H|]. split; [exact Hd|]. vm_compute. reflexivity.
Defined.

(** X2. When a call of the set-up fails ([Initialize], the first read of the
    source, [DecodeHeader], the three [QueryIOSurf], [Create3DLutMemory], the
    three [Init], [GetVideoParam]), [main] returns the status of the first
    call that failed, after printing it; it has made only calls of the
    set-up, and nothing is written.  Warnings do not count as failures. *)
Theorem setup_failure_returns_its_status (o : CmdOptions) (su : setup) (w : env)
    (e : mfxStatus) :
  ~ missing_option o -> files_open o su = true ->
  first_failure (checks su w) = Some e ->
  (main o su w).1 = e /\ e < MFX_ERR_NONE /\
  Forall (fun ev => setup_call ev = true) (trace (main o su w).2) /\
  hd (EvSleep 0) (trace (main o su w).2) = EvPrintRetMsg e /\
  sink (main o su w).2 = [].
Proof.
  intros Hm Hfiles Hchecks.
  destruct (main_stops_early o su w Hm) as (_ & _ & Hfail & _).
  destruct (Hfail e Hfiles Hchecks) as (H1 & H2 & H3 & H4).
  apply first_failure_Some in Hchecks as [He _]. by repeat split.
Qed.

Lemma setup_failure_returns_its_status_witness :
  ~ missing_option good_options /\ files_open good_options failing_setup = true /\
  first_failure (checks failing_setup three_frames_file) = Some (-3) /\
  (main good_options failing_setup three_frames_file).1 = -3.
Proof.
  assert (H1 : ~ missing_option good_options).
  { intros [H|[H|[H|H]]]; discriminate H. }
  assert (H2 : files_open good_options failing_setup = true) by reflexivity.
  assert (H3 : first_failure (checks failing_setup three_frames_file) = Some (-3))
    by reflexivity.
  destruct (setup_failure_returns_its_status good_options failing_setup
              three_frames_file (-3) H1 H2 H3) as [Hrc _].
  split; [exact H1|]. split; [exact H2|]. split; [exact H3 | exact Hrc].
Defined.

(** X3. [main] opens the source first and the sink second, the sink only when
    its name is not empty; when a file does not open, [main] returns
    [MFX_ERR_NULL_PTR] at once: it prints nothing and calls nothing of the
    SDK. *)
Theorem files_that_do_not_open (o : CmdOptions) (su : setup) (w : env) :
  ~ missing_option o ->
  (open_source su = false ->
   (main o su w).1 = MFX_ERR_NULL_PTR /\
   trace (main o su w).2 = [EvOpenFile (SourceName o) "rb" false]) /\
  (open_source su = true -> nonempty (SinkName o) = true -> open_sink su = false ->
   (main o su w).1 = MFX_ERR_NULL_PTR /\
   trace (main o su w).2
     = [EvOpenFile (SinkName o) "wb" false; EvOpenFile (SourceName o) "rb" true]).
Proof.
  intros Hm. destruct (main_stops_early o su w Hm) as (Hsrc & Hsink & _).
  split; [exact Hsrc | exact Hsink].
Qed.

Lemma files_that_do_not_open_witness :
  ~ missing_option good_options /\
  (main good_options
     (MkSetup false true 0 0 0 0 0 0 0 0 0 0 0 2 2 2 2 AsyncDepth AsyncDepth 1)
     three_frames_file).1 = MFX_ERR_NULL_PTR.
Proof.
  assert (H1 : ~ missing_option good_options).
  { intros [H|[H|[H|H]]]; discriminate H. }
  destruct (files_that_do_not_open good_options
              (MkSetup false true 0 0 0 0 0 0 0 0 0 0 0 2 2 2 2 AsyncDepth AsyncDepth 1)
              three_frames_file H1)
    as [Hsrc _].
  destruct (Hsrc eq_refl) as [Hrc _].
  split; [exact H1 | exact Hrc].
Defined.

(** X4. When the options are there, the files open, no call of the set-up
    fails and the pool has one task at least, the calls [main] records are
    in three parts: the calls of the set-up, once each and in the order of
    the source; then calls of the five loops only; then
    [Release3DLutMemory], which is called exactly when the loops were not
    aborted (a run that is aborted returns its code without releasing the 3D
    LUT memory).  When the buffers of the tasks have no bytes, [main] stops
    after the set-up: it returns [MFX_ERR_MEMORY_ALLOC], without a message,
    a turn of a loop or the release. *)
Theorem main_call_order (o : CmdOptions) (su : setup) (w : env) :
  ~ missing_option o -> files_open o su = true ->
  first_failure (checks su w) = None ->
  (0 < taskPoolSize (main_config su))%nat ->
  let s := (main o su w).2 in
  (tasks_ready su = false ->
   (main o su w).1 = MFX_ERR_MEMORY_ALLOC /\ trace s = setup_trace o su w /\
   sink s = []) /\
  (tasks_ready su = true ->
   exists loops,
     trace s = closing_calls su (stage s) ++ loops ++ setup_trace o su w /\
     Forall (fun ev => loop_call ev = true) loops /\
     (forall rc, stage s = Aborted rc -> (main o su w).1 = rc /\ rc < MFX_ERR_NONE)).
Proof.
  intros Hm Hfiles Hchecks HN s. subst s. split.
  { intros Hready.
    destruct (main_stops_early o su w Hm) as (_ & _ & _ & Hmem).
    destruct (Hmem Hfiles Hchecks Hready HN) as (H1 & H2 & H3 & _). by repeat split. }
  intros Hready.
  rewrite (main_loops o su w Hm Hfiles Hchecks Hready).
  set (s0 := loop_start o su w). set (s1 := run (main_config su) (potential s0) s0).
  destruct (main_end_trace o su s1) as (Ht & Hst & Hab).
  destruct (adds_loop_run (main_config su) (potential s0) s0) as (loops & Hl & Hev).
  fold s1 in Hl. exists loops. rewrite Ht, Hst, Hl. split; [done|]. split; [done|].
  intros rc Hrc. split; [by apply Hab|].
  destruct (run_abort_negative _ _ _ _ Hrc) as [H|H]; [discriminate H | done].
Qed.

Lemma main_call_order_witness :
  ~ missing_option good_options /\ files_open good_options sample_setup = true /\
  first_failure (checks sample_setup three_frames_file) = None /\
  (0 < taskPoolSize (main_config sample_setup))%nat /\
  tasks_ready sample_setup = true /\
  exists loops,
    trace (main good_options sample_setup three_frames_file).2
      = closing_calls sample_setup
          (stage (main good_options sample_setup three_frames_file).2)
        ++ loops ++ setup_trace good_options sample_setup three_frames_file /\
    Forall (fun ev => loop_call ev = true) loops.
Proof.
  assert (H1 : ~ missing_option good_options).
  { intros [H|[H|[H|H]]]; discriminate H. }
  assert (H2 : files_open good_options sample_setup = true) by reflexivity.
  assert (H3 : first_failure (checks sample_setup three_frames_file) = None)
    by reflexivity.
  assert (H4 : (0 < taskPoolSize (main_config sample_setup))%nat)
    by (vm_compute; lia).
  assert (H5 : tasks_ready sample_setup = true) by reflexivity.
  destruct (main_call_order good_options sample_setup three_frames_file H1 H2 H3 H4)
    as [_ Hloops].
  destruct (Hloops H5) as (loops & Ht & Hl & _).
  split; [exact H1|]. split; [exact H2|]. split; [exact H3|]. split; [exact H4|].
  split; [exact H5|]. exists loops. split; [exact Ht | exact Hl].
Defined.

(** X5. Whenever [main] gets to its loops with a pool of one task at least,
    the frames the writer has accepted are a prefix of the encode operations
    issued, in the order of their issue; at most [taskPoolSize] operations
    (the [AsyncDepth] that line 363 reads) are issued and not written, and
    [nFrame] is the number of frames written.  The sink holds these frames
    when a sink was asked for, and nothing when the name of the sink is
    empty.  When [main] returns 0 and every write has reported
    [MFX_ERR_NONE], every frame the encoder has produced has been
    written. *)
Theorem main_writes_every_frame (o : CmdOptions) (su : setup) (w : env) :
  ~ missing_option o -> files_open o su = true ->
  first_failure (checks su w) = None -> tasks_ready su = true ->
  (0 < taskPoolSize (main_config su))%nat ->
  let s := (main o su w).2 in
  let frames := written (trace s) in
  frames = take (length frames) (issued (trace s)) /\
  (length (issued (trace s)) <= length frames + taskPoolSize (main_config su))%nat /\
  nFrame s = Z.of_nat (length frames) mod 2 ^ 32 /\
  sink s = (if nonempty (SinkName o) then frames else []) /\
  ((main o su w).1 = 0 ->
   Forall (fun r => r = MFX_ERR_NONE) (w_write w) ->
   frames = issued (trace s)).
Proof.
  intros Hm Hfiles Hchecks Hready HN s frames. subst s frames.
  rewrite (main_loops o su w Hm Hfiles Hchecks Hready).
  set (s0 := loop_start o su w). set (s1 := run (main_config su) (potential s0) s0).
  destruct (loops_end o su w HN) as [Hend [k HF]]. fold s0 s1 in Hend, HF.
  destruct (main_end_same o su s1) as (Hsink & -> & -> & ->).
  assert (Hwr : sink s1 = written (trace s1)).
  { destruct (evolves_run (main_config su) (potential s0) s0) as (_ & evs & Ht & Hs & _).
    fold s1 in Ht, Hs. rewrite Ht, Hs, written_app.
    unfold s0, loop_start, setup_trace. cbn [sink trace].
    by destruct (nonempty (SinkName o)). }
  rewrite Hsink, <- Hwr.
  split; [by apply (fifo_prefix (main_config su) s1 k)|]. split.
  { rewrite (fifo_count (main_config su) s1 k HF).
    pose proof (fifo_k _ _ _ HF) as Hk. lia. }
  split.
  { apply (keeps_count_run (main_config su) (potential s0) s0). reflexivity. }
  split; [done|].
  intros Hrc Hw. destruct (main_end_code o su s1 Hend) as [_ Hz].
  destruct (Hz Hrc) as (Hd & _).
  assert (Hdr : drained s1).
  { apply drained_run. split; [exact Hw | discriminate]. }
  apply (fifo_drained (main_config su) s1 k); [exact HN | done |].
  by apply Hdr.
Qed.

Lemma main_writes_every_frame_witness :
  ~ missing_option good_options /\ files_open good_options sample_setup = true /\
  first_failure (checks sample_setup three_frames_file) = None /\
  tasks_ready sample_setup = true /\
  (0 < taskPoolSize (main_config sample_setup))%nat /\
  nFrame (main good_options sample_setup three_frames_file).2 = 3 /\
  written (trace (main good_options sample_setup three_frames_file).2)
    = issued (trace (main good_options sample_setup three_frames_file).2) /\
  sink (main good_options sample_setup three_frames_file).2 = [[11]; [22]; [33]] /\
  sink (main (MkOptions 2000 30 1 "in.h265" EmptyString) sample_setup
          three_frames_file).2 = [].
Proof.
  assert (H1 : ~ missing_option good_options).
  { intros [H|[H|[H|H]]]; discriminate H. }
  assert (H2 : files_open good_options sample_setup = true) by reflexivity.
  assert (H3 : first_failure (checks sample_setup three_frames_file) = None)
    by reflexivity.
  assert (H4 : tasks_ready sample_setup = true) by reflexivity.
  assert (H5 : (0 < taskPoolSize (main_config sample_setup))%nat)
    by (vm_compute; lia).
  destruct (main_writes_every_frame good_options sample_setup three_frames_file
              H1 H2 H3 H4 H5) as (_ & _ & _ & _ & Hall).
  split; [exact H1|]. split; [exact H2|]. split; [exact H3|]. split; [exact H4|].
  split; [exact H5|]. split; [vm_compute; reflexivity|].
  split; [apply Hall; [vm_compute; reflexivity | constructor]|].
  split; vm_compute; reflexivity.
Defined.

(** X6. In every run of the loops [nFrame] is the number of frames in the
    sink, as an [mfxU32]: it is incremented exactly when a write has reported
    [MFX_ERR_NONE]. *)
Theorem frame_counter_counts_written_frames (cfg : config) (w : env) (n : nat) :
  let s := run cfg n (init cfg w) in
  nFrame s = Z.of_nat (length (sink s)) mod 2 ^ 32 /\
  length (sink s) = length (written (trace s)).
Proof.
  intros s. split.
  - apply (keeps_count_run cfg n (init cfg w)). reflexivity.
  - destruct (evolves_run cfg n (init cfg w)) as (_ & evs & Ht & Hs & _).
    fold s in Ht, Hs. simpl in Ht, Hs. rewrite app_nil_r in Ht. by rewrite Ht, Hs.
Qed.

(** X7. A turn of the loops leaves the phase as it is, moves to the phase that
    follows, or aborts with a negative code: no run goes back to an earlier
    stage or skips one, and a run that is done or aborted stays so. *)
Theorem stages_never_go_back (cfg : config) (s : state) :
  (stage (tick cfg s) = stage s \/ stage (tick cfg s) = next_phase (stage s) \/
   exists rc, rc < MFX_ERR_NONE /\ stage (tick cfg s) = Aborted rc) /\
  (forall n m, (n <= m)%nat ->
     (position (stage (run cfg n s)) <= position (stage (run cfg m s)))%nat) /\
  (final (stage s) -> forall n, run cfg n s = s).
Proof.
  split; [apply tick_stage|]. split; [intros n m; apply run_position|].
  intros Hf n. by apply run_fixed.
Qed.

(** X8. Each phase makes only its own calls: stage 1 alone reads the source
    and gives the decoder a bit stream; stage 2 gives it a null one; stages 1
    and 2 give the VPP a decoded frame, stage 3 a null one; stages 1 to 3
    give the encoder a surface, stage 4 a null one; stage 5 only waits and
    writes; every sleep is of 1 ms and every wait of 60000 ms; a run that is
    done or aborted calls nothing. *)
Theorem each_phase_makes_its_own_calls (cfg : config) (s : state) :
  exists evs,
    trace (tick cfg s) = evs ++ trace s /\
    Forall (fun ev => allowed (stage s) ev = true) evs.
Proof. apply tick_adds. Qed.

(** X9. In every run of the loops the source is read before any stage is
    drained: no call that drains a stage (a null bit stream to the decoder, a
    null frame to the VPP, a null surface to the encoder) is older than a
    read of the source. *)
Theorem source_is_read_before_draining (cfg : config) (w : env) (n : nat)
    (newer older : list event) (ev : event) :
  trace (run cfg n (init cfg w)) = newer ++ ev :: older ->
  reads ev = true ->
  Forall (fun e => drains e = false) older.
Proof.
  intros Ht Hev.
  apply (reads_first_split (trace (run cfg n (init cfg w))) newer ev older);
    [|done..].
  apply reads_first_run; [done | constructor].
Qed.

(** X10. The end of a stream moves the run to the next stage, with the status
    back to [MFX_ERR_NONE] and nothing written: in stage 1 when the reader
    answers [MFX_ERR_MORE_DATA] (one turn); in stage 2 when the decoder does
    (the turn of the call, then the loop test); in stage 3 when the VPP does
    (one turn); in stage 4 when the encoder does (two turns; the task keeps
    what the call stored); and stage 5 is done as soon as the head task has
    no sync point. *)
Theorem end_of_stream_moves_on (cfg : config) (s : state) :
  about_to_work cfg s = true \/ stage s = Stage5 ->
  let idx := GetFreeTaskIndex (pTasks s) (taskPoolSize cfg) in
  (stage s = Stage1 -> sts s = MFX_ERR_MORE_DATA ->
   hd MFX_ERR_MORE_DATA (w_read (world s)) = MFX_ERR_MORE_DATA ->
   let s' := tick cfg s in
   stage s' = Stage2 /\ sts s' = MFX_ERR_NONE /\
   trace s' = EvRead MFX_ERR_MORE_DATA :: trace s /\
   pTasks s' = pTasks s /\ sink s' = sink s) /\
  (stage s = Stage2 ->
   next_scan (nSurfNumDecVPP cfg) (w_pool (world s)) <> MFX_ERR_NOT_FOUND ->
   hd exhausted (w_dec (world s)) = exhausted ->
   let s' := run cfg 2 s in
   stage s' = Stage3 /\ sts s' = MFX_ERR_NONE /\
   trace s' = EvDecode true (next_scan (nSurfNumDecVPP cfg) (w_pool (world s))) exhausted
                :: (if MFX_WRN_DEVICE_BUSY =? sts s then [EvSleep 1] else [])
                ++ trace s /\
   pTasks s' = pTasks s /\ sink s' = sink s) /\
  (stage s = Stage3 ->
   next_scan (nSurfNumVPPEnc cfg) (w_pool2 (world s)) <> MFX_ERR_NOT_FOUND ->
   hd exhausted (w_vpp (world s)) = exhausted ->
   let s' := tick cfg s in
   stage s' = Stage4 /\ sts s' = MFX_ERR_NONE /\
   trace s' = EvVPP true (next_scan (nSurfNumVPPEnc cfg) (w_pool2 (world s))) exhausted
                :: trace s /\
   pTasks s' = pTasks s /\ sink s' = sink s) /\
  (stage s = Stage4 -> forall r rs,
   w_enc (world s) = r :: rs -> e_sts r = MFX_ERR_MORE_DATA ->
   let s' := run cfg 2 s in
   stage s' = Stage5 /\ sts s' = MFX_ERR_NONE /\
   trace s' = EvEncode None (Z.to_nat idx) r :: trace s /\
   pTasks s' = <[Z.to_nat idx := MkTask (e_bs r) (e_syncp r)]> (pTasks s) /\
   sink s' = sink s) /\
  (stage s = Stage5 -> stage5_cond s = false -> tick cfg s = set_stage Done s).
Proof.
  intros Hw idx.
  split; [|split; [|split; [|split]]].
  - intros Hs Hsts Hr s'. subst s'. destruct Hw as [Hw|Hw]; [|congruence].
    destruct (work_turn cfg s Hw) as (H1 & _). rewrite (H1 Hs).
    rewrite stage1_source_ends by (rewrite ?Hr; done). cbn [settle].
    match goal with |- context [leave_stage ?n ?s0] =>
      destruct (leave_cases n s0) as (Hl & _) end.
    rewrite Hl by (simpl; by rewrite Hr). rewrite Hr. by repeat split.
  - intros Hs Hscan Hd s'. subst s'. destruct Hw as [Hw|Hw]; [|congruence].
    destruct (work_turn cfg s Hw) as (_ & H2 & _).
    destruct (stage2_decode_other cfg s idx Hscan) as
      (s1 & Hwork & Hsts1 & Hst1 & Hp1 & Hsink1 & _ & Htr1); [by rewrite Hd|].
    change (run cfg 2 s) with (tick cfg (tick cfg s)).
    rewrite (H2 Hs). fold idx. rewrite Hwork. cbn [settle].
    rewrite Hd in Hsts1, Htr1. simpl in Hsts1.
    assert (Ht2 : tick cfg s1 = leave_stage (next_phase (stage s1)) s1).
    { apply tick_on_error; rewrite ?Hst1, ?Hs, ?Hsts1; simpl; try done; try lia.
      intros _. by left. }
    rewrite Ht2, Hst1, Hs. simpl next_phase.
    destruct (leave_cases Stage3 s1) as (Hl & _). rewrite Hl by done.
    simpl. by repeat split.
  - intros Hs Hscan Hv s'. subst s'. destruct Hw as [Hw|Hw]; [|congruence].
    destruct (work_turn cfg s Hw) as (_ & _ & H3 & _). rewrite (H3 Hs).
    rewrite stage3_vpp_stops by (rewrite ?Hv; done). cbn [settle].
    match goal with |- context [leave_stage ?n ?s0] =>
      destruct (leave_cases n s0) as (Hl & _) end.
    rewrite Hl by (simpl; by rewrite Hv). rewrite Hv. by repeat split.
  - intros Hs r rs Hrs Hr s'. subst s'. destruct Hw as [Hw|Hw]; [|congruence].
    destruct (work_turn cfg s Hw) as (_ & _ & _ & H4).
    change (run cfg 2 s) with (tick cfg (tick cfg s)).
    rewrite (H4 Hs). fold idx. unfold stage4_work, EncodeFrameAsync_loop.
    rewrite Hrs. rewrite enc_loop_final by (rewrite Hr; done). cbn [settle].
    match goal with |- context [tick cfg ?s0] =>
      assert (Ht2 : tick cfg s0 = leave_stage (next_phase (stage s0)) s0) end.
    { apply tick_on_error; simpl; rewrite ?Hs, ?Hr; simpl; try done; try lia.
      intros _. by right. }
    rewrite Ht2. simpl stage. rewrite Hs. simpl next_phase.
    match goal with |- context [leave_stage ?n ?s0] =>
      destruct (leave_cases n s0) as (Hl & _) end.
    rewrite Hl by done. simpl. by repeat split.
  - intros Hs Hc. unfold tick, iteration. by rewrite Hs, Hc.
Qed.

(** X11. A write that does not report [MFX_ERR_NONE] leaves the loop with the
    task still occupied, the frame counter and the sink as they were.  In
    stages 1 to 4 the status goes through the test that follows the loop: a
    negative status other than [MFX_ERR_MORE_DATA] aborts the run with that
    code.  The loop of stage 5 is followed by no test: the run is done, and
    the status of the write does not reach the exit code. *)
Theorem failed_write (cfg : config) (s : state) :
  about_to_wait cfg s = true ->
  MFX_ERR_NONE <= hd MFX_ERR_NONE (w_sync (world s)) ->
  hd MFX_ERR_NONE (w_write (world s)) <> MFX_ERR_NONE ->
  let r := hd MFX_ERR_NONE (w_write (world s)) in
  let f := nFirstSyncTask s in
  let t := task_at (pTasks s) f in
  let calls := [EvWrite f (payload (mfxBS t)) r;
                EvSync f (syncp t) 60000 (hd MFX_ERR_NONE (w_sync (world s)))] in
  let s' := tick cfg s in
  sink s' = sink s /\ pTasks s' = pTasks s /\ nFrame s' = nFrame s /\
  nFirstSyncTask s' = f /\
  (stage s = Stage5 -> stage s' = Done /\ sts s' = r /\ trace s' = calls ++ trace s) /\
  (stage s <> Stage5 -> r < MFX_ERR_NONE -> r <> MFX_ERR_MORE_DATA ->
   stage s' = Aborted r /\ trace s' = EvPrintRetMsg r :: calls ++ trace s) /\
  (stage s <> Stage5 -> MFX_ERR_NONE < r \/ r = MFX_ERR_MORE_DATA ->
   stage s' = next_phase (stage s) /\ trace s' = calls ++ trace s).
Proof.
  intros Hw Hsync Hwrite r f t calls s'. subst s'.
  rewrite (tick_waits_at cfg s Hw), (flush_write_fails cfg s Hsync Hwrite).
  cbn [settle]. fold r f t.
  set (s1 := set_sts r _).
  assert (Hlive : about_to_wait cfg s = true) by done.
  unfold about_to_wait in Hlive.
  destruct (leave_cases (next_phase (stage s)) s1) as (L1 & L2 & L3).
  assert (Hs1 : sts s1 = r) by done.
  destruct (stage s) eqn:Hs; try discriminate Hlive.
  5:{ simpl. repeat split; try done; intros; congruence. }
  all: assert (Hcases : r < MFX_ERR_NONE /\ r <> MFX_ERR_MORE_DATA \/
                        MFX_ERR_NONE < r \/ r = MFX_ERR_MORE_DATA)
         by (unfold MFX_ERR_NONE, MFX_ERR_MORE_DATA in *; lia).
  all: destruct Hcases as [[Hneg Hmd]|[Hpos|Hmd]].
  all: first [ rewrite L3 by (rewrite ?Hs1; done)
             | rewrite L2 by (rewrite Hs1; unfold MFX_ERR_NONE in *; lia)
             | rewrite L1 by (by rewrite Hs1) ].
  all: simpl; repeat split; try done; intros; try discriminate;
    unfold MFX_ERR_NONE, MFX_ERR_MORE_DATA in *; try lia; try congruence.
  all: try (destruct H0; lia).
Qed.

(** X12. An error ends the run with its code.  A status below zero, other
    than [MFX_ERR_MORE_DATA] and [MFX_ERR_MORE_SURFACE], that reaches the
    test of one of the first four loops aborts the run: the code is printed
    and returned.  Such a status from the reader (stage 1) or from the VPP
    (stages 1 to 3) leaves the loop in the turn of the call; from the
    decoder (stages 1 and 2) or from the encoder (stages 1 to 4) it is
    kept, nothing is called after the call that failed in that turn, and
    the test of the next turn aborts.  The task the encoder was given holds
    what the failed call stored. *)
Theorem errors_end_the_run (cfg : config) (e : mfxStatus) :
  e < MFX_ERR_NONE -> e <> MFX_ERR_MORE_DATA -> e <> MFX_ERR_MORE_SURFACE ->
  (forall s, (2 <= rank (stage s))%nat -> sts s = e ->
     let s' := tick cfg s in
     stage s' = Aborted e /\ trace s' = EvPrintRetMsg e :: trace s /\
     sink s' = sink s /\ pTasks s' = pTasks s) /\
  (forall s, about_to_work cfg s = true -> stage s = Stage1 ->
     sts s = MFX_ERR_MORE_DATA -> hd MFX_ERR_MORE_DATA (w_read (world s)) = e ->
     let s' := tick cfg s in
     stage s' = Aborted e /\ trace s' = [EvPrintRetMsg e; EvRead e] ++ trace s /\
     sink s' = sink s /\ pTasks s' = pTasks s) /\
  (forall s, about_to_work cfg s = true -> stage s = Stage1 ->
     (sts s = MFX_ERR_MORE_DATA ->
      hd MFX_ERR_MORE_DATA (w_read (world s)) = MFX_ERR_NONE) ->
     (sts s <= MFX_ERR_NONE ->
      next_scan (nSurfNumDecVPP cfg) (w_pool (world s)) <> MFX_ERR_NOT_FOUND) ->
     r_sts (hd exhausted (w_dec (world s))) = e ->
     let s' := tick cfg s in
     stage s' = Stage1 /\ sts s' = e /\
     trace s' = EvDecode false (decode_surface cfg s) (hd exhausted (w_dec (world s)))
                  :: decode_prelude s ++ trace s /\
     sink s' = sink s /\ pTasks s' = pTasks s) /\
  (forall s, about_to_work cfg s = true -> stage s = Stage2 ->
     next_scan (nSurfNumDecVPP cfg) (w_pool (world s)) <> MFX_ERR_NOT_FOUND ->
     r_sts (hd exhausted (w_dec (world s))) = e ->
     let s' := tick cfg s in
     stage s' = Stage2 /\ sts s' = e /\
     trace s' = EvDecode true (next_scan (nSurfNumDecVPP cfg) (w_pool (world s)))
                  (hd exhausted (w_dec (world s)))
                  :: (if MFX_WRN_DEVICE_BUSY =? sts s then [EvSleep 1] else [])
                  ++ trace s /\
     sink s' = sink s /\ pTasks s' = pTasks s) /\
  (forall s, about_to_work cfg s = true -> stage s = Stage3 ->
     next_scan (nSurfNumVPPEnc cfg) (w_pool2 (world s)) <> MFX_ERR_NOT_FOUND ->
     r_sts (hd exhausted (w_vpp (world s))) = e ->
     let s' := tick cfg s in
     stage s' = Aborted e /\
     trace s' = EvPrintRetMsg e
                  :: EvVPP true (next_scan (nSurfNumVPPEnc cfg) (w_pool2 (world s)))
                       (hd exhausted (w_vpp (world s)))
                  :: trace s /\
     sink s' = sink s /\ pTasks s' = pTasks s) /\
  (forall s, about_to_work cfg s = true -> stage s = Stage1 ->
     (sts s = MFX_ERR_MORE_DATA ->
      hd MFX_ERR_MORE_DATA (w_read (world s)) = MFX_ERR_NONE) ->
     (sts s <= MFX_ERR_NONE ->
      next_scan (nSurfNumDecVPP cfg) (w_pool (world s)) <> MFX_ERR_NOT_FOUND) ->
     gives_frame (hd exhausted (w_dec (world s))) = true ->
     next_scan (nSurfNumVPPEnc cfg) (w_pool2 (world s)) <> MFX_ERR_NOT_FOUND ->
     r_sts (hd exhausted (w_vpp (world s))) = e ->
     let s' := tick cfg s in
     stage s' = Aborted e /\
     trace s' = EvPrintRetMsg e
                  :: EvVPP false (next_scan (nSurfNumVPPEnc cfg) (w_pool2 (world s)))
                       (hd exhausted (w_vpp (world s)))
                  :: EvDecode false (decode_surface cfg s)
                       (hd exhausted (w_dec (world s)))
                  :: decode_prelude s ++ trace s /\
     sink s' = sink s /\ pTasks s' = pTasks s) /\
  (forall s, about_to_work cfg s = true -> stage s = Stage2 ->
     next_scan (nSurfNumDecVPP cfg) (w_pool (world s)) <> MFX_ERR_NOT_FOUND ->
     gives_frame (hd exhausted (w_dec (world s))) = true ->
     next_scan (nSurfNumVPPEnc cfg) (w_pool2 (world s)) <> MFX_ERR_NOT_FOUND ->
     r_sts (hd exhausted (w_vpp (world s))) = e ->
     let s' := tick cfg s in
     stage s' = Aborted e /\
     trace s' = EvPrintRetMsg e
                  :: EvVPP false (next_scan (nSurfNumVPPEnc cfg) (w_pool2 (world s)))
                       (hd exhausted (w_vpp (world s)))
                  :: EvDecode true (next_scan (nSurfNumDecVPP cfg) (w_pool (world s)))
                       (hd exhausted (w_dec (world s)))
                  :: (if MFX_WRN_DEVICE_BUSY =? sts s then [EvSleep 1] else [])
                  ++ trace s /\
     sink s' = sink s /\ pTasks s' = pTasks s) /\
  (forall s idx next,
     next_scan (nSurfNumVPPEnc cfg) (w_pool2 (world s)) <> MFX_ERR_NOT_FOUND ->
     r_sts (hd exhausted (w_vpp (world s))) = e ->
     let s' := settle (leave_stage next) (vpp_and_encode cfg idx s) in
     stage s' = Aborted e /\
     trace s' = EvPrintRetMsg e
                  :: EvVPP false (next_scan (nSurfNumVPPEnc cfg) (w_pool2 (world s)))
                       (hd exhausted (w_vpp (world s)))
                  :: trace s /\
     sink s' = sink s /\ pTasks s' = pTasks s) /\
  (forall s v vs r rs, about_to_work cfg s = true -> stage s = Stage1 ->
     (sts s = MFX_ERR_MORE_DATA ->
      hd MFX_ERR_MORE_DATA (w_read (world s)) = MFX_ERR_NONE) ->
     (sts s <= MFX_ERR_NONE ->
      next_scan (nSurfNumDecVPP cfg) (w_pool (world s)) <> MFX_ERR_NOT_FOUND) ->
     gives_frame (hd exhausted (w_dec (world s))) = true ->
     next_scan (nSurfNumVPPEnc cfg) (w_pool2 (world s)) <> MFX_ERR_NOT_FOUND ->
     w_vpp (world s) = v :: vs -> r_sts v = MFX_ERR_NONE ->
     w_enc (world s) = r :: rs -> e_sts r = e ->
     let idx := Z.to_nat (GetFreeTaskIndex (pTasks s) (taskPoolSize cfg)) in
     let i2 := next_scan (nSurfNumVPPEnc cfg) (w_pool2 (world s)) in
     let s' := tick cfg s in
     stage s' = Stage1 /\ sts s' = e /\ sink s' = sink s /\
     pTasks s' = <[idx := MkTask (e_bs r) (e_syncp r)]> (pTasks s) /\
     trace s' = EvEncode (Some i2) idx r :: EvVPP false i2 v
                  :: EvDecode false (decode_surface cfg s)
                       (hd exhausted (w_dec (world s)))
                  :: decode_prelude s ++ trace s) /\
  (forall s v vs r rs, about_to_work cfg s = true -> stage s = Stage2 ->
     next_scan (nSurfNumDecVPP cfg) (w_pool (world s)) <> MFX_ERR_NOT_FOUND ->
     gives_frame (hd exhausted (w_dec (world s))) = true ->
     next_scan (nSurfNumVPPEnc cfg) (w_pool2 (world s)) <> MFX_ERR_NOT_FOUND ->
     w_vpp (world s) = v :: vs -> r_sts v = MFX_ERR_NONE ->
     w_enc (world s) = r :: rs -> e_sts r = e ->
     let idx := Z.to_nat (GetFreeTaskIndex (pTasks s) (taskPoolSize cfg)) in
     let i2 := next_scan (nSurfNumVPPEnc cfg) (w_pool2 (world s)) in
     let s' := tick cfg s in
     stage s' = Stage2 /\ sts s' = e /\ sink s' = sink s /\
     pTasks s' = <[idx := MkTask (e_bs r) (e_syncp r)]> (pTasks s) /\
     trace s' = EvEncode (Some i2) idx r :: EvVPP false i2 v
                  :: EvDecode true (next_scan (nSurfNumDecVPP cfg) (w_pool (world s)))
                       (hd exhausted (w_dec (world s)))
                  :: (if MFX_WRN_DEVICE_BUSY =? sts s then [EvSleep 1] else [])
                  ++ trace s) /\
  (forall s v vs r rs, about_to_work cfg s = true -> stage s = Stage3 ->
     next_scan (nSurfNumVPPEnc cfg) (w_pool2 (world s)) <> MFX_ERR_NOT_FOUND ->
     w_vpp (world s) = v :: vs -> r_sts v = MFX_ERR_NONE ->
     w_enc (world s) = r :: rs -> e_sts r = e ->
     let idx := Z.to_nat (GetFreeTaskIndex (pTasks s) (taskPoolSize cfg)) in
     let i2 := next_scan (nSurfNumVPPEnc cfg) (w_pool2 (world s)) in
     let s' := tick cfg s in
     stage s' = Stage3 /\ sts s' = e /\ sink s' = sink s /\
     pTasks s' = <[idx := MkTask (e_bs r) (e_syncp r)]> (pTasks s) /\
     trace s' = EvEncode (Some i2) idx r :: EvVPP true i2 v :: trace s) /\
  (forall s r rs, about_to_work cfg s = true -> stage s = Stage4 ->
     w_enc (world s) = r :: rs -> e_sts r = e ->
     let idx := Z.to_nat (GetFreeTaskIndex (pTasks s) (taskPoolSize cfg)) in
     let s' := tick cfg s in
     stage s' = Stage4 /\ sts s' = e /\ sink s' = sink s /\
     trace s' = EvEncode None idx r :: trace s /\
     pTasks s' = <[idx := MkTask (e_bs r) (e_syncp r)]> (pTasks s)).
Proof.
  intros Hneg Hmd Hms.
  assert (Hleave : forall next s1, sts s1 = e ->
    leave_stage next s1 =
      set_stage (Aborted e) (log (EvPrintRetMsg e) (set_sts e s1))).
  { intros next s1 Hs1. destruct (leave_cases next s1) as (_ & _ & L3).
    rewrite <- Hs1. apply L3; by rewrite Hs1. }
  assert (Hnot : forall d, r_sts d = e -> gives_frame d = false).
  { intros d Hd. unfold gives_frame. rewrite Hd.
    destruct (Z.eqb_spec MFX_ERR_NONE e); [unfold MFX_ERR_NONE in *; lia|].
    destruct (Z.ltb_spec MFX_ERR_NONE e); [lia | done]. }
  split; [|split; [|split; [|split; [|split; [|split; [|split; [|split; [|split;
    [|split; [|split]]]]]]]]]].
  - intros s Hr Hs s'. subst s'.
    rewrite tick_on_error by (rewrite ?Hs; done).
    rewrite Hleave by done. by repeat split.
  - intros s Hw Hst Hs Hr s'. subst s'.
    destruct (work_turn cfg s Hw) as (H1 & _). rewrite (H1 Hst).
    rewrite stage1_source_ends by (rewrite ?Hr; unfold MFX_ERR_NONE in *; done || lia).
    cbn [settle]. rewrite Hleave by done. rewrite Hr. by repeat split.
  - intros s Hw Hst Hread Hscan Hd s'. subst s'.
    destruct (work_turn cfg s Hw) as (H1 & _). rewrite (H1 Hst).
    destruct (about_to_work_free cfg s Hw) as [_ Hc].
    destruct (stage1_decode_other cfg s
                (GetFreeTaskIndex (pTasks s) (taskPoolSize cfg)) Hread Hscan)
      as (s1 & Hwork & Hsts1 & Hst1 & Hp1 & Hsink1 & _ & _ & Htr1).
    { unfold loop_cond in Hc. rewrite Hst in Hc. unfold stage1_cond in Hc.
      bools; codes; lia. }
    { by apply Hnot. }
    rewrite Hwork. cbn [settle]. rewrite Hsts1, Hst1, Hd, Htr1. by repeat split.
  - intros s Hw Hst Hscan Hd s'. subst s'.
    destruct (work_turn cfg s Hw) as (_ & H2 & _). rewrite (H2 Hst).
    destruct (stage2_decode_other cfg s
                (GetFreeTaskIndex (pTasks s) (taskPoolSize cfg)) Hscan)
      as (s1 & Hwork & Hsts1 & Hst1 & Hp1 & Hsink1 & _ & Htr1).
    { by apply Hnot. }
    rewrite Hwork. cbn [settle]. rewrite Hsts1, Hst1, Hd, Htr1. by repeat split.
  - intros s Hw Hst Hscan Hv s'. subst s'.
    destruct (work_turn cfg s Hw) as (_ & _ & H3 & _). rewrite (H3 Hst).
    rewrite stage3_vpp_stops by (rewrite ?Hv; done). cbn [settle].
    rewrite Hleave by (simpl; by rewrite Hv). rewrite Hv. by repeat split.
  - intros s Hw Hst Hread Hscan Hd Hscan2 Hv s'. subst s'.
    destruct (work_turn cfg s Hw) as (H1 & _). rewrite (H1 Hst).
    destruct (about_to_work_free cfg s Hw) as [_ Hc].
    destruct (stage1_frame cfg s (GetFreeTaskIndex (pTasks s) (taskPoolSize cfg))
                Hread Hscan)
      as (s0 & -> & Htr0 & Hp0 & Hv0 & He0 & Ht0 & Hs0 & Hst0); [|done|].
    { unfold loop_cond in Hc. rewrite Hst in Hc. unfold stage1_cond in Hc.
      bools; codes; lia. }
    rewrite vpp_fails by (rewrite ?Hp0, ?Hv0, ?Hv; done). cbn [settle].
    rewrite Hleave by (simpl; by rewrite Hv0, Hv).
    cbn [stage trace sink pTasks set_stage log set_sts set_world].
    rewrite Hp0, Hv0, Htr0, Hs0, Ht0. by repeat split.
  - intros s Hw Hst Hscan Hd Hscan2 Hv s'. subst s'.
    destruct (work_turn cfg s Hw) as (_ & H2 & _). rewrite (H2 Hst).
    destruct (stage2_frame cfg s (GetFreeTaskIndex (pTasks s) (taskPoolSize cfg))
                Hscan Hd)
      as (s0 & -> & Htr0 & Hp0 & Hv0 & He0 & Ht0 & Hs0 & Hst0).
    rewrite vpp_fails by (rewrite ?Hp0, ?Hv0, ?Hv; done). cbn [settle].
    rewrite Hleave by (simpl; by rewrite Hv0, Hv).
    cbn [stage trace sink pTasks set_stage log set_sts set_world].
    rewrite Hp0, Hv0, Htr0, Hs0, Ht0. by repeat split.
  - intros s idx next Hscan Hv s'. subst s'.
    rewrite vpp_fails by (rewrite ?Hv; done). cbn [settle].
    rewrite Hleave by (simpl; by rewrite Hv). rewrite Hv. by repeat split.
  - intros s v vs r rs Hw Hst Hread Hscan Hd Hscan2 Hvs Hv Hrs Hr idx i2 s'.
    subst s' idx i2.
    destruct (work_turn cfg s Hw) as (H1 & _). rewrite (H1 Hst).
    destruct (about_to_work_free cfg s Hw) as [_ Hc].
    destruct (stage1_frame cfg s (GetFreeTaskIndex (pTasks s) (taskPoolSize cfg))
                Hread Hscan)
      as (s0 & -> & Htr0 & Hp0 & Hv0 & He0 & Ht0 & Hs0 & Hst0); [|done|].
    { unfold loop_cond in Hc. rewrite Hst in Hc. unfold stage1_cond in Hc.
      bools; codes; lia. }
    destruct (encode_fails cfg s0 (GetFreeTaskIndex (pTasks s) (taskPoolSize cfg))
                v vs r rs)
      as (s1 & -> & Hsts1 & Hst1 & Hsink1 & Hp1 & Htr1);
      rewrite ?Hp0, ?Hv0, ?He0, ?Hr; try done.
    cbn [settle]. rewrite Hsts1, Hst1, Hsink1, Hp1, Htr1, Hst0, Hs0, Ht0, Htr0, Hp0, Hr.
    by repeat split.
  - intros s v vs r rs Hw Hst Hscan Hd Hscan2 Hvs Hv Hrs Hr idx i2 s'.
    subst s' idx i2.
    destruct (work_turn cfg s Hw) as (_ & H2 & _). rewrite (H2 Hst).
    destruct (stage2_frame cfg s (GetFreeTaskIndex (pTasks s) (taskPoolSize cfg))
                Hscan Hd)
      as (s0 & -> & Htr0 & Hp0 & Hv0 & He0 & Ht0 & Hs0 & Hst0).
    destruct (encode_fails cfg s0 (GetFreeTaskIndex (pTasks s) (taskPoolSize cfg))
                v vs r rs)
      as (s1 & -> & Hsts1 & Hst1 & Hsink1 & Hp1 & Htr1);
      rewrite ?Hp0, ?Hv0, ?He0, ?Hr; try done.
    cbn [settle]. rewrite Hsts1, Hst1, Hsink1, Hp1, Htr1, Hst0, Hs0, Ht0, Htr0, Hp0, Hr.
    by repeat split.
  - intros s v vs r rs Hw Hst Hscan Hvs Hv Hrs Hr idx i2 s'. subst s' idx i2.
    destruct (work_turn cfg s Hw) as (_ & _ & H3 & _). rewrite (H3 Hst).
    destruct (stage3_encode_fails cfg s
                (GetFreeTaskIndex (pTasks s) (taskPoolSize cfg)) v vs r rs
                Hscan Hvs Hv Hrs) as (s1 & Hwork & Hsts1 & Hst1 & Hsink1 & Hp1 & Htr1);
      [by rewrite Hr..|].
    rewrite Hwork. cbn [settle]. rewrite Hsts1, Hst1, Hr. by repeat split.
  - intros s r rs Hw Hst Hrs Hr idx s'. subst s' idx.
    destruct (work_turn cfg s Hw) as (_ & _ & _ & H4). rewrite (H4 Hst).
    unfold stage4_work, EncodeFrameAsync_loop. rewrite Hrs.
    rewrite enc_loop_final by (rewrite Hr; lia). cbn [settle]. simpl.
    rewrite Hr. by repeat split.
Qed.

(** X13. The surface the decoder gets.  In stage 1 the decoder is called with
    the surface of a new scan of the pool when the status is
    [MFX_ERR_NONE] or [MFX_ERR_MORE_SURFACE], and after a read of the source
    that succeeded when it is [MFX_ERR_MORE_DATA]; after a warning it is
    called again with the surface of the last call, after a sleep of 1 ms when
    the warning is Busy.  In stage 2 every call comes after a new scan, and
    has no bit stream. *)
Theorem decoder_gets_its_surface (cfg : config) (s : state) :
  about_to_work cfg s = true ->
  let d := hd exhausted (w_dec (world s)) in
  (stage s = Stage1 ->
   (sts s = MFX_ERR_MORE_DATA -> hd MFX_ERR_MORE_DATA (w_read (world s)) = MFX_ERR_NONE) ->
   (sts s <= MFX_ERR_NONE ->
    next_scan (nSurfNumDecVPP cfg) (w_pool (world s)) <> MFX_ERR_NOT_FOUND) ->
   (EvDecode false (decode_surface cfg s) d :: decode_prelude s ++ trace s)
   `suffix_of` trace (tick cfg s)) /\
  (stage s = Stage2 ->
   next_scan (nSurfNumDecVPP cfg) (w_pool (world s)) <> MFX_ERR_NOT_FOUND ->
   (EvDecode true (next_scan (nSurfNumDecVPP cfg) (w_pool (world s))) d
      :: (if MFX_WRN_DEVICE_BUSY =? sts s then [EvSleep 1] else []) ++ trace s)
   `suffix_of` trace (tick cfg s)).
Proof.
  intros Hw d. destruct (work_turn cfg s Hw) as (H1 & H2 & _).
  destruct (about_to_work_free cfg s Hw) as [_ Hc]. split.
  - intros Hs Hread Hscan. rewrite (H1 Hs).
    etrans; [|apply settle_suffix]. apply stage1_decode_call; [done..|].
    unfold loop_cond in Hc. rewrite Hs in Hc. unfold stage1_cond in Hc.
    bools; codes; lia.
  - intros Hs Hscan. rewrite (H2 Hs).
    etrans; [|apply settle_suffix]. by apply stage2_decode_call.
Qed.

Lemma decoder_gets_its_surface_witness :
  let s := run depth2 1 (init depth2 busy_world) in
  about_to_work depth2 s = true /\ stage s = Stage1 /\
  (EvDecode false (nIndex s) busy :: [EvSleep 1] ++ trace s)
  `suffix_of` trace (tick depth2 s).
Proof.
  intros s.
  assert (H : about_to_work depth2 s = true) by reflexivity.
  destruct (decoder_gets_its_surface depth2 s H) as [H1 _].
  split; [exact H|]. split; [reflexivity|].
  apply (H1 eq_refl); [discriminate | intros Hle; exfalso; revert Hle; by vm_compute].
Defined.

(** ** Examples of the remaining properties *)

Lemma source_is_read_before_draining_witness :
  let tr := trace (run depth1 14 (init depth1 three_frames)) in
  tr = take 3 tr ++ EvRead (-10) :: drop 4 tr /\
  Forall (fun e => drains e = false) (drop 4 tr).
Proof.
  intros tr.
  assert (H : tr = take 3 tr ++ EvRead (-10) :: drop 4 tr)
    by (vm_compute; reflexivity).
  split; [exact H|].
  exact (source_is_read_before_draining depth1 three_frames 14
           (take 3 tr) (drop 4 tr) (EvRead (-10)) H eq_refl).
Defined.

Lemma end_of_stream_moves_on_witness :
  let s := run depth1 7 (init depth1 three_frames) in
  about_to_work depth1 s = true /\ stage s = Stage1 /\ sts s = MFX_ERR_MORE_DATA /\
  stage (tick depth1 s) = Stage2 /\ sts (tick depth1 s) = MFX_ERR_NONE.
Proof.
  intros s.
  assert (H : about_to_work depth1 s = true) by reflexivity.
  destruct (end_of_stream_moves_on depth1 s (or_introl H)) as [H1 _].
  destruct (H1 eq_refl eq_refl eq_refl) as (Ha & Hb & _).
  split; [exact H|]. split; [reflexivity|]. split; [reflexivity|].
  split; [exact Ha | exact Hb].
Defined.

Lemma failed_write_witness :
  let s := run depth1 1 (init depth1 write_fails) in
  about_to_wait depth1 s = true /\
  MFX_ERR_NONE <= hd MFX_ERR_NONE (w_sync (world s)) /\
  hd MFX_ERR_NONE (w_write (world s)) <> MFX_ERR_NONE /\
  stage (tick depth1 s) = Aborted (-1) /\ sink (tick depth1 s) = sink s /\
  pTasks (tick depth1 s) = pTasks s.
Proof.
  intros s.
  assert (H1 : about_to_wait depth1 s = true) by reflexivity.
  assert (H2 : MFX_ERR_NONE <= hd MFX_ERR_NONE (w_sync (world s))) by discriminate.
  assert (H3 : hd MFX_ERR_NONE (w_write (world s)) <> MFX_ERR_NONE) by discriminate.
  destruct (failed_write depth1 s H1 H2 H3) as (Ha & Hb & _ & _ & _ & Hc & _).
  destruct Hc as [Hc _]; [discriminate | reflexivity | discriminate |].
  split; [exact H1|]. split; [exact H2|]. split; [exact H3|].
  split; [exact Hc|]. split; [exact Ha | exact Hb].
Defined.

Lemma errors_end_the_run_witness :
  let s := run depth1 1 (init depth1 decoder_fails) in
  -1 < MFX_ERR_NONE /\ (2 <= rank (stage s))%nat /\ sts s = -1 /\
  stage (tick depth1 s) = Aborted (-1) /\
  trace (tick depth1 s) = EvPrintRetMsg (-1) :: trace s.
Proof.
  intros s.
  assert (H1 : -1 < MFX_ERR_NONE) by reflexivity.
  assert (H2 : (2 <= rank (stage s))%nat) by (simpl; lia).
  destruct (errors_end_the_run depth1 (-1) H1 ltac:(discriminate) ltac:(discriminate))
    as [Hloop _].
  destruct (Hloop s H2 eq_refl) as (Ha & Hb & _).
  split; [exact H1|]. split; [exact H2|]. split; [reflexivity|].
  split; [exact Ha | exact Hb].
Defined.

Lemma stages_never_go_back_witness :
  let s := run depth1 14 (init depth1 three_frames) in
  (3 <= 14)%nat /\ final (stage s) /\
  (position (stage (run depth1 3 (init depth1 three_frames)))
   <= position (stage s))%nat /\
  run depth1 5 s = s.
Proof.
  intros s.
  assert (H1 : (3 <= 14)%nat) by lia.
  assert (H2 : final (stage s)) by exact I.
  destruct (stages_never_go_back depth1 (init depth1 three_frames)) as (_ & Hpos & _).
  destruct (stages_never_go_back depth1 s) as (_ & _ & Hfix).
  split; [exact H1|]. split; [exact H2|].
  split; [exact (Hpos 3%nat 14%nat H1) | exact (Hfix H2 5%nat)].
Defined.
